(** * go-rustfs: retry executor and auditable storage decorator

    A shallow embedding of the parts of [github.com/garyjdn/go-rustfs] that
    the specification talks about, followed by the properties proved of them:

    - [utils] (retry.go): [calculateDelay], [RetryWithBackoffWithContext],
      [IsRetryableError] and the tests it is made of, the configuration
      builder;
    - [config]: [matchContentType], [IsAllowedType], [IsAllowedOrigin],
      [Validate];
    - [utils] (file_utils.go): [IsValidFilename], [SanitizeFilename],
      [ValidateFile], [GetFileExtension], the generated names;
    - [audit]: the event builders of [RustFSAuditLogger], the classes and
      severities of events;
    - [client]: [AuditableRustFSClient], [MockRustFSClient], the factory,
      [GetFileURL] of [RustFSClient].

    Conventions.  Go's [int], [int64] and [time.Duration] are [Z]; a Go
    [error] is [option error] with [None] for [nil]; a Go [string] is a
    [string] (a sequence of bytes); [map[string]interface{}] is a
    [gmap string Value].  [float64] arithmetic is interpreted exactly, over
    the rationals [Q] ([calculateDelay_fl] is [calculateDelay] with the
    rounding of each operation); the conversion of a [float64] to an
    [int64] keeps track of the range of [int64].  Code that acts on the outside world
    (the retried operation, the context, the clock, the storage backend,
    the audit sink) threads an explicit world; a panic is [None]. *)

From Stdlib Require Import ZArith QArith Qround Qpower Lia Lqa Bool List.
From Stdlib Require Import Strings.String Strings.Ascii.
From Stdlib Require Import Numbers.DecimalString.
From stdpp Require Import base option list strings gmap relations.
Import ListNotations.

Open Scope Z_scope.

(** ** Errors *)

(** The [error] values this code creates or passes on: [fmt.Errorf] and
    [errors.New] values carry a message, the two [context] errors are the
    values [ctx.Err()] can return, and [AppError] is
    [apperror.NewAppError(code, message, cause)]. *)
Inductive error : Type :=
| errorString (msg : string)
| Canceled
| DeadlineExceeded
| AppError (code : Z) (message : string) (cause : error).

(** [err.Error()]; the text of an [AppError] is its message. *)
Definition Error (e : error) : string :=
  match e with
  | errorString msg => msg
  | Canceled => "context canceled"
  | DeadlineExceeded => "context deadline exceeded"
  | AppError _ message _ => message
  end.

(** The verb [%d] of [fmt]. *)
Definition Z_to_string (z : Z) : string :=
  NilZero.string_of_int (Z.to_int z).

(** ** utils: the retry executor *)

Module Retry.

(** [types.RetryConfig] *)
Record RetryConfig := {
  MaxAttempts : Z;
  Delay : Z;          (* time.Duration, nanoseconds *)
  Backoff : Q         (* float64 *)
}.

(** [utils.RetryResult] *)
Record RetryResult := {
  Success : bool;
  Attempts : Z;
  Duration : Z;
  LastError : option error;
  TotalDelay : Z
}.

(** The value a Go [int64] holds after an addition: two's complement
    wrap-around. *)
Definition int64 (z : Z) : Z := (z + 2 ^ 63) mod 2 ^ 64 - 2 ^ 63.

Definition time_Second : Z := 1000000000.

(** [float64(time.Now().UnixNano()%1000) / 1000.0].  Go's [%] truncates
    towards zero, which is [Z.rem]. *)
Definition randomFloat64 (unixNano : Z) : Q :=
  (inject_Z (Z.rem unixNano 1000) / 1000)%Q.

(** [delay < float64(baseDelay)] *)
Definition Qltb (x y : Q) : bool := negb (Qle_bool y x).

(** The fraction of [x] discarded (truncation towards zero). *)
Definition Qtrunc (x : Q) : Z := Z.quot (Qnum x) (Z.pos (Qden x)).

Definition inInt64 (z : Z) : bool := (- 2 ^ 63 <=? z) && (z <? 2 ^ 63).

(** The conversion [time.Duration(delay)] of a [float64] to an [int64]:
    the fraction is discarded.  When the result does not fit an [int64]
    the conversion still succeeds, with a value that Go leaves to the
    implementation: [overflow] is the value the platform yields. *)
Definition time_Duration (overflow : Q -> Z) (x : Q) : Z :=
  if inInt64 (Qtrunc x) then Qtrunc x else overflow x.

(** On amd64 the conversion instruction yields the least [int64] for every
    value out of range. *)
Definition amd64 : Q -> Z := fun _ => - 2 ^ 63.

(** [calculateDelay]; [unixNano] is the clock reading [randomFloat64]
    takes. *)
Definition calculateDelay (overflow : Q -> Z) (attempt : Z) (baseDelay : Z)
    (backoff : Q) (unixNano : Z) : Z :=
  let delay := (inject_Z baseDelay * backoff ^ attempt)%Q in
  let jitter := (delay * (1 # 4) * (2 * randomFloat64 unixNano - 1))%Q in
  let delay := (delay + jitter)%Q in
  let delay := if Qltb delay (inject_Z baseDelay)
               then inject_Z baseDelay else delay in
  time_Duration overflow delay.

(** [GetRetryDelay] *)
Definition GetRetryDelay (overflow : Q -> Z) (attempt : Z) (baseDelay : Z)
    (backoff : Q) (unixNano : Z) : Z :=
  calculateDelay overflow attempt baseDelay backoff unixNano.

(** The bounds the specification gives for the delay of attempt [i]. *)
Definition delay_within_bounds (i baseDelay : Z) (backoff : Q) (delay : Z)
  : Prop :=
  baseDelay <= delay /\
  (inject_Z delay <= inject_Z baseDelay * backoff ^ i * (5 # 4))%Q.

(** Which case of the [select] statement ran. *)
Inductive Selected := TimerFired | CtxDone.

(** What the executor runs against: the operation [fn], the context and
    the clock, each acting on a world [W] that the executor threads
    through, and the platform.  [ctx_Err] is [ctx.Err()], [select delay] is
    [select { case <-time.After(delay): case <-ctx.Done(): }], [overflow]
    is the result of converting a [float64] out of the range of [int64]. *)
Record Env (W : Type) := {
  fn : W -> option error * W;
  ctx_Err : W -> option error;
  select : Z -> W -> Selected * W;
  time_Now : W -> Z;
  overflow : Q -> Z
}.
Arguments fn {W}.
Arguments overflow {W}.
Arguments ctx_Err {W}.
Arguments select {W}.
Arguments time_Now {W}.

(** The variables of the [for] loop, and the world. *)
Record LoopState (W : Type) := {
  attempt : Z;
  lastError : option error;
  totalDelay : Z;
  world : W
}.
Arguments attempt {W}.
Arguments lastError {W}.
Arguments totalDelay {W}.
Arguments world {W}.
Arguments Build_LoopState {W}.

Section Executor.
Context {W : Type}.
Variable E : Env W.
Variable config : RetryConfig.
Variable startTime : Z.

Definition time_Since (w : W) : Z := time_Now E w - startTime.

(** One pass through the body of the [for] loop: either a [return]
    (left) or the state in which [attempt++] leaves the loop (right). *)
Definition iteration (s : LoopState W) : RetryResult * W + LoopState W :=
  let w := world s in
  match ctx_Err E w with
  | Some _ =>
      inl ({| Success := false;
              Attempts := attempt s;
              Duration := time_Since w;
              LastError := ctx_Err E w;
              TotalDelay := totalDelay s |}, w)
  | None =>
      let (err, w1) := fn E w in
      match err with
      | None =>
          inl ({| Success := true;
                  Attempts := attempt s + 1;
                  Duration := time_Since w1;
                  LastError := None;
                  TotalDelay := totalDelay s |}, w1)
      | Some _ =>
          if attempt s <? MaxAttempts config - 1 then
            let delay := calculateDelay (overflow E) (attempt s)
                           (Delay config) (Backoff config)
                           (time_Now E w1) in
            let totalDelay' := int64 (totalDelay s + delay) in
            match select E delay w1 with
            | (TimerFired, w2) =>
                inr {| attempt := attempt s + 1; lastError := err;
                       totalDelay := totalDelay'; world := w2 |}
            | (CtxDone, w2) =>
                inl ({| Success := false;
                        Attempts := attempt s + 1;
                        Duration := time_Since w2;
                        LastError := ctx_Err E w2;
                        TotalDelay := totalDelay' |}, w2)
            end
          else
            inr {| attempt := attempt s + 1; lastError := err;
                   totalDelay := totalDelay s; world := w1 |}
      end
  end.

(** The [return] after the loop. *)
Definition exhausted (s : LoopState W) : RetryResult * W :=
  ({| Success := false;
      Attempts := MaxAttempts config;
      Duration := time_Since (world s);
      LastError := lastError s;
      TotalDelay := totalDelay s |}, world s).

(** [for ; attempt < config.MaxAttempts; attempt++ { ... }].  The loop
    is counted, so [fuel] bounds the passes; [for_loop_fuel] below shows
    that [MaxAttempts - attempt] passes are always enough. *)
Fixpoint for_loop (fuel : nat) (s : LoopState W) : RetryResult * W :=
  if attempt s <? MaxAttempts config then
    match fuel with
    | O => exhausted s
    | S fuel' =>
        match iteration s with
        | inl r => r
        | inr s' => for_loop fuel' s'
        end
    end
  else exhausted s.

Definition run (s : LoopState W) : RetryResult * W :=
  for_loop (Z.to_nat (MaxAttempts config - attempt s)) s.

(** The loop moves from the start of one attempt to the start of the
    next. *)
Definition next_attempt (s s' : LoopState W) : Prop :=
  attempt s < MaxAttempts config /\ iteration s = inr s'.

End Executor.

Definition defaultConfig : RetryConfig :=
  {| MaxAttempts := 3; Delay := time_Second; Backoff := 2 |}.

Definition initial {W} (w : W) : LoopState W :=
  {| attempt := 0; lastError := None; totalDelay := 0; world := w |}.

(** [RetryWithBackoffWithContext(ctx, fn, config)]; a [nil] config is
    [None]. *)
Definition RetryWithBackoffWithContext {W} (E : Env W)
    (config : option RetryConfig) (w : W) : RetryResult * W :=
  let config := match config with
                | None => defaultConfig
                | Some c => c
                end in
  let startTime := time_Now E w in
  run E config startTime (initial w).

(** [RetryWithFixedDelayWithContext] *)
Definition RetryWithFixedDelayWithContext {W} (E : Env W)
    (maxAttempts delay : Z) (w : W) : RetryResult * W :=
  RetryWithBackoffWithContext E
    (Some {| MaxAttempts := maxAttempts; Delay := delay; Backoff := 1 |}) w.

(** *** Operations and contexts to run the executor against *)

(** An operation whose outcome at its [calls]-th invocation (from 0) is
    [script calls]; the world keeps the number of invocations next to
    whatever else [E] does. *)
Definition scripted {W} (script : nat -> option error) (E : Env W)
  : Env (W * nat) :=
  {| fn := fun '(w, calls) => (script calls, (snd (fn E w), S calls));
     ctx_Err := fun '(w, _) => ctx_Err E w;
     select := fun d '(w, calls) =>
                 let (c, w') := select E d w in (c, (w', calls));
     time_Now := fun '(w, _) => time_Now E w;
     overflow := overflow E |}.

(** The operation of [E] with a counter of its invocations. *)
Definition counting {W} (E : Env W) : Env (W * nat) :=
  {| fn := fun '(w, calls) => let (r, w') := fn E w in (r, (w', S calls));
     ctx_Err := fun '(w, _) => ctx_Err E w;
     select := fun d '(w, calls) =>
                 let (c, w') := select E d w in (c, (w', calls));
     time_Now := fun '(w, _) => time_Now E w;
     overflow := overflow E |}.

(** A context that is never cancelled, such as [context.Background()]:
    [Err] is always [nil] and [Done] never fires. *)
Definition never_cancelled {W} (E : Env W) : Prop :=
  (forall w, ctx_Err E w = None) /\
  (forall d w, fst (select E d w) = TimerFired).

(** The contract of [context.Context]: once [Done] is closed, [Err]
    returns a non-nil error. *)
Definition context_contract {W} (E : Env W) : Prop :=
  forall d w w', select E d w = (CtxDone, w') -> ctx_Err E w' <> None.

(** A world that is a clock: the operation takes [opTime] and fails with
    [opErr] (or succeeds), the context is cancelled with [reason] from
    the instant [cancelAt] on, and waiting moves the clock. *)
Definition clockEnv (opResult : option error) (opTime : Z)
    (cancelAt : option Z) (reason : error) : Env Z :=
  let cancelled now := match cancelAt with
                       | Some t => t <=? now
                       | None => false
                       end in
  {| fn := fun now => (opResult, now + opTime);
     ctx_Err := fun now => if cancelled now then Some reason else None;
     select := fun d now =>
                 match cancelAt with
                 | Some t => if t <? now + d then (CtxDone, Z.max now t)
                             else (TimerFired, now + d)
                 | None => (TimerFired, now + d)
                 end;
     time_Now := fun now => now;
     overflow := amd64 |}.

(** An operation that fails at every invocation, and one that fails at its
    first invocation only. *)
Definition alwaysFails : nat -> option error :=
  fun _ => Some (errorString "connection refused").

Definition failsOnce : nat -> option error :=
  fun calls => match calls with
               | O => Some (errorString "connection reset")
               | S _ => None
               end.

(** The invariant the specification gives for a [RetryOutcome]:
    [attemptsUsed] in [1..maxAttempts], and [lastError] present iff not
    [succeeded]. *)
Definition RetryOutcome_invariant (maxAttempts : Z) (r : RetryResult)
  : Prop :=
  1 <= Attempts r <= maxAttempts /\
  (LastError r <> None <-> Success r = false).

(** *** The executor under observation *)

(** What the executor has done so far: the invocations of the operation
    and the waits in the [select] statement. *)
Record Tally := {
  invoked : nat;
  waited : nat
}.

(** [E] with both counters next to its world. *)
Definition tallying {W} (E : Env W) : Env (W * Tally) :=
  {| fn := fun '(w, t) =>
             let (r, w') := fn E w in
             (r, (w', {| invoked := S (invoked t); waited := waited t |}));
     ctx_Err := fun '(w, _) => ctx_Err E w;
     select := fun d '(w, t) =>
                 let (c, w') := select E d w in
                 (c, (w', {| invoked := invoked t; waited := S (waited t) |}));
     time_Now := fun '(w, _) => time_Now E w;
     overflow := overflow E |}.

Definition noTally : Tally := {| invoked := O; waited := O |}.

(** [RetryConfigBuilder]: the builder holds the configuration it
    builds. *)
Definition time_Millisecond : Z := 1000000.

Definition NewRetryConfigBuilder : RetryConfig :=
  {| MaxAttempts := 3; Delay := time_Second; Backoff := 2 |}.

Definition WithMaxAttempts (attempts : Z) (b : RetryConfig) : RetryConfig :=
  {| MaxAttempts := attempts; Delay := Delay b; Backoff := Backoff b |}.

Definition WithDelay (delay : Z) (b : RetryConfig) : RetryConfig :=
  {| MaxAttempts := MaxAttempts b; Delay := delay; Backoff := Backoff b |}.

Definition WithBackoff (backoff : Q) (b : RetryConfig) : RetryConfig :=
  {| MaxAttempts := MaxAttempts b; Delay := Delay b; Backoff := backoff |}.

Definition Build (b : RetryConfig) : RetryConfig := b.

Definition DefaultRetryConfig : RetryConfig := Build NewRetryConfigBuilder.

Definition FastRetryConfig : RetryConfig :=
  Build (WithBackoff (3 # 2)
           (WithDelay (100 * time_Millisecond)
              (WithMaxAttempts 5 NewRetryConfigBuilder))).

Definition SlowRetryConfig : RetryConfig :=
  Build (WithBackoff 3
           (WithDelay (5 * time_Second)
              (WithMaxAttempts 3 NewRetryConfigBuilder))).

(** *** [calculateDelay] in the arithmetic of [float64] *)

(** The arithmetic of [float64].  [fl] gives the [float64] that an
    operation returns for the exact result [x]; [fl_fused] does so for a
    product whose result is added next, which an implementation may fuse
    with the addition (it is then the identity); [math_Pow backoff attempt]
    is [math.Pow(backoff, float64(attempt))]. *)
Record Float64 := {
  fl : Q -> Q;
  fl_fused : Q -> Q;
  math_Pow : Q -> Z -> Q
}.

(** What the code below needs of rounding: it is monotone, it keeps the
    integers up to [2^53], and it commutes with doubling, away from
    underflow and overflow.  Rounding to the nearest [float64] has these
    properties, and so has the identity. *)
Definition rounding (f : Q -> Q) : Prop :=
  (forall x y, x <= y -> f x <= f y)%Q /\
  (forall z, Z.abs z <= 2 ^ 53 -> (f (inject_Z z) == inject_Z z)%Q) /\
  (forall x, ((1 # 1024) <= x)%Q -> (x <= inject_Z (2 ^ 60))%Q ->
             (f (2 * x) == 2 * f x)%Q).

(** [math.Pow(1, y)] is [1] for every [y]. *)
Definition IEEE_like (F : Float64) : Prop :=
  rounding (fl F) /\ rounding (fl_fused F) /\
  (forall attempt, (math_Pow F 1 attempt == 1)%Q).

(** [randomFloat64] and [calculateDelay], operation by operation. *)
Definition randomFloat64_fl (F : Float64) (unixNano : Z) : Q :=
  fl F (fl F (inject_Z (Z.rem unixNano 1000)) / 1000)%Q.

Definition calculateDelay_fl (F : Float64) (overflow : Q -> Z)
    (attempt : Z) (baseDelay : Z) (backoff : Q) (unixNano : Z) : Z :=
  let base := fl F (inject_Z baseDelay) in
  let delay := fl F (base * math_Pow F backoff attempt)%Q in
  let jitter :=
    fl_fused F
      (fl F (delay * (1 # 4)) *
       fl F (fl F (2 * randomFloat64_fl F unixNano) - 1))%Q in
  let delay := fl F (delay + jitter)%Q in
  let delay := if Qltb delay base then base else delay in
  time_Duration overflow delay.

(** The arithmetic without rounding, which [calculateDelay] above takes. *)
Definition exactArithmetic : Float64 :=
  {| fl := fun x => x; fl_fused := fun x => x; math_Pow := Qpower |}.

End Retry.

(** ** Go's [strings] and [path/filepath] functions that the code calls *)

Module GoStrings.

(** [s[i:]] and [s[:i]] *)
Definition slice_from (s : string) (i : nat) : string :=
  substring i (String.length s - i) s.

Definition slice_to (s : string) (i : nat) : string := substring 0 i s.

Definition HasPrefix (s prefix : string) : bool := String.prefix prefix s.

Definition HasSuffix (s suffix : string) : bool :=
  (String.length suffix <=? String.length s)%nat &&
  String.eqb (slice_from s (String.length s - String.length suffix)) suffix.

Definition TrimSuffix (s suffix : string) : string :=
  if HasSuffix s suffix
  then slice_to s (String.length s - String.length suffix)
  else s.

Fixpoint Contains (s substr : string) : bool :=
  String.prefix substr s ||
  match s with
  | EmptyString => false
  | String _ s' => Contains s' substr
  end.

(** Upper case of the ASCII letters; the other bytes are kept. *)
Definition upper (c : ascii) : ascii :=
  let n := nat_of_ascii c in
  if ((97 <=? n) && (n <=? 122))%nat then ascii_of_nat (n - 32) else c.

Fixpoint ToUpper (s : string) : string :=
  match s with
  | EmptyString => EmptyString
  | String c s' => String (upper c) (ToUpper s')
  end.

(** [filepath.Ext]: the suffix that starts at the last dot of the last
    element of the path (elements are separated by [/]), or the empty
    string.  [ext_scan] reads the path from its first byte and keeps the
    candidate found so far. *)
Fixpoint ext_scan (s : string) (found : string) : string :=
  match s with
  | EmptyString => found
  | String c s' =>
      if Ascii.eqb c "/" then ext_scan s' EmptyString
      else if Ascii.eqb c "." then ext_scan s' s
      else ext_scan s' found
  end.

Definition Ext (path : string) : string := ext_scan path EmptyString.

End GoStrings.

(** ** Values of type [interface{}] *)

#[warnings="-register-all"]
Inductive Value : Type :=
| VString (s : string)
| VInt (n : Z)
| VFloat (q : Q)
| VMap (m : gmap string Value).

(** ** config *)

Module Config.

(** [config.RustFSConfig] *)
Record RustFSConfig := {
  BaseURL : string;
  AccessKey : string;
  SecretKey : string;
  Region : string;
  BucketName : string;
  Timeout : Z;
  RetryCount : Z;
  MaxFileSize : Z;
  AllowedTypes : list string;
  ScanForMalware : bool;
  EnableAudit : bool;
  AuditService : string;
  AuditMetadata : option (gmap string Value);
  EnableEncryption : bool;
  EncryptionKey : string;
  AllowedOrigins : list string;
  ConcurrentUploads : Z;
  ChunkSize : Z;
  CompressionLevel : Z;
  CacheEnabled : bool;
  CacheTTL : Z
}.

(** [RustFSConfig.Validate] *)
Definition Validate (c : RustFSConfig) : option error :=
  if String.eqb (BaseURL c) "" then
    Some (errorString "RUSTFS_BASE_URL is required")
  else if String.eqb (AccessKey c) "" then
    Some (errorString "RUSTFS_ACCESS_KEY is required")
  else if String.eqb (SecretKey c) "" then
    Some (errorString "RUSTFS_SECRET_KEY is required")
  else if String.eqb (BucketName c) "" then
    Some (errorString "RUSTFS_BUCKET_NAME is required")
  else if MaxFileSize c <=? 0 then
    Some (errorString "RUSTFS_MAX_FILE_SIZE must be positive")
  else if Timeout c <=? 0 then
    Some (errorString "RUSTFS_TIMEOUT must be positive")
  else if RetryCount c <? 0 then
    Some (errorString "RUSTFS_RETRY_COUNT cannot be negative")
  else if EnableEncryption c && String.eqb (EncryptionKey c) "" then
    Some (errorString
            "RUSTFS_ENCRYPTION_KEY is required when encryption is enabled")
  else if ConcurrentUploads c <=? 0 then
    Some (errorString "RUSTFS_CONCURRENT_UPLOADS must be positive")
  else if ChunkSize c <=? 0 then
    Some (errorString "RUSTFS_CHUNK_SIZE must be positive")
  else if (CompressionLevel c <? 0) || (9 <? CompressionLevel c) then
    Some (errorString "RUSTFS_COMPRESSION_LEVEL must be between 0 and 9")
  else None.

(** [matchContentType] *)
Definition matchContentType (pattern contentType : string) : bool :=
  if String.eqb pattern contentType then true
  else if GoStrings.HasSuffix pattern "/*" then
    let prefix := GoStrings.TrimSuffix pattern "/*" in
    GoStrings.HasPrefix contentType (prefix +:+ "/")
  else false.

(** [RustFSConfig.IsAllowedType]: the [range] loop over
    [c.AllowedTypes]. *)
Fixpoint anyAllowed (allowedTypes : list string) (contentType : string)
  : bool :=
  match allowedTypes with
  | [] => false
  | allowedType :: rest =>
      if matchContentType allowedType contentType then true
      else anyAllowed rest contentType
  end.

Definition IsAllowedType (c : RustFSConfig) (contentType : string) : bool :=
  anyAllowed (AllowedTypes c) contentType.

(** What the specification calls a match of a content type against an
    allowed pattern: the same string, or a pattern [type/*] and a content
    type that starts with [type/]. *)
Definition matches_pattern (pattern contentType : string) : Prop :=
  pattern = contentType \/
  exists type rest,
    pattern = type +:+ "/*" /\ contentType = type +:+ "/" +:+ rest.

(** The configuration [LoadConfig] builds when no environment variable is
    set, but for the two keys, which have no default. *)
Definition exampleConfig : RustFSConfig :=
  {| BaseURL := "http://localhost:8080";
     AccessKey := "access";
     SecretKey := "secret";
     Region := "us-east-1";
     BucketName := "default";
     Timeout := 30 * 1000000000;
     RetryCount := 3;
     MaxFileSize := 100 * 1024 * 1024;
     AllowedTypes := ["image/*"];
     ScanForMalware := false;
     EnableAudit := true;
     AuditService := "rustfs-client";
     AuditMetadata := Some {[ "version" := VString "1.0.0" ]};
     EnableEncryption := false;
     EncryptionKey := "";
     AllowedOrigins := ["*"];
     ConcurrentUploads := 5;
     ChunkSize := 1024 * 1024;
     CompressionLevel := 6;
     CacheEnabled := true;
     CacheTTL := 3600 * 1000000000 |}.

(** [RustFSConfig.IsAllowedOrigin]: the [range] loop over
    [c.AllowedOrigins]. *)
Fixpoint anyOrigin (allowedOrigins : list string) (origin : string) : bool :=
  match allowedOrigins with
  | [] => false
  | allowedOrigin :: rest =>
      if String.eqb allowedOrigin "*" || String.eqb allowedOrigin origin
      then true
      else anyOrigin rest origin
  end.

Definition IsAllowedOrigin (c : RustFSConfig) (origin : string) : bool :=
  anyOrigin (AllowedOrigins c) origin.

(** The assignment [c.AllowedTypes = allowedTypes]. *)
Definition withAllowedTypes (c : RustFSConfig) (allowedTypes : list string)
  : RustFSConfig :=
  {| BaseURL := BaseURL c;
     AccessKey := AccessKey c;
     SecretKey := SecretKey c;
     Region := Region c;
     BucketName := BucketName c;
     Timeout := Timeout c;
     RetryCount := RetryCount c;
     MaxFileSize := MaxFileSize c;
     AllowedTypes := allowedTypes;
     ScanForMalware := ScanForMalware c;
     EnableAudit := EnableAudit c;
     AuditService := AuditService c;
     AuditMetadata := AuditMetadata c;
     EnableEncryption := EnableEncryption c;
     EncryptionKey := EncryptionKey c;
     AllowedOrigins := AllowedOrigins c;
     ConcurrentUploads := ConcurrentUploads c;
     ChunkSize := ChunkSize c;
     CompressionLevel := CompressionLevel c;
     CacheEnabled := CacheEnabled c;
     CacheTTL := CacheTTL c |}.

(** The assignment [c.MaxFileSize = maxFileSize]. *)
Definition withMaxFileSize (c : RustFSConfig) (maxFileSize : Z)
  : RustFSConfig :=
  {| BaseURL := BaseURL c;
     AccessKey := AccessKey c;
     SecretKey := SecretKey c;
     Region := Region c;
     BucketName := BucketName c;
     Timeout := Timeout c;
     RetryCount := RetryCount c;
     MaxFileSize := maxFileSize;
     AllowedTypes := AllowedTypes c;
     ScanForMalware := ScanForMalware c;
     EnableAudit := EnableAudit c;
     AuditService := AuditService c;
     AuditMetadata := AuditMetadata c;
     EnableEncryption := EnableEncryption c;
     EncryptionKey := EncryptionKey c;
     AllowedOrigins := AllowedOrigins c;
     ConcurrentUploads := ConcurrentUploads c;
     ChunkSize := ChunkSize c;
     CompressionLevel := CompressionLevel c;
     CacheEnabled := CacheEnabled c;
     CacheTTL := CacheTTL c |}.

End Config.

(** ** utils: file names *)

Module FileUtils.

Definition invalidChars : list string :=
  ["/"; "\"; ":"; "*"; "?"; String (ascii_of_nat 34) ""; "<"; ">"; "|"].

Definition reservedNames : list string :=
  ["CON"; "PRN"; "AUX"; "NUL";
   "COM1"; "COM2"; "COM3"; "COM4"; "COM5"; "COM6"; "COM7"; "COM8"; "COM9";
   "LPT1"; "LPT2"; "LPT3"; "LPT4"; "LPT5"; "LPT6"; "LPT7"; "LPT8"; "LPT9"].

(** [IsValidFilename] *)
Definition IsValidFilename (filename : string) : bool :=
  if String.eqb filename "" then false
  else if existsb (fun char => GoStrings.Contains filename char) invalidChars
  then false
  else
    let baseName := GoStrings.TrimSuffix filename (GoStrings.Ext filename) in
    let baseName := GoStrings.ToUpper baseName in
    negb (existsb (fun reserved => String.eqb baseName reserved)
            reservedNames).

End FileUtils.

(** ** types *)

Module UploadRequest.
Record t := {
  File : string;        (* the bytes the [io.Reader] yields *)
  Filename : string;
  ContentType : string;
  FileSize : Z;
  BucketPath : string;
  Metadata : option (gmap string Value)
}.
End UploadRequest.

Module UploadResponse.
Record t := {
  Path : string;
  URL : string;
  Size : Z;
  ContentType : string;
  ETag : string;
  LastModified : Z;
  Metadata : option (gmap string Value)
}.
End UploadResponse.

Module FileInfo.
Record t := {
  Path : string;
  Size : Z;
  ContentType : string;
  ETag : string;
  LastModified : Z;
  Metadata : option (gmap string Value)
}.
End FileInfo.

(** [audittypes.AuditEvent], with the fields this module fills in. *)
Module AuditEvent.
Record t := {
  EventType : string;
  UserID : string;
  Resource : string;
  ResourceID : string;
  Success : bool;
  Reason : string;
  Metadata : gmap string Value
}.
End AuditEvent.

(** ** audit *)

Module Audit.

Definition AuditEventFileUploaded : string := "file_uploaded".
Definition AuditEventFileDeleted : string := "file_deleted".
Definition AuditEventFileAccessed : string := "file_accessed".
Definition AuditEventStorageError : string := "storage_error".
Definition AuditEventStorageAccessDenied : string := "storage_access_denied".
Definition AuditEventStorageConfigChanged : string :=
  "storage_config_changed".
Definition AuditEventUploadSlow : string := "upload_slow".

Module FileOperationMetadata.
Record t := {
  Filename : string;
  FileSize : Z;
  ContentType : string;
  FilePath : string;
  BucketName : string;
  UploadTime : string;
  DownloadTime : string;
  AccessTime : string;
  UserAgent : string;
  IPAddress : string;
  ETag : string;
  Checksum : string;
  Additional : option (gmap string Value)
}.
End FileOperationMetadata.

Module StorageErrorMetadata.
Record t := {
  Operation : string;
  ErrorCode : string;
  ErrorMessage : string;
  RetryCount : Z;
  Duration : string;
  Context : option (gmap string Value)
}.
End StorageErrorMetadata.

Module PerformanceEventMetadata.
Record t := {
  Operation : string;
  Duration : string;
  FileSize : Z;
  Throughput : Q;
  Concurrency : Z;
  ResourceUsage : string;
  Threshold : Q;
  Additional : option (gmap string Value)
}.
End PerformanceEventMetadata.

(** [RustFSAuditLogger]; [auditLogger] tells whether the field of that name
    holds an [audittypes.AuditLogger] (it may be [nil]). *)
Record RustFSAuditLogger := {
  auditLogger : bool;
  service : string;
  config : option (gmap string Value)
}.

(** What the audit sink has received, oldest event first. *)
Definition Sink := list AuditEvent.t.

(** [logEvent]: [LogEvent] of the sink records the event. *)
Definition logEvent (l : RustFSAuditLogger) (event : AuditEvent.t)
    (sink : Sink) : Sink :=
  if auditLogger l then sink ++ [event] else sink.

Definition getReason (success : bool) (err : option error) : string :=
  if success then "Operation completed successfully"
  else match err with
       | Some e => Error e
       | None => "Operation failed"
       end.

(** [auditMetadata[key] = value] under [if value != ""]. *)
Definition setText (key value : string) (m : gmap string Value)
  : gmap string Value :=
  if String.eqb value "" then m else <[key := VString value]> m.

(** [for k, v := range extra { m[k] = v }] under [if extra != nil]. *)
Definition setAll (extra : option (gmap string Value))
    (m : gmap string Value) : gmap string Value :=
  match extra with
  | Some e => e ∪ m
  | None => m
  end.

Definition setConfig (l : RustFSAuditLogger) (m : gmap string Value)
  : gmap string Value :=
  match config l with
  | Some c => <["config" := VMap c]> m
  | None => m
  end.

(** [buildFileMetadata], for a metadata pointer that is not [nil]. *)
Definition buildFileMetadata (l : RustFSAuditLogger)
    (metadata : FileOperationMetadata.t) : gmap string Value :=
  let m : gmap string Value := {[ "service" := VString (service l) ]} in
  let m := setText "file_name" (FileOperationMetadata.Filename metadata) m in
  let m := if 0 <? FileOperationMetadata.FileSize metadata
           then <["file_size" :=
                    VInt (FileOperationMetadata.FileSize metadata)]> m
           else m in
  let m := setText "content_type"
             (FileOperationMetadata.ContentType metadata) m in
  let m := setText "file_path" (FileOperationMetadata.FilePath metadata) m in
  let m := setText "bucket_name"
             (FileOperationMetadata.BucketName metadata) m in
  let m := setText "upload_time"
             (FileOperationMetadata.UploadTime metadata) m in
  let m := setText "download_time"
             (FileOperationMetadata.DownloadTime metadata) m in
  let m := setText "access_time"
             (FileOperationMetadata.AccessTime metadata) m in
  let m := setText "user_agent" (FileOperationMetadata.UserAgent metadata) m in
  let m := setText "ip_address" (FileOperationMetadata.IPAddress metadata) m in
  let m := setText "etag" (FileOperationMetadata.ETag metadata) m in
  let m := setText "checksum" (FileOperationMetadata.Checksum metadata) m in
  let m := setAll (FileOperationMetadata.Additional metadata) m in
  setConfig l m.

(** The common body of [LogFileUpload], [LogFileDelete] and
    [LogFileAccess]. *)
Definition fileEvent (l : RustFSAuditLogger)
    (okType failType errorType : string) (userID resourceID : string)
    (metadata : FileOperationMetadata.t) (err : option error)
  : AuditEvent.t :=
  let success := match err with None => true | Some _ => false end in
  let auditMetadata := buildFileMetadata l metadata in
  let eventType := match err with None => okType | Some _ => failType end in
  let auditMetadata :=
    match err with
    | None => auditMetadata
    | Some e => <["error_type" := VString errorType]>
                  (<["error" := VString (Error e)]> auditMetadata)
    end in
  {| AuditEvent.EventType := eventType;
     AuditEvent.UserID := userID;
     AuditEvent.Resource := "file";
     AuditEvent.ResourceID := resourceID;
     AuditEvent.Success := success;
     AuditEvent.Reason := getReason success err;
     AuditEvent.Metadata := auditMetadata |}.

Definition LogFileUpload (l : RustFSAuditLogger) (userID : string)
    (metadata : FileOperationMetadata.t) (err : option error)
  : Sink -> Sink :=
  logEvent l
    (fileEvent l AuditEventFileUploaded AuditEventStorageError
       "upload_failed" userID (FileOperationMetadata.FilePath metadata)
       metadata err).

Definition LogFileDelete (l : RustFSAuditLogger) (userID filePath : string)
    (metadata : FileOperationMetadata.t) (err : option error)
  : Sink -> Sink :=
  logEvent l
    (fileEvent l AuditEventFileDeleted AuditEventStorageError
       "delete_failed" userID filePath metadata err).

Definition LogFileAccess (l : RustFSAuditLogger) (userID filePath : string)
    (metadata : FileOperationMetadata.t) (err : option error)
  : Sink -> Sink :=
  logEvent l
    (fileEvent l AuditEventFileAccessed AuditEventStorageAccessDenied
       "access_denied" userID filePath metadata err).

Definition LogStorageError (l : RustFSAuditLogger)
    (userID operation : string) (metadata : StorageErrorMetadata.t)
  : Sink -> Sink :=
  let m : gmap string Value :=
    <["service" := VString (service l)]>
      (<["duration" := VString (StorageErrorMetadata.Duration metadata)]>
      (<["retry_count" := VInt (StorageErrorMetadata.RetryCount metadata)]>
      (<["error_message" :=
           VString (StorageErrorMetadata.ErrorMessage metadata)]>
      (<["error_code" := VString (StorageErrorMetadata.ErrorCode metadata)]>
      {[ "operation" :=
           VString (StorageErrorMetadata.Operation metadata) ]})))) in
  let m := setAll (StorageErrorMetadata.Context metadata) m in
  let m := setConfig l m in
  logEvent l
    {| AuditEvent.EventType := AuditEventStorageError;
       AuditEvent.UserID := userID;
       AuditEvent.Resource := "storage";
       AuditEvent.ResourceID := "";
       AuditEvent.Success := false;
       AuditEvent.Reason := StorageErrorMetadata.ErrorMessage metadata;
       AuditEvent.Metadata := m |}.

Definition LogPerformanceEvent (l : RustFSAuditLogger)
    (userID eventType : string) (metadata : PerformanceEventMetadata.t)
  : Sink -> Sink :=
  let m : gmap string Value :=
    <["service" := VString (service l)]>
      (<["threshold" := VFloat (PerformanceEventMetadata.Threshold metadata)]>
      (<["resource_usage" :=
           VString (PerformanceEventMetadata.ResourceUsage metadata)]>
      (<["concurrency" :=
           VInt (PerformanceEventMetadata.Concurrency metadata)]>
      (<["throughput" :=
           VFloat (PerformanceEventMetadata.Throughput metadata)]>
      (<["file_size" := VInt (PerformanceEventMetadata.FileSize metadata)]>
      (<["duration" :=
           VString (PerformanceEventMetadata.Duration metadata)]>
      {[ "operation" :=
           VString (PerformanceEventMetadata.Operation metadata) ]})))))) in
  let m := setAll (PerformanceEventMetadata.Additional metadata) m in
  logEvent l
    {| AuditEvent.EventType := eventType;
       AuditEvent.UserID := userID;
       AuditEvent.Resource := "storage";
       AuditEvent.ResourceID := "";
       AuditEvent.Success := true;
       AuditEvent.Reason := "";
       AuditEvent.Metadata := m |}.

(** [LogConfigChange]; [timestamp] is [time.Now().Format(time.RFC3339)]. *)
Definition LogConfigChange (l : RustFSAuditLogger) (userID : string)
    (oldConfig newConfig : gmap string Value) (timestamp : string)
  : Sink -> Sink :=
  let m : gmap string Value :=
    <["timestamp" := VString timestamp]>
      (<["service" := VString (service l)]>
      (<["new_config" := VMap newConfig]>
      {[ "old_config" := VMap oldConfig ]})) in
  logEvent l
    {| AuditEvent.EventType := AuditEventStorageConfigChanged;
       AuditEvent.UserID := userID;
       AuditEvent.Resource := "config";
       AuditEvent.ResourceID := "";
       AuditEvent.Success := true;
       AuditEvent.Reason := "Configuration updated";
       AuditEvent.Metadata := m |}.

(** *** The other event types, and the classes of events *)

Definition AuditEventFileDownloaded : string := "file_downloaded".
Definition AuditEventFileUpdated : string := "file_updated".
Definition AuditEventFileCopied : string := "file_copied".
Definition AuditEventFileMoved : string := "file_moved".
Definition AuditEventStorageQuotaExceeded : string :=
  "storage_quota_exceeded".
Definition AuditEventStorageMaintenance : string := "storage_maintenance".
Definition AuditEventMalwareDetected : string := "malware_detected".
Definition AuditEventSuspiciousFile : string := "suspicious_file".
Definition AuditEventUnauthorizedAccess : string := "unauthorized_access".
Definition AuditEventDataBreach : string := "data_breach".
Definition AuditEventUploadTimeout : string := "upload_timeout".
Definition AuditEventStorageFull : string := "storage_full".
Definition AuditEventHighResourceUsage : string := "high_resource_usage".

(** [types.AuditSeverity] *)
Inductive AuditSeverity :=
| AuditSeverityLow
| AuditSeverityMedium
| AuditSeverityHigh
| AuditSeverityCritical.

(** One [case] of a [switch eventType]. *)
Definition case_of (eventType : string) (values : list string) : bool :=
  existsb (String.eqb eventType) values.

(** [GetSeverity]; [types_GetSeverity] is the mapping of the audit
    library, to which the [default] case falls back. *)
Definition GetSeverity (types_GetSeverity : string -> AuditSeverity)
    (eventType : string) : AuditSeverity :=
  if case_of eventType
       [AuditEventFileUploaded; AuditEventFileAccessed;
        AuditEventFileDownloaded; AuditEventFileCopied; AuditEventFileMoved]
  then AuditSeverityLow
  else if case_of eventType [AuditEventFileDeleted; AuditEventFileUpdated]
  then AuditSeverityMedium
  else if case_of eventType
            [AuditEventStorageConfigChanged; AuditEventStorageMaintenance]
  then AuditSeverityMedium
  else if case_of eventType [AuditEventStorageError]
  then AuditSeverityHigh
  else if case_of eventType
            [AuditEventStorageQuotaExceeded; AuditEventStorageAccessDenied]
  then AuditSeverityCritical
  else if case_of eventType [AuditEventStorageFull]
  then AuditSeverityCritical
  else if case_of eventType [AuditEventSuspiciousFile]
  then AuditSeverityHigh
  else if case_of eventType
            [AuditEventMalwareDetected; AuditEventUnauthorizedAccess;
             AuditEventDataBreach]
  then AuditSeverityCritical
  else if case_of eventType [AuditEventUploadSlow]
  then AuditSeverityMedium
  else if case_of eventType
            [AuditEventUploadTimeout; AuditEventHighResourceUsage]
  then AuditSeverityHigh
  else types_GetSeverity eventType.

(** [IsSecurityEvent]; [types_IsSecurityEvent] is the test of the audit
    library. *)
Definition IsSecurityEvent (types_IsSecurityEvent : string -> bool)
    (eventType : string) : bool :=
  if case_of eventType
       [AuditEventMalwareDetected; AuditEventSuspiciousFile;
        AuditEventUnauthorizedAccess; AuditEventDataBreach]
  then true
  else types_IsSecurityEvent eventType.

Definition IsPerformanceEvent (eventType : string) : bool :=
  if case_of eventType
       [AuditEventUploadSlow; AuditEventUploadTimeout;
        AuditEventStorageFull; AuditEventHighResourceUsage]
  then true
  else false.

Definition IsFileEvent (eventType : string) : bool :=
  if case_of eventType
       [AuditEventFileUploaded; AuditEventFileDeleted;
        AuditEventFileAccessed; AuditEventFileDownloaded;
        AuditEventFileUpdated; AuditEventFileCopied; AuditEventFileMoved]
  then true
  else false.

Definition IsStorageEvent (eventType : string) : bool :=
  if case_of eventType
       [AuditEventStorageError; AuditEventStorageQuotaExceeded;
        AuditEventStorageAccessDenied; AuditEventStorageConfigChanged;
        AuditEventStorageMaintenance; AuditEventStorageFull]
  then true
  else false.

(** [NewRustFSAuditLogger] *)
Definition NewRustFSAuditLogger (service : string) (auditLogger : bool)
    (config : option (gmap string Value)) : RustFSAuditLogger :=
  {| auditLogger := auditLogger; service := service; config := config |}.

End Audit.

(** ** client: the auditable decorator *)

Module Client.

(** The values a [context.Context] carries under string keys;
    [context.Background()] carries none. *)
Definition Ctx := gmap string Value.

Definition Background : Ctx := ∅.

(** What the decorator runs against, acting on a world [B]: the wrapped
    [FileStorage], the two methods it may have besides ([CheckHealth],
    [Close]; [None] when the type assertion fails), and the clock with the
    text forms of instants and durations ([time.Time.Format],
    [time.Duration.String]).  An upload or a lookup returns a pointer and
    an error, each of which may be [nil]. *)
Record Env (B : Type) := {
  UploadFile : Ctx -> UploadRequest.t -> B ->
               (option UploadResponse.t * option error) * B;
  DeleteFile : Ctx -> string -> B -> option error * B;
  GetFileURL : string -> string;
  GetFileInfo : Ctx -> string -> B ->
                (option FileInfo.t * option error) * B;
  CheckHealth : option (Ctx -> B -> option error * B);
  CloseBackend : option (B -> option error * B);
  time_Now : B -> Z;
  time_Format : string -> Z -> string;
  Duration_String : Z -> string
}.
Arguments UploadFile {B}.
Arguments DeleteFile {B}.
Arguments GetFileURL {B}.
Arguments GetFileInfo {B}.
Arguments CheckHealth {B}.
Arguments CloseBackend {B}.
Arguments time_Now {B}.
Arguments time_Format {B}.
Arguments Duration_String {B}.

Definition RFC3339 : string := "2006-01-02T15:04:05Z07:00".

(** [AuditableRustFSClient]; [auditLogger] is a pointer that may be
    [nil]. *)
Record AuditableRustFSClient := {
  auditLogger : option Audit.RustFSAuditLogger;
  config : Config.RustFSConfig;
  service : string
}.

(** The world of the decorator: that of the backend and the audit sink. *)
Record World (B : Type) := {
  backend : B;
  sink : Audit.Sink
}.
Arguments backend {B}.
Arguments sink {B}.
Arguments Build_World {B}.

(** A computation on the world that returns an [A], or panics ([None]). *)
Definition M (B A : Type) : Type := World B -> option (A * World B).

Definition ret {B A} (a : A) : M B A := fun w => Some (a, w).

Definition bind {B A A'} (m : M B A) (k : A -> M B A') : M B A' :=
  fun w => match m w with
           | Some (a, w') => k a w'
           | None => None
           end.

Definition panic {B A} : M B A := fun _ => None.

Notation "x <- m ;; k" := (bind m (fun x => k))
  (at level 100, m at next level, right associativity).
Notation "m ;;; k" := (bind m (fun _ => k))
  (at level 100, right associativity).

(** A call of a backend method. *)
Definition call {B A} (op : B -> A * B) : M B A :=
  fun w => let (a, b) := op (backend w) in
           Some (a, {| backend := b; sink := sink w |}).

(** A call of a method of [c.auditLogger]; every method reads a field of
    its receiver, so a [nil] receiver panics. *)
Definition audit {B} (c : AuditableRustFSClient)
    (method : Audit.RustFSAuditLogger -> Audit.Sink -> Audit.Sink)
  : M B unit :=
  match auditLogger c with
  | None => panic
  | Some l =>
      fun w => Some (tt, {| backend := backend w;
                            sink := method l (sink w) |})
  end.

Section Decorator.
Context {B : Type}.
Variable E : Env B.
Variable c : AuditableRustFSClient.

Definition now : M B Z := fun w => Some (time_Now E (backend w), w).

(** [validateUploadRequest] *)
Definition validateUploadRequest (req : UploadRequest.t) : option error :=
  if Config.MaxFileSize (config c) <? UploadRequest.FileSize req then
    Some (errorString
            ("file size " +:+ Z_to_string (UploadRequest.FileSize req) +:+
             " exceeds maximum allowed size " +:+
             Z_to_string (Config.MaxFileSize (config c))))
  else if negb (Config.IsAllowedType (config c)
                  (UploadRequest.ContentType req)) then
    Some (errorString
            ("content type " +:+ UploadRequest.ContentType req +:+
             " is not allowed"))
  else if negb (FileUtils.IsValidFilename (UploadRequest.Filename req)) then
    Some (errorString
            ("filename " +:+ UploadRequest.Filename req +:+ " is not valid"))
  else None.

(** [wrapError] *)
Definition wrapError (err : error) (code : string) : error :=
  match err with
  | AppError _ _ _ => err
  | _ => AppError 500 ("RustFS operation failed: " +:+ code) err
  end.

(** [calculateThroughput], in MB/s; [duration.Seconds()] is
    [duration / 1e9]. *)
Definition calculateThroughput (bytes duration : Z) : Q :=
  let seconds := (inject_Z duration / 1000000000)%Q in
  if Qeq_bool seconds 0 then 0%Q
  else (inject_Z bytes / seconds / 1024 / 1024)%Q.

(** [extractUserID] *)
Definition extractUserID (ctx : Ctx) : string :=
  match ctx !! "user_id" with
  | Some (VString id) => id
  | _ => "system"
  end.

(** [d.Milliseconds()] and [d / n] of a [time.Duration]: integer division
    that truncates. *)
Definition Milliseconds (d : Z) : Z := Z.quot d 1000000.

(** [logUploadError] *)
Definition logUploadError (ctx : Ctx) (userID : string)
    (metadata : Audit.FileOperationMetadata.t) (err : error)
    (startTime : Z) : M B unit :=
  t <- now ;;
  let storageErrorMetadata :=
    {| Audit.StorageErrorMetadata.Operation := "upload";
       Audit.StorageErrorMetadata.ErrorCode := "UPLOAD_ERROR";
       Audit.StorageErrorMetadata.ErrorMessage := Error err;
       Audit.StorageErrorMetadata.RetryCount := 0;
       Audit.StorageErrorMetadata.Duration :=
         Duration_String E (t - startTime);
       Audit.StorageErrorMetadata.Context :=
         Some (<["bucket_path" :=
                   VString (Audit.FileOperationMetadata.FilePath metadata)]>
              (<["content_type" :=
                   VString (Audit.FileOperationMetadata.ContentType
                              metadata)]>
              (<["file_size" :=
                   VInt (Audit.FileOperationMetadata.FileSize metadata)]>
              {[ "file_name" :=
                   VString (Audit.FileOperationMetadata.Filename
                              metadata) ]}))) |} in
  audit c (fun l => Audit.LogStorageError l userID "upload"
                      storageErrorMetadata).

(** [logUploadSuccess]; reading [result.ETag] panics when [result] is
    [nil], and writing to [metadata.Additional] when that map is [nil]. *)
Definition logUploadSuccess (ctx : Ctx) (userID : string)
    (metadata : Audit.FileOperationMetadata.t)
    (result : option UploadResponse.t) (duration : Z) : M B unit :=
  t <- now ;;
  match result, Audit.FileOperationMetadata.Additional metadata with
  | None, _ | _, None => panic
  | Some result, Some additional =>
      let additional :=
        <["upload_speed" :=
            VFloat (calculateThroughput (UploadResponse.Size result)
                      duration)]>
          (<["upload_duration" := VString (Duration_String E duration)]>
             additional) in
      let metadata :=
        {| Audit.FileOperationMetadata.Filename :=
             Audit.FileOperationMetadata.Filename metadata;
           Audit.FileOperationMetadata.FileSize :=
             Audit.FileOperationMetadata.FileSize metadata;
           Audit.FileOperationMetadata.ContentType :=
             Audit.FileOperationMetadata.ContentType metadata;
           Audit.FileOperationMetadata.FilePath :=
             Audit.FileOperationMetadata.FilePath metadata;
           Audit.FileOperationMetadata.BucketName :=
             Audit.FileOperationMetadata.BucketName metadata;
           Audit.FileOperationMetadata.UploadTime :=
             time_Format E RFC3339 t;
           Audit.FileOperationMetadata.DownloadTime :=
             Audit.FileOperationMetadata.DownloadTime metadata;
           Audit.FileOperationMetadata.AccessTime :=
             Audit.FileOperationMetadata.AccessTime metadata;
           Audit.FileOperationMetadata.UserAgent :=
             Audit.FileOperationMetadata.UserAgent metadata;
           Audit.FileOperationMetadata.IPAddress :=
             Audit.FileOperationMetadata.IPAddress metadata;
           Audit.FileOperationMetadata.ETag := UploadResponse.ETag result;
           Audit.FileOperationMetadata.Checksum :=
             Audit.FileOperationMetadata.Checksum metadata;
           Audit.FileOperationMetadata.Additional := Some additional |} in
      audit c (fun l => Audit.LogFileUpload l userID metadata None)
  end.

(** The metadata [DeleteFileWithAudit] and [GetFileInfo] start from. *)
Definition pathMetadata (path accessTime : string)
  : Audit.FileOperationMetadata.t :=
  {| Audit.FileOperationMetadata.Filename := "";
     Audit.FileOperationMetadata.FileSize := 0;
     Audit.FileOperationMetadata.ContentType := "";
     Audit.FileOperationMetadata.FilePath := path;
     Audit.FileOperationMetadata.BucketName :=
       Config.BucketName (config c);
     Audit.FileOperationMetadata.UploadTime := "";
     Audit.FileOperationMetadata.DownloadTime := "";
     Audit.FileOperationMetadata.AccessTime := accessTime;
     Audit.FileOperationMetadata.UserAgent := "";
     Audit.FileOperationMetadata.IPAddress := "";
     Audit.FileOperationMetadata.ETag := "";
     Audit.FileOperationMetadata.Checksum := "";
     Audit.FileOperationMetadata.Additional := None |}.

(** The performance event of a slow operation. *)
Definition slowEvent (userID operation : string) (duration fileSize : Z)
    (throughput : Q) (threshold : Z) : M B unit :=
  audit c (fun l =>
    Audit.LogPerformanceEvent l userID Audit.AuditEventUploadSlow
      {| Audit.PerformanceEventMetadata.Operation := operation;
         Audit.PerformanceEventMetadata.Duration :=
           Duration_String E duration;
         Audit.PerformanceEventMetadata.FileSize := fileSize;
         Audit.PerformanceEventMetadata.Throughput := throughput;
         Audit.PerformanceEventMetadata.Concurrency := 0;
         Audit.PerformanceEventMetadata.ResourceUsage := "";
         Audit.PerformanceEventMetadata.Threshold :=
           inject_Z (Milliseconds threshold);
         Audit.PerformanceEventMetadata.Additional := None |}).

(** [UploadFileWithAudit] *)
Definition UploadFileWithAudit (ctx : Ctx) (req : UploadRequest.t)
    (userID : string) : M B (option UploadResponse.t * option error) :=
  startTime <- now ;;
  let preUploadMetadata :=
    {| Audit.FileOperationMetadata.Filename := UploadRequest.Filename req;
       Audit.FileOperationMetadata.FileSize := UploadRequest.FileSize req;
       Audit.FileOperationMetadata.ContentType :=
         UploadRequest.ContentType req;
       Audit.FileOperationMetadata.FilePath := UploadRequest.BucketPath req;
       Audit.FileOperationMetadata.BucketName :=
         Config.BucketName (config c);
       Audit.FileOperationMetadata.UploadTime := "";
       Audit.FileOperationMetadata.DownloadTime := "";
       Audit.FileOperationMetadata.AccessTime := "";
       Audit.FileOperationMetadata.UserAgent := "";
       Audit.FileOperationMetadata.IPAddress := "";
       Audit.FileOperationMetadata.ETag := "";
       Audit.FileOperationMetadata.Checksum := "";
       Audit.FileOperationMetadata.Additional :=
         UploadRequest.Metadata req |} in
  match validateUploadRequest req with
  | Some err =>
      logUploadError ctx userID preUploadMetadata err startTime ;;;
      ret (None, Some (wrapError err "VALIDATION_ERROR"))
  | None =>
      r <- call (UploadFile E ctx req) ;;
      t <- now ;;
      let duration := t - startTime in
      match r with
      | (_, Some err) =>
          logUploadError ctx userID preUploadMetadata err startTime ;;;
          ret (None, Some (wrapError err "UPLOAD_FAILED"))
      | (result, None) =>
          logUploadSuccess ctx userID preUploadMetadata result duration ;;;
          (if Config.Timeout (config c) <? duration then
             slowEvent userID "upload" duration (UploadRequest.FileSize req)
               (calculateThroughput (UploadRequest.FileSize req) duration)
               (Config.Timeout (config c))
           else ret tt) ;;;
          ret (result, None)
      end
  end.

(** [DeleteFileWithAudit] *)
Definition DeleteFileWithAudit (ctx : Ctx) (path userID : string)
  : M B (option error) :=
  startTime <- now ;;
  let preDeleteMetadata := pathMetadata path (time_Format E RFC3339 startTime) in
  err <- call (DeleteFile E ctx path) ;;
  t <- now ;;
  let duration := t - startTime in
  match err with
  | Some e =>
      audit c (fun l => Audit.LogFileDelete l userID path preDeleteMetadata
                          (Some e)) ;;;
      ret (Some (wrapError e "DELETE_FAILED"))
  | None =>
      audit c (fun l => Audit.LogFileDelete l userID path preDeleteMetadata
                          None) ;;;
      (if Z.quot (Config.Timeout (config c)) 2 <? duration then
         slowEvent userID "delete" duration 0 0
           (Z.quot (Config.Timeout (config c)) 2)
       else ret tt) ;;;
      ret None
  end.

(** [GetFileInfo] of the decorator *)
Definition GetFileInfoWithAudit (ctx : Ctx) (path : string)
  : M B (option FileInfo.t * option error) :=
  startTime <- now ;;
  let userID := extractUserID ctx in
  let preAccessMetadata := pathMetadata path (time_Format E RFC3339 startTime) in
  r <- call (GetFileInfo E ctx path) ;;
  t <- now ;;
  let duration := t - startTime in
  match r with
  | (_, Some err) =>
      audit c (fun l => Audit.LogFileAccess l userID path preAccessMetadata
                          (Some err)) ;;;
      ret (None, Some (wrapError err "GET_INFO_FAILED"))
  | (result, None) =>
      audit c (fun l => Audit.LogFileAccess l userID path preAccessMetadata
                          None) ;;;
      (if Z.quot (Config.Timeout (config c)) 4 <? duration then
         slowEvent userID "get_info" duration 0 0
           (Z.quot (Config.Timeout (config c)) 4)
       else ret tt) ;;;
      ret (result, None)
  end.

(** [DeleteSnapshot] *)
Definition DeleteSnapshot (ctx : Ctx) (path : string) : M B (option error) :=
  DeleteFileWithAudit ctx path (extractUserID ctx).

(** [Close]; [IsEnabled] reads a field of the logger. *)
Definition Close : M B (option error) :=
  match auditLogger c with
  | None => panic
  | Some l =>
      (if Audit.auditLogger l then
         t <- now ;;
         audit c (fun l =>
           Audit.LogConfigChange l (extractUserID Background)
             (<["service" := VString (service c)]>
                {[ "action" := VString "client_shutdown" ]})
             (<["timestamp" := VString (time_Format E RFC3339 t)]>
             (<["service" := VString (service c)]>
                {[ "action" := VString "client_shutdown" ]}))
             (time_Format E RFC3339 t))
       else ret tt) ;;;
      match CloseBackend E with
      | Some close => call close
      | None => ret None
      end
  end.

(** [HealthCheck] *)
Definition HealthCheck (ctx : Ctx) : M B (option error) :=
  match CheckHealth E with
  | Some checkHealth => call (checkHealth ctx)
  | None =>
      t <- now ;;
      r <- call (GetFileInfo E ctx
                   ("health-check-" +:+ time_Format E "20060102" t)) ;;
      match r with
      | (_, Some _) => ret None
      | (_, None) => ret None
      end
  end.

End Decorator.

(** The wrapped client with a counter of the calls of [UploadFile]. *)
Definition countingUploads {B} (E : Env B) : Env (B * nat) :=
  {| UploadFile := fun ctx req '(b, n) =>
                     let (r, b') := UploadFile E ctx req b in (r, (b', S n));
     DeleteFile := fun ctx path '(b, n) =>
                     let (r, b') := DeleteFile E ctx path b in (r, (b', n));
     GetFileURL := GetFileURL E;
     GetFileInfo := fun ctx path '(b, n) =>
                      let (r, b') := GetFileInfo E ctx path b in (r, (b', n));
     CheckHealth :=
       match CheckHealth E with
       | Some h => Some (fun ctx '(b, n) =>
                           let (r, b') := h ctx b in (r, (b', n)))
       | None => None
       end;
     CloseBackend :=
       match CloseBackend E with
       | Some f => Some (fun '(b, n) => let (r, b') := f b in (r, (b', n)))
       | None => None
       end;
     time_Now := fun '(b, _) => time_Now E b;
     time_Format := time_Format E;
     Duration_String := Duration_String E |}.

(** *** [MockRustFSClient] *)

Record MockRustFSClient := {
  files : gmap string FileInfo.t;
  uploads : list UploadResponse.t;
  deletes : list string;
  shouldFail : bool;
  failError : option error;
  clock : Z     (* what [time.Now()] reads; [time.Sleep] moves it *)
}.

Definition NewMockRustFSClient (clock : Z) : MockRustFSClient :=
  {| files := ∅; uploads := []; deletes := []; shouldFail := false;
     failError := None; clock := clock |}.

Definition SetFailureMode (shouldFail : bool) (err : option error)
    (m : MockRustFSClient) : MockRustFSClient :=
  {| files := files m; uploads := uploads m; deletes := deletes m;
     shouldFail := shouldFail; failError := err; clock := clock m |}.

Definition resetFailure (m : MockRustFSClient) : MockRustFSClient :=
  SetFailureMode false (failError m) m.

Definition time_Millisecond : Z := 1000000.

Definition mockURL (path : string) : string :=
  "http://mock-storage.com/" +:+ path.

Definition mockUploadFile (ctx : Ctx) (req : UploadRequest.t)
    (m : MockRustFSClient)
  : (option UploadResponse.t * option error) * MockRustFSClient :=
  if shouldFail m then ((None, failError m), resetFailure m)
  else
    let t := clock m + 10 * time_Millisecond in
    let response :=
      {| UploadResponse.Path := UploadRequest.BucketPath req;
         UploadResponse.URL := mockURL (UploadRequest.BucketPath req);
         UploadResponse.Size := UploadRequest.FileSize req;
         UploadResponse.ContentType := "";
         UploadResponse.ETag := "etag-" +:+ Z_to_string t;
         UploadResponse.LastModified := 0;
         UploadResponse.Metadata := UploadRequest.Metadata req |} in
    let fileInfo :=
      {| FileInfo.Path := UploadRequest.BucketPath req;
         FileInfo.Size := UploadRequest.FileSize req;
         FileInfo.ContentType := UploadRequest.ContentType req;
         FileInfo.ETag := UploadResponse.ETag response;
         FileInfo.LastModified := t;
         FileInfo.Metadata := UploadRequest.Metadata req |} in
    ((Some response, None),
     {| files := <[UploadRequest.BucketPath req := fileInfo]> (files m);
        uploads := uploads m ++ [response];
        deletes := deletes m;
        shouldFail := shouldFail m;
        failError := failError m;
        clock := t |}).

Definition mockDeleteFile (ctx : Ctx) (path : string) (m : MockRustFSClient)
  : option error * MockRustFSClient :=
  if shouldFail m then (failError m, resetFailure m)
  else
    (None,
     {| files := delete path (files m);
        uploads := uploads m;
        deletes := deletes m ++ [path];
        shouldFail := shouldFail m;
        failError := failError m;
        clock := clock m + 5 * time_Millisecond |}).

Definition mockGetFileInfo (ctx : Ctx) (path : string) (m : MockRustFSClient)
  : (option FileInfo.t * option error) * MockRustFSClient :=
  if shouldFail m then ((None, failError m), resetFailure m)
  else
    let m' := {| files := files m; uploads := uploads m;
                 deletes := deletes m; shouldFail := shouldFail m;
                 failError := failError m;
                 clock := clock m + 2 * time_Millisecond |} in
    match files m !! path with
    | Some fileInfo => ((Some fileInfo, None), m')
    | None => ((None, Some (errorString ("file not found: " +:+ path))), m')
    end.

Definition mockCheckHealth (ctx : Ctx) (m : MockRustFSClient)
  : option error * MockRustFSClient :=
  if shouldFail m then (failError m, resetFailure m) else (None, m).

Definition mockClose (m : MockRustFSClient)
  : option error * MockRustFSClient :=
  (None, NewMockRustFSClient (clock m)).

(** The mock as a wrapped client.  The text forms of instants and
    durations are those of the Go library; here they print the number of
    nanoseconds. *)
Definition mockEnv : Env MockRustFSClient :=
  {| UploadFile := mockUploadFile;
     DeleteFile := mockDeleteFile;
     GetFileURL := mockURL;
     GetFileInfo := mockGetFileInfo;
     CheckHealth := Some mockCheckHealth;
     CloseBackend := Some mockClose;
     time_Now := clock;
     time_Format := fun _ t => Z_to_string t;
     Duration_String := fun d => Z_to_string d +:+ "ns" |}.

(** A client type with the four [FileStorage] methods only. *)
Definition plainEnv : Env MockRustFSClient :=
  {| UploadFile := mockUploadFile;
     DeleteFile := mockDeleteFile;
     GetFileURL := mockURL;
     GetFileInfo := mockGetFileInfo;
     CheckHealth := None;
     CloseBackend := None;
     time_Now := clock;
     time_Format := fun _ t => Z_to_string t;
     Duration_String := fun d => Z_to_string d +:+ "ns" |}.

(** *** A client and requests to run it on *)

Definition exampleLogger : Audit.RustFSAuditLogger :=
  {| Audit.auditLogger := true;
     Audit.service := "rustfs-client";
     Audit.config := Config.AuditMetadata Config.exampleConfig |}.

Definition exampleClient : AuditableRustFSClient :=
  {| auditLogger := Some exampleLogger;
     config := Config.exampleConfig;
     service := "site-service" |}.

Definition snapshotRequest (size : Z) : UploadRequest.t :=
  {| UploadRequest.File := "";
     UploadRequest.Filename := "snapshot.png";
     UploadRequest.ContentType := "image/png";
     UploadRequest.FileSize := size;
     UploadRequest.BucketPath := "snapshots/2024/01/01";
     UploadRequest.Metadata := Some ∅ |}.

Definition startWorld : World (MockRustFSClient * nat) :=
  {| backend := (NewMockRustFSClient 1704067200000000000, O); sink := [] |}.

(** *** The claims of the specification, in its words *)

(** The error carries the stable code [code]. *)
Definition classified (err : error) (code : string) : Prop :=
  exists cause, err = AppError 500 ("RustFS operation failed: " +:+ code) cause.

(** An upload whose declared size exceeds the maximum: the backend is not
    invoked, one audit failure event tagged with a validation error code is
    emitted, and the error returned is classified as a validation error. *)
Definition oversize_upload_claim {B} (E : Env B) (c : AuditableRustFSClient)
    (ctx : Ctx) (req : UploadRequest.t) (userID : string)
    (w : World (B * nat)) : Prop :=
  Config.MaxFileSize (config c) < UploadRequest.FileSize req ->
  exists err ev w',
    UploadFileWithAudit (countingUploads E) c ctx req userID w
      = Some ((None, Some err), w') /\
    snd (backend w') = snd (backend w) /\
    sink w' = sink w ++ [ev] /\
    AuditEvent.Success ev = false /\
    AuditEvent.Metadata ev !! "error_code"
      = Some (VString "VALIDATION_ERROR") /\
    classified err "VALIDATION_ERROR".

(** No audit event of an audited upload has an empty actor. *)
Definition actor_never_empty_claim {B} (E : Env B)
    (c : AuditableRustFSClient) (ctx : Ctx) (req : UploadRequest.t)
    (userID : string) (w : World B) : Prop :=
  forall r w' evs,
    UploadFileWithAudit E c ctx req userID w = Some (r, w') ->
    sink w' = sink w ++ evs ->
    Forall (fun ev => AuditEvent.UserID ev <> "") evs.

Definition mockWorld : World MockRustFSClient :=
  {| backend := NewMockRustFSClient 1704067200000000000; sink := [] |}.

(** Whenever the computation returns, the sink has received some more
    events and each of them has [userID] as its actor. *)
Definition emits_by {B A} (userID : string) (m : M B A) : Prop :=
  forall w a w',
    m w = Some (a, w') ->
    exists evs, sink w' = sink w ++ evs /\
                Forall (fun ev => AuditEvent.UserID ev = userID) evs.

(** *** More of the mock, and the factory *)

(** [CopyFile] of the mock. *)
Definition mockCopyFile (ctx : Ctx) (sourcePath destPath : string)
    (m : MockRustFSClient) : option error * MockRustFSClient :=
  if shouldFail m then (failError m, resetFailure m)
  else
    match files m !! sourcePath with
    | None =>
        (Some (errorString ("source file not found: " +:+ sourcePath)), m)
    | Some sourceFile =>
        let destFile :=
          {| FileInfo.Path := destPath;
             FileInfo.Size := FileInfo.Size sourceFile;
             FileInfo.ContentType := FileInfo.ContentType sourceFile;
             FileInfo.ETag := "etag-" +:+ Z_to_string (clock m);
             FileInfo.LastModified := clock m;
             FileInfo.Metadata := FileInfo.Metadata sourceFile |} in
        (None,
         {| files := <[destPath := destFile]> (files m);
            uploads := uploads m;
            deletes := deletes m;
            shouldFail := shouldFail m;
            failError := failError m;
            clock := clock m |})
    end.

(** [NewAuditableRustFSClient]; the wrapped client is the [Env] the
    methods run against. *)
Definition NewAuditableRustFSClient
    (auditLogger : option Audit.RustFSAuditLogger)
    (config : Config.RustFSConfig) (service : string)
  : AuditableRustFSClient :=
  {| auditLogger := auditLogger; config := config; service := service |}.

(** [ClientFactory.CreateClientFromConfig]: the audit logger it makes
    when auditing is enabled has no sink ([nil] is passed for it), and
    there is no audit logger otherwise.  [useMock] chooses the wrapped
    client. *)
Definition CreateClientFromConfig (cfg : Config.RustFSConfig)
    (serviceName : string) : AuditableRustFSClient :=
  let auditLogger :=
    if Config.EnableAudit cfg
    then Some (Audit.NewRustFSAuditLogger (Config.AuditService cfg) false
                 (Config.AuditMetadata cfg))
    else None in
  NewAuditableRustFSClient auditLogger cfg serviceName.

(** [GetFileURL] of [RustFSClient], the client of the storage service. *)
Definition RustFSClient_GetFileURL (config : Config.RustFSConfig)
    (path : string) : string :=
  let baseURL := Config.BaseURL config in
  let n := String.length baseURL in
  let baseURL :=
    if (0 <? n)%nat &&
       match String.get (n - 1) baseURL with
       | Some c => Ascii.eqb c "/"
       | None => false
       end
    then GoStrings.slice_to baseURL (n - 1)
    else baseURL in
  baseURL +:+ "/" +:+ Config.BucketName config +:+ "/" +:+ path.

(** The size check as the specification words it: for every
    configuration, a request whose declared size is [MaxFileSize], or is
    zero or negative, is not rejected for its size. *)
Definition size_check_claim (c : AuditableRustFSClient)
    (req : UploadRequest.t) : Prop :=
  UploadRequest.FileSize req = Config.MaxFileSize (config c) \/
  UploadRequest.FileSize req <= 0 ->
  validateUploadRequest c req
  <> Some (errorString
             ("file size " +:+ Z_to_string (UploadRequest.FileSize req) +:+
              " exceeds maximum allowed size " +:+
              Z_to_string (Config.MaxFileSize (config c)))).

(** A client given a configuration whose [MaxFileSize] is negative:
    [NewAuditableRustFSClient] takes any configuration, [Validate] being
    called by [LoadConfig] only. *)
Definition negativeMaxClient : AuditableRustFSClient :=
  NewAuditableRustFSClient (Some exampleLogger)
    (Config.withMaxFileSize Config.exampleConfig (-1)) "site-service".

(** Whenever the computation returns, the sink is what it was. *)
Definition silent {B A} (m : M B A) : Prop :=
  forall w a w', m w = Some (a, w') -> sink w' = sink w.

End Client.

(** ** utils: which errors are worth a retry *)

Module RetryErrors.

Definition lower (c : ascii) : ascii :=
  let n := nat_of_ascii c in
  if ((65 <=? n) && (n <=? 90))%nat then ascii_of_nat (n + 32) else c.

(** [strings.ToLower], on the ASCII letters. *)
Fixpoint ToLower (s : string) : string :=
  match s with
  | EmptyString => EmptyString
  | String c s' => String (lower c) (ToLower s')
  end.

(** [containsIgnoreCase] *)
Definition containsIgnoreCase (s substr : string) : bool :=
  if (String.length s <? String.length substr)%nat then false
  else GoStrings.Contains (ToLower s) (ToLower substr).

(** [contains] *)
Definition contains (s substr : string) : bool :=
  (String.length substr <=? String.length s)%nat &&
  (String.eqb s substr ||
   ((String.length substr <? String.length s)%nat &&
    (String.eqb (GoStrings.slice_to s (String.length substr)) substr ||
     String.eqb (GoStrings.slice_from s
                   (String.length s - String.length substr)) substr ||
     containsIgnoreCase s substr))).

Definition networkPatterns : list string :=
  ["connection refused"; "connection reset"; "network unreachable";
   "no route to host"; "host unreachable"; "connection timed out";
   "read timeout"; "write timeout"].

(** [isNetworkError], for an error that is not [nil]. *)
Definition isNetworkError (err : error) : bool :=
  existsb (fun pattern => contains (Error err) pattern) networkPatterns.

(** [isTimeoutError] and [isTemporaryError], for an error that is not
    [nil]. *)
Definition timeoutPatterns : list string :=
  ["timeout"; "deadline exceeded"; "context canceled";
   "context deadline exceeded"].

Definition isTimeoutError (err : error) : bool :=
  existsb (fun pattern => contains (Error err) pattern) timeoutPatterns.

Definition temporaryPatterns : list string :=
  ["temporary"; "transient"; "retry later"; "service unavailable";
   "rate limit"; "too many requests"].

Definition isTemporaryError (err : error) : bool :=
  existsb (fun pattern => contains (Error err) pattern) temporaryPatterns.

Definition retryablePatterns : list string :=
  ["connection refused"; "connection reset"; "timeout"; "temporary failure";
   "service unavailable"; "rate limit"; "too many requests";
   "network unreachable"; "connection timed out"; "read timeout";
   "write timeout"].

(** [IsRetryableError]; a [nil] error is [None]. *)
Definition IsRetryableError (err : option error) : bool :=
  match err with
  | None => false
  | Some e =>
      if existsb (fun pattern => contains (Error e) pattern)
           retryablePatterns
      then true
      else if isNetworkError e then true
      else if isTimeoutError e then true
      else if isTemporaryError e then true
      else false
  end.

(** Every byte of [s] is below 128. *)
Fixpoint isASCII (s : string) : bool :=
  match s with
  | EmptyString => true
  | String c s' => (nat_of_ascii c <? 128)%nat && isASCII s'
  end.

(** [containsIgnoreCase] and [contains] over [strings.ToLower] as a
    function of the Go library, of which [ToLower] above is the part on
    ASCII strings. *)
Definition containsIgnoreCase_with (strings_ToLower : string -> string)
    (s substr : string) : bool :=
  if (String.length s <? String.length substr)%nat then false
  else GoStrings.Contains (strings_ToLower s) (strings_ToLower substr).

Definition contains_with (strings_ToLower : string -> string)
    (s substr : string) : bool :=
  (String.length substr <=? String.length s)%nat &&
  (String.eqb s substr ||
   ((String.length substr <? String.length s)%nat &&
    (String.eqb (GoStrings.slice_to s (String.length substr)) substr ||
     String.eqb (GoStrings.slice_from s
                   (String.length s - String.length substr)) substr ||
     containsIgnoreCase_with strings_ToLower s substr))).

(** On a string of ASCII bytes [strings.ToLower] changes the letters [A]
    to [Z] and nothing else. *)
Definition lowers_ASCII (strings_ToLower : string -> string) : Prop :=
  forall s, isASCII s = true -> strings_ToLower s = ToLower s.

End RetryErrors.

(** ** utils: content types, extensions and generated names *)

Module FileNames.

(** [IsImageType] *)
Definition IsImageType (contentType : string) : bool :=
  GoStrings.HasPrefix contentType "image/".

Definition documentTypes : list string :=
  ["application/pdf";
   "application/msword";
   "application/vnd.openxmlformats-officedocument.wordprocessingml.document";
   "application/vnd.ms-excel";
   "application/vnd.openxmlformats-officedocument.spreadsheetml.sheet";
   "application/vnd.ms-powerpoint";
   "application/vnd.openxmlformats-officedocument.presentationml.presentation";
   "text/plain";
   "text/csv"].

(** [IsDocumentType] *)
Definition IsDocumentType (contentType : string) : bool :=
  existsb (fun docType => String.eqb contentType docType) documentTypes.

(** [GetFileExtension] *)
Definition GetFileExtension (filename : string) : string :=
  let ext := RetryErrors.ToLower (GoStrings.Ext filename) in
  if negb (String.eqb ext "") && negb (GoStrings.HasPrefix ext ".")
  then "." +:+ ext
  else ext.

(** [GenerateUniqueFilename]; [unix] is [time.Now().Unix()]. *)
Definition GenerateUniqueFilename (basePath : string) (unix : Z) : string :=
  let ext := GoStrings.Ext basePath in
  let name := GoStrings.TrimSuffix basePath ext in
  name +:+ "_" +:+ Z_to_string unix +:+ ext.

(** [GenerateFilePath]; [date] is [time.Now().Format("2006/01/02")]. *)
Definition GenerateFilePath (filename prefix : string) (date : string)
    (unix : Z) : string :=
  let ext := GoStrings.Ext filename in
  let name := GoStrings.TrimSuffix filename ext in
  prefix +:+ "/" +:+ date +:+ "/" +:+ name +:+ "_" +:+ Z_to_string unix +:+
  ext.

(** [types.FileValidationResult] *)
Module FileValidationResult.
Record t := {
  Valid : bool;
  Message : string;
  Code : string
}.
End FileValidationResult.

(** The error [file.Read(buffer)] returned: [nil], [io.EOF], or another
    error. *)
Inductive ReadError :=
| ReadNil
| ReadEOF
| ReadFailed (err : error).

(** [matchContentType] and [isAllowedType] of the package [utils]. *)
Definition matchContentType (pattern contentType : string) : bool :=
  if String.eqb pattern contentType then true
  else if GoStrings.HasSuffix pattern "/*" then
    let prefix := GoStrings.TrimSuffix pattern "/*" in
    GoStrings.HasPrefix contentType (prefix +:+ "/")
  else false.

Fixpoint isAllowedType (contentType : string) (allowedTypes : list string)
  : bool :=
  match allowedTypes with
  | [] => false
  | allowedType :: rest =>
      if matchContentType allowedType contentType then true
      else isAllowedType contentType rest
  end.

(** [make([]byte, size)] after [file.Read] has put [data] at its start. *)
Definition buffer_of (data : string) (size : nat) : string :=
  data +:+ string_of_list_ascii
             (repeat Ascii.zero (size - String.length data)).

(** [ValidateFile]; [data] are the bytes that [file.Read(buffer)] has
    read into the buffer of 512 bytes and [readErr] is its error.
    [http_DetectContentType] and [mime_TypeByExtension] are the functions
    of the Go library. *)
Definition ValidateFile (http_DetectContentType : string -> string)
    (mime_TypeByExtension : string -> string)
    (data : string) (readErr : ReadError)
    (filename : string) (maxSize : Z) (allowedTypes : list string)
  : FileValidationResult.t * option error :=
  let n := Z.of_nat (String.length data) in
  match readErr with
  | ReadFailed err =>
      ({| FileValidationResult.Valid := false;
          FileValidationResult.Message := "Failed to read file";
          FileValidationResult.Code := "READ_ERROR" |}, Some err)
  | _ =>
      if (0 <? maxSize) && (maxSize <? n) then
        ({| FileValidationResult.Valid := false;
            FileValidationResult.Message :=
              "File size " +:+ Z_to_string n +:+
              " exceeds maximum allowed size " +:+ Z_to_string maxSize;
            FileValidationResult.Code := "FILE_TOO_LARGE" |}, None)
      else
        let contentType := http_DetectContentType (buffer_of data 512) in
        let contentType :=
          if String.eqb contentType ""
          then mime_TypeByExtension (GoStrings.Ext filename)
          else contentType in
        if negb (isAllowedType contentType allowedTypes) then
          ({| FileValidationResult.Valid := false;
              FileValidationResult.Message :=
                "Content type " +:+ contentType +:+ " is not allowed";
              FileValidationResult.Code := "INVALID_FILE_TYPE" |}, None)
        else
          ({| FileValidationResult.Valid := true;
              FileValidationResult.Message := "File is valid";
              FileValidationResult.Code := "VALID" |}, None)
  end.

(** [strings.ReplaceAll(s, old, new)] for a pattern [old] that is not
    empty: the instances of [old] are replaced from the left, without
    overlap.  The first [skip] bytes of [s] belong to an instance that has
    been replaced. *)
Fixpoint replace_from (skip : nat) (s old new : string) : string :=
  match s with
  | EmptyString => EmptyString
  | String c s' =>
      match skip with
      | S k => replace_from k s' old new
      | O =>
          if String.prefix old s
          then new +:+ replace_from (String.length old - 1) s' old new
          else String c (replace_from O s' old new)
      end
  end.

Definition ReplaceAll (s old new : string) : string :=
  replace_from O s old new.

(** [strings.TrimLeftFunc] and [strings.TrimRightFunc], on bytes. *)
Fixpoint TrimLeftFunc (s : string) (f : ascii -> bool) : string :=
  match s with
  | EmptyString => EmptyString
  | String c s' => if f c then TrimLeftFunc s' f else s
  end.

Fixpoint TrimRightFunc (s : string) (f : ascii -> bool) : string :=
  match s with
  | EmptyString => EmptyString
  | String c s' =>
      match TrimRightFunc s' f with
      | EmptyString => if f c then EmptyString else String c EmptyString
      | rest => String c rest
      end
  end.

(** The white space of ASCII: tab, line feed, vertical tab, form feed,
    carriage return and space. *)
Definition isSpace (c : ascii) : bool :=
  existsb (Ascii.eqb c)
    [ascii_of_nat 9; ascii_of_nat 10; ascii_of_nat 11; ascii_of_nat 12;
     ascii_of_nat 13; " "%char].

(** [strings.TrimSpace], for the white space of ASCII. *)
Definition TrimSpace (s : string) : string :=
  TrimRightFunc (TrimLeftFunc s isSpace) isSpace.

(** [strings.Trim(s, cutset)], for a cutset of ASCII bytes. *)
Definition Trim (s cutset : string) : string :=
  let cut c := existsb (Ascii.eqb c) (list_ascii_of_string cutset) in
  TrimRightFunc (TrimLeftFunc s cut) cut.

Definition specialChars : list string :=
  ["<"; ">"; ":"; String (ascii_of_nat 34) ""; "|"; "?"; "*"].

(** [SanitizeFilename]; [unix] is [time.Now().Unix()]. *)
Definition SanitizeFilename (filename : string) (unix : Z) : string :=
  let filename := ReplaceAll filename "/" "_" in
  let filename := ReplaceAll filename "\" "_" in
  let filename := ReplaceAll filename ".." "_" in
  let filename :=
    fold_left (fun filename char => ReplaceAll filename char "_")
      specialChars filename in
  let filename := TrimSpace filename in
  let filename := Trim filename "." in
  if String.eqb filename "" then "file_" +:+ Z_to_string unix else filename.

(** No byte of [s] is a dot or a slash. *)
Fixpoint plain (s : string) : bool :=
  match s with
  | EmptyString => true
  | String c s' =>
      negb (Ascii.eqb c "/") && negb (Ascii.eqb c ".") && plain s'
  end.

(** The name made of [n] dots. *)
Fixpoint dots (n : nat) : string :=
  match n with
  | O => EmptyString
  | S n' => String "." (dots n')
  end.

End FileNames.

(** The health check as the specification words it: with a backend that
    has its own probe, the verdict is that probe's; otherwise an
    information lookup on ["health-check-" + date] is made, and the verdict
    is unhealthy exactly when that lookup fails at the transport level. *)
Definition health_check_claim {B} (E : Client.Env B) (ctx : Client.Ctx)
    (w : Client.World B) : Prop :=
  match Client.CheckHealth E with
  | Some h => Client.HealthCheck E ctx w = Client.call (h ctx) w
  | None =>
      let path := "health-check-" +:+
                  Client.time_Format E "20060102"
                    (Client.time_Now E (Client.backend w)) in
      let r := fst (Client.GetFileInfo E ctx path (Client.backend w)) in
      exists verdict w',
        Client.HealthCheck E ctx w = Some (verdict, w') /\
        (verdict <> None <->
         exists err, snd r = Some err /\
                     RetryErrors.isNetworkError err = true)
  end.

(** The executor retrying [DeleteFile] of the mock on [path], under
    [context.Background()]. *)
Definition retryingDelete (path : string)
  : Retry.Env Client.MockRustFSClient :=
  {| Retry.fn := Client.mockDeleteFile Client.Background path;
     Retry.ctx_Err := fun _ => None;
     Retry.select := fun d m =>
       (Retry.TimerFired,
        {| Client.files := Client.files m;
           Client.uploads := Client.uploads m;
           Client.deletes := Client.deletes m;
           Client.shouldFail := Client.shouldFail m;
           Client.failError := Client.failError m;
           Client.clock := Client.clock m + d |});
     Retry.time_Now := Client.clock;
     Retry.overflow := Retry.amd64 |}.

(** A mock whose next call fails the way a backend that cannot be reached
    does. *)
Definition unreachableWorld : Client.World Client.MockRustFSClient :=
  {| Client.backend :=
       Client.SetFailureMode true
         (Some (errorString "dial tcp 10.0.0.7:9000: connection refused"))
         (Client.NewMockRustFSClient 1704067200000000000);
     Client.sink := [] |}.

(** * Properties *)

(** ** The retry executor *)

Section RetryFacts.
Import Retry.

Lemma randomFloat64_range (unixNano : Z) :
  (-1 < randomFloat64 unixNano < 1)%Q /\
  (0 <= unixNano -> (0 <= randomFloat64 unixNano)%Q).
Proof.
  unfold randomFloat64.
  assert (Hlt : Z.abs (Z.rem unixNano 1000) < 1000)
    by (apply Z.rem_bound_abs; lia).
  set (k := Z.rem unixNano 1000) in *.
  assert (Hup : (inject_Z k < 1000)%Q)
    by (change 1000%Q with (inject_Z 1000); rewrite <- Zlt_Qlt; lia).
  assert (Hlo : (-1000 < inject_Z k)%Q)
    by (change (-1000)%Q with (inject_Z (-1000)); rewrite <- Zlt_Qlt; lia).
  split; [split|].
  - apply Qlt_shift_div_l; lra.
  - apply Qlt_shift_div_r; lra.
  - intros Hnow. apply Qle_shift_div_l; [lra|].
    assert (0 <= k) by (apply Z.rem_nonneg; lia).
    change (0 * 1000)%Q with (inject_Z 0). rewrite <- Zle_Qle. lia.
Qed.

Lemma Qltb_spec (x y : Q) : reflect (x < y)%Q (Qltb x y).
Proof.
  unfold Qltb. destruct (Qle_bool y x) eqn:H; constructor.
  - apply Qle_bool_iff in H. lra.
  - apply Qnot_le_lt. intros Hle. apply Qle_bool_iff in Hle. congruence.
Qed.

Lemma Qtrunc_floor (x : Q) : (0 <= x)%Q -> Qtrunc x = Qfloor x.
Proof.
  destruct x as [n d]. unfold Qle, Qtrunc, Qfloor. simpl. intros H.
  apply Z.quot_div_nonneg; lia.
Qed.

(** A value between [0] and [2^63] is converted by discarding its
    fraction, whatever the platform. *)
Lemma time_Duration_in_range (overflow : Q -> Z) (x : Q) :
  (0 <= x)%Q -> (x < inject_Z (2 ^ 63))%Q ->
  time_Duration overflow x = Qfloor x.
Proof.
  intros H0 Hlt. unfold time_Duration. rewrite Qtrunc_floor by exact H0.
  assert (0 <= Qfloor x).
  { rewrite <- (Qfloor_Z 0). apply Qfloor_resp_le. exact H0. }
  assert (Qfloor x < 2 ^ 63).
  { rewrite Zlt_Qlt. eapply Qle_lt_trans; [apply Qfloor_le | exact Hlt]. }
  unfold inInt64.
  destruct (Z.leb_spec (- 2 ^ 63) (Qfloor x)); [|lia].
  destruct (Z.ltb_spec (Qfloor x) (2 ^ 63)); [reflexivity | lia].
Qed.

Lemma time_Duration_out_of_range (overflow : Q -> Z) (x : Q) :
  (inject_Z (2 ^ 63) <= x)%Q -> time_Duration overflow x = overflow x.
Proof.
  intros Hge. unfold time_Duration.
  assert (H0 : (0 <= x)%Q).
  { eapply Qle_trans; [|exact Hge].
    change 0%Q with (inject_Z 0). rewrite <- Zle_Qle. lia. }
  rewrite Qtrunc_floor by exact H0.
  assert (2 ^ 63 <= Qfloor x).
  { rewrite <- (Qfloor_Z (2 ^ 63)). apply Qfloor_resp_le. exact Hge. }
  unfold inInt64.
  destruct (Z.ltb_spec (Qfloor x) (2 ^ 63)); [lia|].
  rewrite andb_false_r. reflexivity.
Qed.

(** The bounds of C3 hold as long as the delay fits a [time.Duration]:
    for an attempt index [0 <= attempt], a base delay [0 < baseDelay] and a
    multiplier [1 <= backoff] such that
    [baseDelay * backoff^attempt * 1.25] is less than [2^63] nanoseconds,
    whatever the clock reads and on every platform, the delay
    [calculateDelay] returns lies in
    [[baseDelay, baseDelay * backoff^attempt * 1.25]].  The random value
    the jitter is drawn from lies in [[0, 1)] for a clock reading that is
    not negative.  ([float64] operations are taken exactly.) *)
Theorem calculateDelay_bounds (overflow : Q -> Z) (attempt baseDelay : Z)
    (backoff : Q) (unixNano : Z) :
  0 <= attempt -> 0 < baseDelay -> (1 <= backoff)%Q ->
  (inject_Z baseDelay * backoff ^ attempt * (5 # 4) < inject_Z (2 ^ 63))%Q ->
  delay_within_bounds attempt baseDelay backoff
    (calculateDelay overflow attempt baseDelay backoff unixNano) /\
  (0 <= unixNano ->
   (0 <= randomFloat64 unixNano)%Q /\ (randomFloat64 unixNano < 1)%Q).
Proof.
  intros Hi Hb Hm Hfit.
  destruct (randomFloat64_range unixNano) as [[Hr1 Hr2] Hr3].
  assert (Hpow : (1 <= backoff ^ attempt)%Q) by (apply Qpower_1_le; auto).
  assert (HbQ : (0 < inject_Z baseDelay)%Q)
    by (change 0%Q with (inject_Z 0); rewrite <- Zlt_Qlt; lia).
  unfold delay_within_bounds, calculateDelay.
  set (r := randomFloat64 unixNano) in *.
  set (b := inject_Z baseDelay) in *.
  set (p := (backoff ^ attempt)%Q) in *.
  assert (Hd : (b <= b * p)%Q) by nra.
  assert (Hj : (b * p * (1 # 4) * (2 * r - 1) <= b * p * (1 # 4))%Q) by nra.
  set (j := (b * p * (1 # 4) * (2 * r - 1))%Q) in *.
  set (x := if Qltb (b * p + j) b then b else (b * p + j)%Q).
  assert (Hx : (b <= x)%Q /\ (x <= b * p * (5 # 4))%Q).
  { unfold x. destruct (Qltb_spec (b * p + j) b); split; lra. }
  destruct Hx as [Hx1 Hx2].
  rewrite time_Duration_in_range by lra.
  split; [split|].
  - rewrite <- (Qfloor_Z baseDelay). apply Qfloor_resp_le. exact Hx1.
  - eapply Qle_trans; [apply Qfloor_le | exact Hx2].
  - intros Hnow. split; [apply Hr3; exact Hnow | exact Hr2].
Qed.

Example calculateDelay_bounds_example :
  delay_within_bounds 2 1000000000 2
    (calculateDelay amd64 2 1000000000 2 1700000000123456789).
Proof.
  apply (calculateDelay_bounds amd64 2 1000000000 2 1700000000123456789).
  - lia.
  - lia.
  - discriminate.
  - reflexivity.
Qed.

(** C3 at [GetRetryDelay(64, time.Second, 2.0)].  Whatever the clock
    reads, the delay computed is at least a quarter of [10^9 * 2^64]
    nanoseconds, beyond the range of [int64]; the conversion to
    [time.Duration] then yields what the platform makes of it, on amd64 the
    least [int64].  The delay returned is negative, outside the bounds of
    the specification. *)
Theorem GetRetryDelay_overflow (unixNano : Z) :
  GetRetryDelay amd64 64 1000000000 2 unixNano = - 2 ^ 63 /\
  ~ delay_within_bounds 64 1000000000 2
      (GetRetryDelay amd64 64 1000000000 2 unixNano).
Proof.
  assert (Heq : GetRetryDelay amd64 64 1000000000 2 unixNano = - 2 ^ 63).
  { unfold GetRetryDelay, calculateDelay.
    destruct (randomFloat64_range unixNano) as [[Hr1 Hr2] _].
    set (r := randomFloat64 unixNano) in *.
    set (d := (inject_Z 1000000000 * 2 ^ 64)%Q).
    assert (Hd : (d == 18446744073709551616000000000)%Q) by reflexivity.
    assert (H63 : (inject_Z (2 ^ 63) == 9223372036854775808)%Q)
      by reflexivity.
    assert (Hb : (inject_Z 1000000000 == 1000000000)%Q) by reflexivity.
    assert (Hj : (- (3 # 4) * d <= d * (1 # 4) * (2 * r - 1))%Q) by nra.
    set (j := (d * (1 # 4) * (2 * r - 1))%Q) in *.
    rewrite time_Duration_out_of_range; [reflexivity|].
    destruct (Qltb_spec (d + j) (inject_Z 1000000000)); lra. }
  split; [exact Heq|].
  rewrite Heq. intros [H _]. lia.
Qed.

Section Loop.
Context {W : Type}.
Variable E : Env W.
Variable config : RetryConfig.
Variable startTime : Z.

Local Abbreviation iteration := (iteration E config startTime).
Local Abbreviation for_loop := (for_loop E config startTime).
Local Abbreviation run := (run E config startTime).
Local Abbreviation exhausted := (exhausted E config startTime).
Local Abbreviation next_attempt := (next_attempt E config startTime).

Lemma iteration_attempt s s' :
  iteration s = inr s' -> attempt s' = attempt s + 1.
Proof.
  unfold Retry.iteration. intros H.
  destruct (ctx_Err E (world s)); [discriminate|].
  destruct (fn E (world s)) as [[e|] w1]; [|discriminate].
  destruct (attempt s <? MaxAttempts config - 1).
  - destruct (select E _ w1) as [[] w2]; [|discriminate].
    injection H as <-. reflexivity.
  - injection H as <-. reflexivity.
Qed.

Lemma run_exhausted s :
  MaxAttempts config <= attempt s -> run s = exhausted s.
Proof.
  intros H. unfold Retry.run.
  destruct (Z.to_nat _); simpl;
    destruct (Z.ltb_spec (attempt s) (MaxAttempts config)); auto; lia.
Qed.

Lemma run_unfold s :
  attempt s < MaxAttempts config ->
  run s = match iteration s with
          | inl r => r
          | inr s' => run s'
          end.
Proof.
  intros H. unfold Retry.run.
  replace (Z.to_nat (MaxAttempts config - attempt s))
    with (S (Z.to_nat (MaxAttempts config - (attempt s + 1)))) by lia.
  simpl. destruct (Z.ltb_spec (attempt s) (MaxAttempts config)); [|lia].
  destruct (iteration s) as [r|s'] eqn:Hit; [reflexivity|].
  rewrite (iteration_attempt _ _ Hit). reflexivity.
Qed.

Lemma run_return s r :
  attempt s < MaxAttempts config -> iteration s = inl r -> run s = r.
Proof. intros H Hit. rewrite run_unfold, Hit; auto. Qed.

Lemma run_next s s' : next_attempt s s' -> run s = run s'.
Proof. intros [H Hit]. rewrite run_unfold, Hit; auto. Qed.

Lemma run_reaches s s' : rtc next_attempt s s' -> run s = run s'.
Proof.
  induction 1 as [|s1 s2 s3 H12 _ IH]; [reflexivity|].
  rewrite (run_next _ _ H12). exact IH.
Qed.

(** Fuel: the loop needs [MaxAttempts - attempt] passes and more fuel
    changes nothing. *)
Lemma for_loop_fuel fuel s :
  (Z.to_nat (MaxAttempts config - attempt s) <= fuel)%nat ->
  for_loop fuel s = run s.
Proof.
  revert s. induction fuel as [|fuel IH]; intros s Hf.
  - unfold Retry.run. replace (Z.to_nat _) with O by lia. reflexivity.
  - destruct (Z.ltb_spec (attempt s) (MaxAttempts config)) as [Hlt|Hge].
    + rewrite run_unfold by assumption. simpl.
      destruct (Z.ltb_spec (attempt s) (MaxAttempts config)); [|lia].
      destruct (iteration s) as [r|s'] eqn:Hit; [reflexivity|].
      apply IH. rewrite (iteration_attempt _ _ Hit). lia.
    + rewrite run_exhausted by assumption. simpl.
      destruct (Z.ltb_spec (attempt s) (MaxAttempts config)); [lia|].
      reflexivity.
Qed.

End Loop.

Section Scripted.
Context {W : Type}.
Variable E : Env W.
Variable script : nat -> option error.
Variable config : RetryConfig.
Variable startTime : Z.
Hypothesis Hctx : never_cancelled E.

Local Abbreviation next_attempt :=
  (next_attempt (scripted script E) config startTime).

(** While the operation fails and the context is not cancelled, one pass
    of the loop leads to the start of the next attempt, after one more
    invocation. *)
Lemma scripted_failure_step (s : LoopState (W * nat)) :
  attempt s < MaxAttempts config ->
  script (snd (world s)) <> None ->
  exists s', next_attempt s s' /\
             attempt s' = attempt s + 1 /\
             snd (world s') = S (snd (world s)) /\
             lastError s' = script (snd (world s)).
Proof.
  intros Hlt Hfail. destruct Hctx as [Herr Hsel].
  destruct s as [a le td [w calls]]. simpl in *.
  unfold Retry.next_attempt, iteration. simpl.
  rewrite Herr.
  destruct (script calls) as [e|] eqn:Hs; [|congruence].
  destruct (a <? MaxAttempts config - 1).
  - specialize (Hsel (calculateDelay (overflow E) a (Delay config)
                        (Backoff config) (time_Now E (snd (fn E w))))
                  (snd (fn E w))).
    destruct (select E _ (snd (fn E w))) as [c w2]. simpl in Hsel. subst c.
    eexists. split; [split; [exact Hlt | reflexivity]|]. simpl. auto.
  - eexists. split; [split; [exact Hlt | reflexivity]|]. simpl. auto.
Qed.

(** After [m] failures in a row the loop stands at the start of attempt
    [m], the operation has been invoked [m] times and the error kept is
    that of the last invocation. *)
Lemma scripted_failures (w : W) (m : nat) :
  Z.of_nat m <= MaxAttempts config ->
  (forall j, (j < m)%nat -> script j <> None) ->
  exists s, rtc next_attempt (initial (w, O)) s /\
            attempt s = Z.of_nat m /\
            snd (world s) = m /\
            lastError s = match m with
                          | O => None
                          | S j => script j
                          end.
Proof.
  induction m as [|m IH]; intros Hm Hfail.
  - exists (initial (w, O)). repeat split; constructor.
  - destruct IH as (s & Hreach & Ha & Hc & _); [lia | auto with lia |].
    destruct (scripted_failure_step s) as (s' & Hnext & Ha' & Hc' & He').
    + lia.
    + rewrite Hc. apply Hfail. lia.
    + exists s'. split; [eapply rtc_r; eauto|].
      rewrite Ha', Hc', He', Ha, Hc. repeat split. lia.
Qed.

End Scripted.

Section Counting.
Context {W : Type}.
Variable E : Env W.
Variable config : RetryConfig.
Variable startTime : Z.

Local Abbreviation next_attempt :=
  (next_attempt (counting E) config startTime).

(** At the start of attempt [a] the operation has been invoked [a]
    times. *)
Lemma counting_reaches (w : W) (s : LoopState (W * nat)) :
  rtc next_attempt (initial (w, O)) s ->
  Z.of_nat (snd (world s)) = attempt s.
Proof.
  revert s.
  apply (rtc_ind_r (R := next_attempt)
           (fun s => Z.of_nat (snd (world s)) = attempt s)); [reflexivity|].
  intros s s' _ [Hlt Hit] IH.
  destruct s as [a le td [w1 calls]]. simpl in *.
  unfold iteration in Hit. simpl in Hit.
  destruct (ctx_Err E w1); [discriminate|].
  destruct (fn E w1) as [[e|] w2]; [|discriminate].
  destruct (a <? MaxAttempts config - 1).
  - destruct (select E _ w2) as [[] w3]; [|discriminate].
    injection Hit as <-. simpl. lia.
  - injection Hit as <-. simpl. lia.
Qed.

End Counting.

Section Outcome.
Context {W : Type}.
Variable E : Env W.
Variable config : RetryConfig.
Variable startTime : Z.
Hypothesis Hcontract : context_contract E.

Local Abbreviation run := (run E config startTime).

(** What holds of the result from any start of an attempt on. *)
Lemma run_outcome (fuel : nat) (s : LoopState W) :
  fuel = Z.to_nat (MaxAttempts config - attempt s) ->
  0 <= attempt s <= MaxAttempts config ->
  (0 < attempt s -> lastError s <> None) ->
  (attempt s = 0 -> 0 < MaxAttempts config) ->
  let r := fst (run s) in
  attempt s <= Attempts r <= MaxAttempts config /\
  (LastError r = None <-> Success r = true) /\
  (Attempts r = 0 <-> attempt s = 0 /\ ctx_Err E (world s) <> None).
Proof.
  revert s. induction fuel as [|fuel IH]; intros s Hf Ha Hle H0.
  - rewrite run_exhausted by lia. simpl.
    assert (attempt s = MaxAttempts config) by lia.
    repeat split; try lia; try discriminate.
    + intros Hnone. apply Hle in Hnone; [contradiction|lia].
  - assert (Hlt : attempt s < MaxAttempts config) by lia.
    rewrite run_unfold by exact Hlt.
    unfold iteration.
    destruct (ctx_Err E (world s)) as [e|] eqn:Hc.
    { simpl. repeat split; try lia; try discriminate; auto. }
    destruct (fn E (world s)) as [[e|] w1] eqn:Hfn.
    2:{ simpl. repeat split; try lia; auto. intros [_ Hn]. congruence. }
    destruct (attempt s <? MaxAttempts config - 1) eqn:Hlast.
    + destruct (select E _ w1) as [[] w2] eqn:Hsel.
      * match goal with |- context [Retry.run _ _ _ ?s'] =>
          destruct (IH s') as (I1 & I2 & I3) end; simpl; try lia;
          try discriminate.
        simpl in *. repeat split; try lia; try tauto;
          try (intros [_ Hn]; congruence).
      * simpl. repeat split; try lia; try discriminate.
        -- intros Hn. exfalso. eapply Hcontract; eauto.
        -- intros [_ Hn]. congruence.
    + match goal with |- context [Retry.run _ _ _ ?s'] =>
        destruct (IH s') as (I1 & I2 & I3) end; simpl; try lia;
        try discriminate.
      simpl in *. repeat split; try lia; try tauto;
        try (intros [_ Hn]; congruence).
Qed.

End Outcome.

(** C1.  With at least one attempt allowed and a context that is never
    cancelled, an operation that fails at every invocation makes the
    executor return [Success = false], [Attempts = MaxAttempts] and, as
    [LastError], the error of the last, [MaxAttempts]-th invocation; the
    operation has then been invoked [MaxAttempts] times. *)
Theorem retry_always_failing {W : Type} (E : Env W)
    (script : nat -> option error) (config : RetryConfig) (w : W) :
  1 <= MaxAttempts config ->
  never_cancelled E ->
  (forall j, script j <> None) ->
  let out := RetryWithBackoffWithContext (scripted script E) (Some config)
               (w, O) in
  Success (fst out) = false /\
  Attempts (fst out) = MaxAttempts config /\
  LastError (fst out) = script (Z.to_nat (MaxAttempts config - 1)) /\
  Z.of_nat (snd (snd out)) = MaxAttempts config.
Proof.
  intros Hn Hctx Hfail. unfold RetryWithBackoffWithContext. simpl.
  set (start := time_Now E w).
  destruct (scripted_failures E script config start Hctx w
              (Z.to_nat (MaxAttempts config)))
    as (s & Hreach & Ha & Hc & He); [lia | auto |].
  rewrite (run_reaches _ _ _ _ _ Hreach).
  rewrite run_exhausted by lia. simpl.
  rewrite He, Hc.
  replace (Z.to_nat (MaxAttempts config))
    with (S (Z.to_nat (MaxAttempts config - 1))) by lia.
  repeat split. lia.
Qed.

Lemma retry_always_failing_witness :
  let out := RetryWithBackoffWithContext
               (scripted alwaysFails (clockEnv None 5 None Canceled))
               (Some defaultConfig) (0, O) in
  Success (fst out) = false /\
  Attempts (fst out) = 3 /\
  LastError (fst out) = Some (errorString "connection refused") /\
  Z.of_nat (snd (snd out)) = 3.
Proof.
  apply (retry_always_failing (clockEnv None 5 None Canceled) alwaysFails
           defaultConfig 0).
  - simpl. lia.
  - split; intros; reflexivity.
  - intros j. discriminate.
Defined.

(** C2.  With a context that is never cancelled, an operation that fails
    at its first [k - 1] invocations and succeeds at the [k]-th, for
    [1 <= k <= MaxAttempts], makes the executor return [Success = true] and
    [Attempts = k] (with no error), and the operation has been invoked
    exactly [k] times when the executor returns. *)
Theorem retry_succeeds_on_kth {W : Type} (E : Env W)
    (script : nat -> option error) (config : RetryConfig) (w : W)
    (k : nat) :
  (1 <= k)%nat ->
  Z.of_nat k <= MaxAttempts config ->
  never_cancelled E ->
  (forall j, (j < k - 1)%nat -> script j <> None) ->
  script (k - 1)%nat = None ->
  let out := RetryWithBackoffWithContext (scripted script E) (Some config)
               (w, O) in
  Success (fst out) = true /\
  Attempts (fst out) = Z.of_nat k /\
  LastError (fst out) = None /\
  snd (snd out) = k.
Proof.
  intros Hk Hkn Hctx Hfail Hok. unfold RetryWithBackoffWithContext. simpl.
  set (start := time_Now E w).
  destruct (scripted_failures E script config start Hctx w (k - 1))
    as (s & Hreach & Ha & Hc & _); [lia | auto |].
  rewrite (run_reaches _ _ _ _ _ Hreach).
  rewrite run_unfold by lia.
  destruct s as [a le td [w1 calls]]. simpl in *. subst calls.
  unfold iteration. simpl.
  destruct Hctx as [Herr _]. rewrite Herr, Hok. simpl.
  repeat split; lia.
Qed.

Lemma retry_succeeds_on_kth_witness :
  let out := RetryWithBackoffWithContext
               (scripted failsOnce (clockEnv None 5 None Canceled))
               (Some defaultConfig) (0, O) in
  Success (fst out) = true /\
  Attempts (fst out) = 2 /\
  LastError (fst out) = None /\
  snd (snd out) = 2%nat.
Proof.
  apply (retry_succeeds_on_kth (clockEnv None 5 None Canceled) failsOnce
           defaultConfig 0 2).
  - lia.
  - simpl. lia.
  - split; intros; reflexivity.
  - intros [|j] Hj; [discriminate | simpl in Hj; lia].
  - reflexivity.
Defined.

(** Deleting a path on a backend that fails once and then succeeds, through
    the executor with three attempts allowed: success at the second
    attempt, and the path is deleted once. *)
Example retry_mock_delete :
  let out := RetryWithBackoffWithContext (retryingDelete "snapshots/old.png")
               (Some defaultConfig)
               (Client.SetFailureMode true
                  (Some (errorString "connection reset"))
                  (Client.NewMockRustFSClient 1704067200000000000)) in
  Success (fst out) = true /\ Attempts (fst out) = 2 /\
  Client.deletes (snd out) = ["snapshots/old.png"].
Proof. vm_compute. repeat split. Qed.

(** C4.  Let the executor stand at the start of an attempt (state [s],
    reached from the initial state, with [attempt s < MaxAttempts]); the
    operation carries a counter of its invocations.
    - If [ctx.Err()] is then not nil, the executor returns at once (the
      world is the one of [s], so the operation is not invoked again) with
      [Success = false], that error as [LastError] and [Attempts = attempt],
      which is the number of invocations made.
    - If the context is not cancelled, the operation fails, this is not the
      last attempt and [ctx.Done()] wins the [select], the executor returns
      [Success = false], [LastError = ctx.Err()] (not nil for a context that
      keeps its contract) and [Attempts = attempt + 1], which is the number
      of invocations made and is less than [MaxAttempts]. *)
Theorem retry_cancellation {W : Type} (E : Env W) (config : RetryConfig)
    (w : W) (s : LoopState (W * nat)) :
  rtc (next_attempt (counting E) config (time_Now E w)) (initial (w, O)) s ->
  attempt s < MaxAttempts config ->
  let out := RetryWithBackoffWithContext (counting E) (Some config) (w, O) in
  let calls := snd (world s) in
  (forall reason, ctx_Err E (fst (world s)) = Some reason ->
     snd out = world s /\
     Success (fst out) = false /\
     LastError (fst out) = Some reason /\
     Attempts (fst out) = attempt s /\
     Attempts (fst out) = Z.of_nat calls) /\
  (forall e w1 w2,
     ctx_Err E (fst (world s)) = None ->
     fn E (fst (world s)) = (Some e, w1) ->
     attempt s < MaxAttempts config - 1 ->
     select E (calculateDelay (overflow E) (attempt s) (Delay config)
                 (Backoff config) (time_Now E w1)) w1 = (CtxDone, w2) ->
     snd out = (w2, S calls) /\
     Success (fst out) = false /\
     LastError (fst out) = ctx_Err E w2 /\
     (context_contract E -> LastError (fst out) <> None) /\
     Attempts (fst out) = attempt s + 1 /\
     Attempts (fst out) = Z.of_nat (S calls) /\
     Attempts (fst out) < MaxAttempts config).
Proof.
  intros Hreach Hlt out calls.
  pose proof (counting_reaches E config _ w s Hreach) as Hcalls.
  assert (Hout : out = run (counting E) config (time_Now E w) s).
  { unfold out, RetryWithBackoffWithContext. simpl.
    apply (run_reaches _ _ _ _ _ Hreach). }
  rewrite run_unfold in Hout by exact Hlt.
  destruct s as [a le td [w0 c]]. simpl in *.
  unfold iteration in Hout. simpl in Hout.
  split.
  - intros reason Hc. rewrite Hc in Hout. rewrite Hout. simpl.
    repeat split; auto; lia.
  - intros e w1 w2 Hc Hfn Hnl Hsel.
    rewrite Hc, Hfn in Hout. simpl in Hout.
    destruct (Z.ltb_spec a (MaxAttempts config - 1)); [|lia].
    rewrite Hsel in Hout. rewrite Hout. simpl.
    repeat split; auto; try lia.
    intros Hcontract. eapply Hcontract. exact Hsel.
Qed.

(** Cancelled before the first attempt, and cancelled during the wait that
    follows the first attempt. *)
Lemma retry_cancellation_witness :
  (let E := clockEnv (Some (errorString "timeout")) 5 (Some 0) Canceled in
   let out := RetryWithBackoffWithContext (counting E) (Some defaultConfig)
                (0, O) in
   snd out = (0, O) /\ Success (fst out) = false /\
   LastError (fst out) = Some Canceled /\ Attempts (fst out) = 0) /\
  (let E := clockEnv (Some (errorString "timeout")) 5 (Some 7)
              DeadlineExceeded in
   let out := RetryWithBackoffWithContext (counting E) (Some defaultConfig)
                (0, O) in
   snd out = (7, 1%nat) /\ Success (fst out) = false /\
   LastError (fst out) = Some DeadlineExceeded /\ Attempts (fst out) = 1).
Proof.
  split.
  - destruct (retry_cancellation
                (clockEnv (Some (errorString "timeout")) 5 (Some 0) Canceled)
                defaultConfig 0 (initial (0, O)))
      as [Hstart _]; [constructor | simpl; lia |].
    destruct (Hstart Canceled) as (H1 & H2 & H3 & H4 & _); [reflexivity|].
    repeat split; assumption.
  - destruct (retry_cancellation
                (clockEnv (Some (errorString "timeout")) 5 (Some 7)
                   DeadlineExceeded)
                defaultConfig 0 (initial (0, O)))
      as [_ Hwait]; [constructor | simpl; lia |].
    destruct (Hwait (errorString "timeout") 5 7)
      as (H1 & H2 & H3 & _ & H4 & _);
      [reflexivity | reflexivity | simpl; lia | vm_compute; reflexivity |].
    repeat split; assumption.
Defined.

(** C5, as the code has it.  With at least one attempt allowed and a
    context that keeps its contract, the result satisfies
    [0 <= Attempts <= MaxAttempts], where [Attempts = 0] exactly when the
    context is already cancelled before the first attempt, and [LastError]
    is present iff [Success] is false. *)
Theorem retry_outcome_invariant {W : Type} (E : Env W)
    (config : RetryConfig) (w : W) :
  1 <= MaxAttempts config ->
  context_contract E ->
  let r := fst (RetryWithBackoffWithContext E (Some config) w) in
  0 <= Attempts r <= MaxAttempts config /\
  (Attempts r = 0 <-> ctx_Err E w <> None) /\
  (LastError r <> None <-> Success r = false).
Proof.
  intros Hn Hcontract. unfold RetryWithBackoffWithContext.
  destruct (run_outcome E config (time_Now E w) Hcontract
              (Z.to_nat (MaxAttempts config - 0)) (initial w))
    as (H1 & H2 & H3); simpl; try lia; try reflexivity.
  simpl in *. split; [lia|]. split; [tauto|].
  destruct (Success _); split; intros H; try discriminate; try reflexivity.
  - destruct H. apply H2. reflexivity.
  - intros Hnone. apply H2 in Hnone. discriminate.
Qed.

Lemma retry_outcome_invariant_witness :
  let r := fst (RetryWithBackoffWithContext
                  (clockEnv (Some (errorString "timeout")) 5 (Some 7)
                     DeadlineExceeded)
                  (Some defaultConfig) 0) in
  0 <= Attempts r <= 3 /\
  (Attempts r = 0 <->
   ctx_Err (clockEnv (Some (errorString "timeout")) 5 (Some 7)
              DeadlineExceeded) 0 <> None) /\
  (LastError r <> None <-> Success r = false).
Proof.
  apply (retry_outcome_invariant
           (clockEnv (Some (errorString "timeout")) 5 (Some 7)
              DeadlineExceeded) defaultConfig 0).
  - simpl. lia.
  - intros d now now'. simpl.
    destruct (7 <? now + d) eqn:Hlt; [|discriminate].
    intros Heq. injection Heq as <-.
    destruct (Z.leb_spec 7 (Z.max now 7)); [discriminate | lia].
Defined.

(** C5 as stated fails: when the context is already cancelled the executor
    returns [Attempts = 0], outside [1..maxAttempts]. *)
Lemma retry_outcome_range_counterexample :
  ~ RetryOutcome_invariant 3
      (fst (RetryWithBackoffWithContext
              (clockEnv None 5 (Some 0) Canceled) (Some defaultConfig) 0)).
Proof. intros [[H _] _]. vm_compute in H. apply H. reflexivity. Qed.

End RetryFacts.

(** ** Content types *)

Section StringFacts.
Import GoStrings.

Lemma append_cons (x : ascii) (a b : string) :
  String x a +:+ b = String x (a +:+ b).
Proof. reflexivity. Qed.

Lemma append_nil (b : string) : "" +:+ b = b.
Proof. reflexivity. Qed.

Lemma length_append (a b : string) :
  String.length (a +:+ b) = (String.length a + String.length b)%nat.
Proof.
  induction a as [|c a IH]; [reflexivity|].
  rewrite append_cons. simpl. now rewrite IH.
Qed.

Lemma append_assoc (a b c : string) : (a +:+ b) +:+ c = a +:+ (b +:+ c).
Proof.
  induction a as [|x a IH]; [reflexivity|].
  rewrite !append_cons. now rewrite IH.
Qed.

Lemma substring_all (s : string) : substring 0 (String.length s) s = s.
Proof. induction s as [|c s IH]; simpl; [reflexivity | now rewrite IH]. Qed.

Lemma substring_append_l (a b : string) :
  substring 0 (String.length a) (a +:+ b) = a.
Proof.
  induction a as [|c a IH].
  - rewrite append_nil. destruct b; reflexivity.
  - rewrite append_cons. simpl. now rewrite IH.
Qed.

Lemma substring_append_r (a b : string) :
  substring (String.length a) (String.length b) (a +:+ b) = b.
Proof.
  induction a as [|c a IH]; [apply substring_all|].
  rewrite append_cons. simpl. exact IH.
Qed.

Lemma substring_split (s : string) (n : nat) :
  (n <= String.length s)%nat ->
  s = substring 0 n s +:+ substring n (String.length s - n) s.
Proof.
  revert n. induction s as [|c s IH]; intros [|n] Hn; simpl in *;
    try reflexivity; try lia.
  - rewrite append_nil. now rewrite substring_all.
  - rewrite append_cons. f_equal. apply IH. lia.
Qed.

Lemma prefix_spec (p s : string) :
  String.prefix p s = true <-> exists r, s = p +:+ r.
Proof.
  revert s. induction p as [|c p IH]; intros s; simpl.
  - split; [intros _; exists s; reflexivity | intros _; destruct s; reflexivity].
  - destruct s as [|d s];
      [split; [discriminate | intros [r Hr]; discriminate]|].
    change (String.prefix (String c p) (String d s))
      with (if ascii_dec c d then String.prefix p s else false).
    destruct (ascii_dec c d) as [->|Hne].
    + rewrite IH. split; intros [r Hr]; exists r.
      * rewrite append_cons. congruence.
      * rewrite append_cons in Hr. congruence.
    + split; [discriminate | intros [r Hr]].
      rewrite append_cons in Hr. congruence.
Qed.

Lemma append_inj_r (a a' b : string) : a +:+ b = a' +:+ b -> a = a'.
Proof.
  intros H.
  assert (Hlen : String.length a = String.length a').
  { apply (f_equal String.length) in H. rewrite !length_append in H. lia. }
  revert a' H Hlen. induction a as [|x a IH]; intros [|y a'] H Hlen;
    simpl in Hlen; try discriminate; [reflexivity|].
  rewrite !append_cons in H. injection H as -> H. f_equal. apply IH; auto.
Qed.

Lemma HasSuffix_spec (s suffix : string) :
  HasSuffix s suffix = true <-> exists t, s = t +:+ suffix.
Proof.
  unfold HasSuffix, slice_from. rewrite andb_true_iff, Nat.leb_le, String.eqb_eq.
  split.
  - intros [Hlen Heq].
    exists (substring 0 (String.length s - String.length suffix) s).
    rewrite <- Heq at 2. apply substring_split. lia.
  - intros [t ->]. rewrite length_append. split; [lia|].
    replace (String.length t + String.length suffix - String.length suffix)%nat
      with (String.length t) by lia.
    replace (String.length t + String.length suffix - String.length t)%nat
      with (String.length suffix) by lia.
    apply substring_append_r.
Qed.

Lemma TrimSuffix_append (t suffix : string) :
  TrimSuffix (t +:+ suffix) suffix = t.
Proof.
  unfold TrimSuffix.
  replace (HasSuffix (t +:+ suffix) suffix) with true
    by (symmetry; apply HasSuffix_spec; eauto).
  unfold slice_to. rewrite length_append.
  replace (String.length t + String.length suffix - String.length suffix)%nat
    with (String.length t) by lia.
  apply substring_append_l.
Qed.

End StringFacts.

Section ConfigFacts.
Import Config.

Lemma matchContentType_spec (pattern contentType : string) :
  matchContentType pattern contentType = true <->
  matches_pattern pattern contentType.
Proof.
  unfold matchContentType, matches_pattern.
  destruct (String.eqb_spec pattern contentType) as [->|Hne].
  { split; auto. }
  destruct (GoStrings.HasSuffix pattern "/*") eqn:Hs.
  - apply HasSuffix_spec in Hs. destruct Hs as [t ->].
    rewrite TrimSuffix_append. unfold GoStrings.HasPrefix.
    rewrite prefix_spec. split.
    + intros [r ->]. right. exists t, r. split; [reflexivity|].
      apply append_assoc.
    + intros [Heq | (t' & r & Ht & ->)]; [contradiction|].
      apply append_inj_r in Ht. subst t'.
      exists r. symmetry. apply append_assoc.
  - split; [discriminate|].
    intros [Heq | (t & r & -> & _)]; [contradiction|].
    assert (GoStrings.HasSuffix (t +:+ "/*") "/*" = true)
      by (apply HasSuffix_spec; eauto).
    congruence.
Qed.

Lemma anyAllowed_spec (allowedTypes : list string) (contentType : string) :
  anyAllowed allowedTypes contentType = true <->
  exists p, List.In p allowedTypes /\ matches_pattern p contentType.
Proof.
  induction allowedTypes as [|p l IH]; simpl.
  - split; [discriminate | intros (p & [] & _)].
  - destruct (matchContentType p contentType) eqn:Hm.
    + split; auto. intros _. exists p. split; auto.
      now apply matchContentType_spec.
    + rewrite IH. split.
      * intros (q & Hq & Hmq). exists q. auto.
      * intros (q & [<-|Hq] & Hmq); [|exists q; auto].
        apply matchContentType_spec in Hmq. congruence.
Qed.

(** C7.  A content type is allowed iff a pattern of [AllowedTypes] matches
    it, as the same string or as [type/*] against a content type that
    starts with [type/]; with [AllowedTypes = ["image/*"]], [image/png] is
    allowed and [application/pdf] is not. *)
Theorem IsAllowedType_spec (c : RustFSConfig) (contentType : string) :
  (IsAllowedType c contentType = true <->
   exists p, List.In p (AllowedTypes c) /\
             matches_pattern p contentType) /\
  (AllowedTypes c = ["image/*"] ->
   IsAllowedType c "image/png" = true /\
   IsAllowedType c "application/pdf" = false).
Proof.
  split.
  - apply anyAllowed_spec.
  - unfold IsAllowedType. intros ->. split; reflexivity.
Qed.

Lemma IsAllowedType_spec_witness :
  IsAllowedType exampleConfig "image/png" = true /\
  IsAllowedType exampleConfig "application/pdf" = false /\
  (IsAllowedType exampleConfig "image/png" = true <->
   exists p, List.In p ["image/*"] /\ matches_pattern p "image/png").
Proof.
  destruct (IsAllowedType_spec exampleConfig "image/png") as [Hiff Hex].
  destruct (Hex eq_refl) as [Hpng Hpdf].
  split; [exact Hpng | split; [exact Hpdf | exact Hiff]].
Defined.

End ConfigFacts.

(** ** The auditable decorator *)

Section ClientFacts.
Import Client.

Lemma LogStorageError_event (l : Audit.RustFSAuditLogger)
    (userID operation : string) (md : Audit.StorageErrorMetadata.t)
    (context : gmap string Value) :
  Audit.StorageErrorMetadata.Context md = Some context ->
  context !! "error_code" = None ->
  exists ev,
    Audit.LogStorageError l userID operation md = Audit.logEvent l ev /\
    AuditEvent.EventType ev = "storage_error" /\
    AuditEvent.UserID ev = userID /\
    AuditEvent.Success ev = false /\
    AuditEvent.Reason ev = Audit.StorageErrorMetadata.ErrorMessage md /\
    AuditEvent.Metadata ev !! "error_code"
      = Some (VString (Audit.StorageErrorMetadata.ErrorCode md)).
Proof.
  intros Hctx Hnone. unfold Audit.LogStorageError.
  eexists. split; [reflexivity|]. simpl. repeat split.
  rewrite Hctx. unfold Audit.setConfig, Audit.setAll.
  destruct (Audit.config l).
  - rewrite lookup_insert_ne by done. rewrite lookup_union_r by done.
    by simplify_map_eq.
  - rewrite lookup_union_r by done. by simplify_map_eq.
Qed.

(** The size check of [validateUploadRequest]. *)
Lemma validateUploadRequest_too_large (c : AuditableRustFSClient)
    (req : UploadRequest.t) :
  Config.MaxFileSize (config c) < UploadRequest.FileSize req ->
  validateUploadRequest c req
  = Some (errorString
            ("file size " +:+ Z_to_string (UploadRequest.FileSize req) +:+
             " exceeds maximum allowed size " +:+
             Z_to_string (Config.MaxFileSize (config c)))).
Proof.
  intros H. unfold validateUploadRequest.
  destruct (Z.ltb_spec (Config.MaxFileSize (config c))
              (UploadRequest.FileSize req)); [reflexivity | lia].
Qed.

(** C6, as the code has it.  For an upload whose declared size exceeds
    [MaxFileSize], made through a client that has an audit logger:
    [UploadFile] of the backend is not called (the world of the backend and
    its call counter are unchanged); the logger is handed one event, of
    type [storage_error], not successful, whose [error_code] is
    ["UPLOAD_ERROR"], and the sink receives it when the logger has a sink;
    the caller gets the error classified [VALIDATION_ERROR], with the size
    error as its cause. *)
Theorem oversize_upload_short_circuit {B : Type} (E : Env B)
    (c : AuditableRustFSClient) (l : Audit.RustFSAuditLogger) (ctx : Ctx)
    (req : UploadRequest.t) (userID : string) (w : World (B * nat)) :
  auditLogger c = Some l ->
  Config.MaxFileSize (config c) < UploadRequest.FileSize req ->
  exists err ev,
    UploadFileWithAudit (countingUploads E) c ctx req userID w
      = Some ((None, Some err),
              {| backend := backend w;
                 sink := if Audit.auditLogger l then sink w ++ [ev]
                         else sink w |}) /\
    classified err "VALIDATION_ERROR" /\
    validateUploadRequest c req
      = Some (errorString
                ("file size " +:+ Z_to_string (UploadRequest.FileSize req) +:+
                 " exceeds maximum allowed size " +:+
                 Z_to_string (Config.MaxFileSize (config c)))) /\
    AuditEvent.EventType ev = "storage_error" /\
    AuditEvent.UserID ev = userID /\
    AuditEvent.Success ev = false /\
    AuditEvent.Metadata ev !! "error_code" = Some (VString "UPLOAD_ERROR").
Proof.
  intros Hl Hsize.
  pose proof (validateUploadRequest_too_large c req Hsize) as Hv.
  unfold UploadFileWithAudit, bind, now. rewrite Hv.
  unfold logUploadError, bind, now, audit, ret. rewrite Hl.
  match goal with
  | |- context [Audit.LogStorageError l userID "upload" ?md] =>
      edestruct (LogStorageError_event l userID "upload" md)
        as (ev & Hev & Htype & Huser & Hsucc & _ & Hcode);
        [reflexivity | by simplify_map_eq |]
  end.
  eexists. exists ev. split.
  - rewrite Hev. unfold Audit.logEvent. reflexivity.
  - split; [eexists; reflexivity|]. auto.
Qed.

Lemma oversize_upload_short_circuit_witness :
  exists err ev,
    UploadFileWithAudit (countingUploads mockEnv) exampleClient ∅
      (snapshotRequest 104857601) "user-1" startWorld
      = Some ((None, Some err),
              {| backend := backend startWorld; sink := [ev] |}) /\
    classified err "VALIDATION_ERROR" /\
    AuditEvent.Metadata ev !! "error_code" = Some (VString "UPLOAD_ERROR").
Proof.
  destruct (oversize_upload_short_circuit mockEnv exampleClient exampleLogger
              ∅ (snapshotRequest 104857601) "user-1" startWorld)
    as (err & ev & Hrun & Hclass & _ & _ & _ & _ & Hcode);
    [reflexivity | simpl; lia |].
  exists err, ev. split; [exact Hrun | split; [exact Hclass | exact Hcode]].
Defined.

(** C6 as stated fails: the event of an oversize upload carries the error
    code of the upload operation, not a validation error code. *)
Lemma oversize_upload_counterexample :
  ~ oversize_upload_claim mockEnv exampleClient ∅
      (snapshotRequest 104857601) "user-1" startWorld.
Proof.
  intros H. destruct H as (err & ev & w' & Hrun & _ & Hsink & _ & Hcode & _).
  { simpl. lia. }
  vm_compute in Hrun. injection Hrun as _ <-.
  simpl in Hsink. injection Hsink as <-.
  vm_compute in Hcode. discriminate.
Qed.

(** An upload that the backend fails carries the same [error_code] in its
    event, so the code does not tell the two failures apart. *)
Example backend_failure_error_code :
  match UploadFileWithAudit mockEnv exampleClient ∅ (snapshotRequest 1024)
          "user-1"
          {| backend := SetFailureMode true
                          (Some (errorString "connection refused"))
                          (NewMockRustFSClient 1704067200000000000);
             sink := [] |} with
  | Some ((None, Some err), w') =>
      classified err "UPLOAD_FAILED" /\
      map (fun ev => (AuditEvent.Success ev,
                      AuditEvent.Metadata ev !! "error_code")) (sink w')
      = [(false, Some (VString "UPLOAD_ERROR"))]
  | _ => False
  end.
Proof. vm_compute. split; [eexists; reflexivity | reflexivity]. Qed.

(** The upload of the specification, end to end: 1024 bytes named
    [snapshot.png] of type [image/png] to [snapshots/2024/01/01], against a
    backend that succeeds, returns that path and size and emits one
    success event on that resource. *)
Example upload_end_to_end :
  match UploadFileWithAudit mockEnv exampleClient ∅ (snapshotRequest 1024)
          "user-1" mockWorld with
  | Some ((Some result, None), w') =>
      UploadResponse.Path result = "snapshots/2024/01/01" /\
      UploadResponse.Size result = 1024 /\
      map (fun ev => (AuditEvent.EventType ev, AuditEvent.Success ev,
                      AuditEvent.ResourceID ev)) (sink w')
      = [("file_uploaded", true, "snapshots/2024/01/01")]
  | _ => False
  end.
Proof. vm_compute. repeat split. Qed.

(** C10, as the code has it.  The size check rejects a request iff its
    [FileSize] is strictly greater than [MaxFileSize].  So a request whose
    size equals [MaxFileSize] is not rejected for its size, under any
    configuration; one whose size is zero or negative is not rejected for
    its size under a [MaxFileSize] that is not negative, and is rejected
    when it is greater than a negative [MaxFileSize]; and a request that
    is not too large passes [validateUploadRequest] when its content type
    and file name do. *)
Theorem validateUploadRequest_size_strict (c : AuditableRustFSClient)
    (req : UploadRequest.t) :
  let size := UploadRequest.FileSize req in
  let max := Config.MaxFileSize (config c) in
  let tooLarge :=
    errorString ("file size " +:+ Z_to_string size +:+
                 " exceeds maximum allowed size " +:+ Z_to_string max) in
  (validateUploadRequest c req = Some tooLarge <-> max < size) /\
  (size = max -> validateUploadRequest c req <> Some tooLarge) /\
  (size <= 0 -> 0 <= max -> validateUploadRequest c req <> Some tooLarge) /\
  (max < size -> size <= 0 -> validateUploadRequest c req = Some tooLarge) /\
  (size <= max ->
   Config.IsAllowedType (config c) (UploadRequest.ContentType req) = true ->
   FileUtils.IsValidFilename (UploadRequest.Filename req) = true ->
   validateUploadRequest c req = None).
Proof.
  intros size max tooLarge.
  assert (Hiff : validateUploadRequest c req = Some tooLarge <-> max < size).
  { split; [|apply validateUploadRequest_too_large].
    unfold validateUploadRequest. fold size max.
    destruct (Z.ltb_spec max size) as [Hlt|Hge]; [auto|].
    intros H. exfalso. unfold tooLarge in H.
    destruct (negb (Config.IsAllowedType _ _)).
    { injection H as H. discriminate H. }
    destruct (negb (FileUtils.IsValidFilename _)); [|discriminate].
    injection H as H. discriminate H. }
  split; [exact Hiff|].
  split; [intros Heq H; apply Hiff in H; lia|].
  split; [intros H0 Hmax H; apply Hiff in H; lia|].
  split; [intros Hlt _; apply Hiff; exact Hlt|].
  intros Hle Htype Hname. unfold validateUploadRequest. fold size max.
  destruct (Z.ltb_spec max size); [lia|].
  rewrite Htype, Hname. reflexivity.
Qed.

(** C10 as stated fails: under a [MaxFileSize] of [-1] a request of size
    zero is rejected for its size. *)
Lemma size_check_counterexample :
  ~ size_check_claim negativeMaxClient (snapshotRequest 0).
Proof.
  intros H. apply H; [right; simpl; lia|]. reflexivity.
Qed.

(** *** Who the events name *)

Lemma emits_ret {B A} (userID : string) (a : A) :
  emits_by userID (ret (B := B) a).
Proof.
  intros w a' w' H. injection H as <- <-. exists [].
  split; [symmetry; apply app_nil_r | constructor].
Qed.

Lemma emits_panic {B A} (userID : string) :
  emits_by userID (panic (B := B) (A := A)).
Proof. intros w a w' H. discriminate. Qed.

Lemma emits_bind {B A A'} (userID : string) (m : M B A) (k : A -> M B A') :
  emits_by userID m -> (forall a, emits_by userID (k a)) ->
  emits_by userID (bind m k).
Proof.
  intros Hm Hk w a' w' H. unfold bind in H.
  destruct (m w) as [[a w1]|] eqn:Hmw; [|discriminate].
  destruct (Hm _ _ _ Hmw) as (evs1 & Hs1 & Hf1).
  destruct (Hk a _ _ _ H) as (evs2 & Hs2 & Hf2).
  exists (evs1 ++ evs2). split.
  - rewrite Hs2, Hs1. symmetry. apply app_assoc.
  - apply Forall_app. auto.
Qed.

Lemma emits_call {B A} (userID : string) (op : B -> A * B) :
  emits_by userID (call op).
Proof.
  intros w a w' H. unfold call in H. destruct (op (backend w)).
  injection H as <- <-. exists []. simpl.
  split; [symmetry; apply app_nil_r | constructor].
Qed.

Lemma emits_now {B} (E : Env B) (userID : string) : emits_by userID (now E).
Proof.
  intros w a w' H. injection H as <- <-. exists [].
  split; [symmetry; apply app_nil_r | constructor].
Qed.

Lemma emits_audit {B} (c : AuditableRustFSClient) (userID : string)
    (method : Audit.RustFSAuditLogger -> Audit.Sink -> Audit.Sink) :
  (forall l, exists ev, method l = Audit.logEvent l ev /\
                        AuditEvent.UserID ev = userID) ->
  emits_by userID (audit (B := B) c method).
Proof.
  intros Hm w a w' H. unfold audit in H.
  destruct (auditLogger c) as [l|]; [|discriminate].
  injection H as <- <-. simpl.
  destruct (Hm l) as (ev & -> & Hu). unfold Audit.logEvent.
  destruct (Audit.auditLogger l).
  - exists [ev]. split; [reflexivity | repeat constructor; exact Hu].
  - exists []. split; [symmetry; apply app_nil_r | constructor].
Qed.

Lemma emits_if {B A} (userID : string) (b : bool) (m1 m2 : M B A) :
  emits_by userID m1 -> emits_by userID m2 ->
  emits_by userID (if b then m1 else m2).
Proof. destruct b; auto. Qed.

Ltac emits :=
  repeat first
    [ apply emits_ret | apply emits_panic | apply emits_call
    | apply emits_now | apply emits_if
    | apply emits_bind; [|intros ?]
    | apply emits_audit; intros ?; eexists; split; reflexivity
    | match goal with
      | |- emits_by _ (match ?x with _ => _ end) => destruct x
      end ].

Lemma emits_logUploadError {B} (E : Env B) (c : AuditableRustFSClient)
    (ctx : Ctx) (userID : string) (md : Audit.FileOperationMetadata.t)
    (err : error) (startTime : Z) :
  emits_by userID (logUploadError E c ctx userID md err startTime).
Proof. unfold logUploadError. emits. Qed.

Lemma emits_logUploadSuccess {B} (E : Env B) (c : AuditableRustFSClient)
    (ctx : Ctx) (userID : string) (md : Audit.FileOperationMetadata.t)
    (result : option UploadResponse.t) (duration : Z) :
  emits_by userID (logUploadSuccess E c ctx userID md result duration).
Proof.
  unfold logUploadSuccess. emits.
Qed.

Lemma emits_slowEvent {B} (E : Env B) (c : AuditableRustFSClient)
    (userID operation : string) (duration fileSize : Z) (throughput : Q)
    (threshold : Z) :
  emits_by userID
    (slowEvent E c userID operation duration fileSize throughput threshold).
Proof. unfold slowEvent. emits. Qed.

Lemma emits_UploadFileWithAudit {B} (E : Env B) (c : AuditableRustFSClient)
    (ctx : Ctx) (req : UploadRequest.t) (userID : string) :
  emits_by userID (UploadFileWithAudit E c ctx req userID).
Proof.
  unfold UploadFileWithAudit. emits.
Qed.

Lemma emits_DeleteFileWithAudit {B} (E : Env B) (c : AuditableRustFSClient)
    (ctx : Ctx) (path userID : string) :
  emits_by userID (DeleteFileWithAudit E c ctx path userID).
Proof.
  unfold DeleteFileWithAudit. emits.
Qed.

Lemma emits_GetFileInfoWithAudit {B} (E : Env B) (c : AuditableRustFSClient)
    (ctx : Ctx) (path : string) :
  emits_by (extractUserID ctx) (GetFileInfoWithAudit E c ctx path).
Proof.
  unfold GetFileInfoWithAudit. emits.
Qed.

(** C8, as the code has it.  [extractUserID] returns the context value
    ["user_id"] when it is a string and ["system"] when it is absent or not
    a string.  [UploadFileWithAudit] and [DeleteFileWithAudit] give every
    event they emit the [userID] they are called with, as it is;
    [GetFileInfo] and [DeleteSnapshot] give it [extractUserID ctx], and
    [Close] gives it ["system"]. *)
Theorem audit_events_actor {B : Type} (E : Env B)
    (c : AuditableRustFSClient) (ctx : Ctx) (req : UploadRequest.t)
    (path userID : string) :
  (forall id, ctx !! "user_id" = Some (VString id) ->
              extractUserID ctx = id) /\
  ((forall id, ctx !! "user_id" <> Some (VString id)) ->
   extractUserID ctx = "system") /\
  emits_by userID (UploadFileWithAudit E c ctx req userID) /\
  emits_by userID (DeleteFileWithAudit E c ctx path userID) /\
  emits_by (extractUserID ctx) (GetFileInfoWithAudit E c ctx path) /\
  emits_by (extractUserID ctx) (DeleteSnapshot E c ctx path) /\
  emits_by "system" (Close E c).
Proof.
  split; [|split].
  - intros id H. unfold extractUserID. rewrite H. reflexivity.
  - intros H. unfold extractUserID.
    destruct (ctx !! "user_id") as [[id| | |]|] eqn:Hv; try reflexivity.
    destruct (H id). reflexivity.
  - split; [apply emits_UploadFileWithAudit|].
    split; [apply emits_DeleteFileWithAudit|].
    split; [apply emits_GetFileInfoWithAudit|].
    split; [apply emits_DeleteFileWithAudit|].
    unfold Close. emits.
Qed.

(** C8 as stated fails: an upload made with the empty [userID] emits an
    event whose actor is empty. *)
Lemma actor_never_empty_counterexample :
  ~ actor_never_empty_claim mockEnv exampleClient ∅ (snapshotRequest 1024) ""
      mockWorld.
Proof.
  intros H.
  destruct (UploadFileWithAudit mockEnv exampleClient ∅ (snapshotRequest 1024)
              "" mockWorld) as [[r w']|] eqn:Hrun; [|vm_compute in Hrun; discriminate].
  specialize (H r w' (sink w') Hrun eq_refl).
  vm_compute in Hrun. injection Hrun as _ <-.
  simpl in H. inversion H as [|ev evs Hne _]. apply Hne. reflexivity.
Qed.

(** C9, as the code has it.  With a backend that has [CheckHealth], the
    verdict of [HealthCheck] is that of [CheckHealth].  Otherwise
    [HealthCheck] looks up the information of ["health-check-" + date] and
    returns [nil] (healthy) whatever the lookup returns: a result, the
    not-found error, or any other error. *)
Theorem HealthCheck_verdict {B : Type} (E : Env B) (ctx : Ctx)
    (w : World B) :
  match CheckHealth E with
  | Some checkHealth => HealthCheck E ctx w = call (checkHealth ctx) w
  | None =>
      let path := "health-check-" +:+
                  time_Format E "20060102" (time_Now E (backend w)) in
      HealthCheck E ctx w
      = Some (None,
              {| backend := snd (GetFileInfo E ctx path (backend w));
                 sink := sink w |})
  end.
Proof.
  unfold HealthCheck. destruct (CheckHealth E); [reflexivity|].
  unfold bind, now, call. simpl.
  destruct (GetFileInfo E ctx _ (backend w)) as [[result [err|]] b];
    reflexivity.
Qed.

(** C9 as stated fails: with a backend that has no [CheckHealth] and
    cannot be reached, the lookup fails with a network error and the
    verdict is healthy all the same. *)
Lemma health_check_counterexample :
  ~ health_check_claim plainEnv ∅ unreachableWorld.
Proof.
  unfold health_check_claim. simpl.
  intros (verdict & w' & Hrun & Hiff).
  vm_compute in Hrun. injection Hrun as <- _.
  destruct Hiff as [_ Hback].
  apply Hback; [|reflexivity].
  eexists. split; reflexivity.
Qed.

End ClientFacts.

(** * Further properties of the code *)

(** ** The retry executor: attempts, waits and delays *)

Section RetryMore.
Import Retry.

(** X1.  With [MaxAttempts <= 0] the loop body never runs: the operation
    is not invoked (the world is returned as it was), and the result is a
    failure that reports [MaxAttempts] itself as [Attempts], zero or
    negative, with no [LastError], also under a context that is already
    cancelled. *)
Theorem retry_no_attempts {W : Type} (E : Env W) (config : RetryConfig)
    (w : W) :
  MaxAttempts config <= 0 ->
  let out := RetryWithBackoffWithContext E (Some config) w in
  snd out = w /\
  Success (fst out) = false /\
  Attempts (fst out) = MaxAttempts config /\
  LastError (fst out) = None /\
  TotalDelay (fst out) = 0.
Proof.
  intros Hn. unfold RetryWithBackoffWithContext.
  rewrite run_exhausted by (simpl; lia). simpl. auto.
Qed.

Lemma retry_no_attempts_witness :
  let out := RetryWithBackoffWithContext (clockEnv None 5 None Canceled)
               (Some (WithMaxAttempts 0 NewRetryConfigBuilder)) 100 in
  snd out = 100 /\
  Success (fst out) = false /\
  Attempts (fst out) = 0 /\
  LastError (fst out) = None /\
  TotalDelay (fst out) = 0.
Proof.
  apply (retry_no_attempts (clockEnv None 5 None Canceled)
           (WithMaxAttempts 0 NewRetryConfigBuilder) 100).
  simpl. lia.
Defined.

Section Tallying.
Context {W : Type}.
Variable E : Env W.
Variable config : RetryConfig.
Variable startTime : Z.

Local Abbreviation run := (run (tallying E) config startTime).

(** What holds of the counters from any start of an attempt on. *)
Lemma tally_run (fuel : nat) (s : LoopState (W * Tally)) :
  fuel = Z.to_nat (MaxAttempts config - attempt s) ->
  0 <= attempt s <= MaxAttempts config ->
  Z.of_nat (invoked (snd (world s))) = attempt s ->
  Z.of_nat (waited (snd (world s)))
    = Z.min (attempt s) (Z.max 0 (MaxAttempts config - 1)) ->
  let out := run s in
  let t := snd (snd out) in
  Z.of_nat (invoked t) = Attempts (fst out) /\
  (waited t <= invoked t <= S (waited t))%nat /\
  Z.of_nat (waited t) <= Z.max 0 (MaxAttempts config - 1) /\
  (Success (fst out) = true -> invoked t = S (waited t)) /\
  Attempts (fst out) <= MaxAttempts config.
Proof.
  revert s. induction fuel as [|fuel IH]; intros s Hf Ha Hi Hw.
  - rewrite run_exhausted by lia. simpl.
    repeat split; try lia; try discriminate.
  - assert (Hlt : attempt s < MaxAttempts config) by lia.
    rewrite run_unfold by exact Hlt.
    destruct s as [a le td [w t]]. simpl in *.
    unfold iteration. simpl.
    destruct (ctx_Err E w) as [e|] eqn:Hc.
    { simpl. repeat split; try lia; try discriminate. }
    destruct (fn E w) as [[e|] w1] eqn:Hfn.
    2:{ simpl. repeat split; try lia. }
    destruct (Z.ltb_spec a (MaxAttempts config - 1)) as [Hlast|Hlast].
    + destruct (select E _ w1) as [[] w2] eqn:Hsel.
      * apply IH; simpl; lia.
      * simpl. repeat split; try lia; try discriminate.
    + apply IH; simpl; lia.
Qed.

End Tallying.

(** X2.  For every operation, context and clock, and every
    [MaxAttempts >= 0]: the [Attempts] of the result is the number of
    times the operation has been invoked, and it never exceeds
    [MaxAttempts]. *)
Theorem retry_attempts_are_invocations {W : Type} (E : Env W)
    (config : RetryConfig) (w : W) :
  0 <= MaxAttempts config ->
  let out := RetryWithBackoffWithContext (tallying E) (Some config)
               (w, noTally) in
  Z.of_nat (invoked (snd (snd out))) = Attempts (fst out) /\
  Attempts (fst out) <= MaxAttempts config.
Proof.
  intros Hn. unfold RetryWithBackoffWithContext.
  set (start := time_Now (tallying E) (w, noTally)).
  destruct (tally_run E config start _ (initial (w, noTally)) eq_refl)
    as (H1 & H2 & H3 & H4 & H5); [simpl; lia | simpl; lia | simpl; lia |].
  split; assumption.
Qed.

Lemma retry_attempts_are_invocations_witness :
  let out := RetryWithBackoffWithContext
               (tallying (clockEnv (Some (errorString "connection reset"))
                            5 (Some 1000000100) Canceled))
               (Some FastRetryConfig) (0, noTally) in
  Z.of_nat (invoked (snd (snd out))) = Attempts (fst out) /\
  Attempts (fst out) <= MaxAttempts FastRetryConfig.
Proof.
  apply (retry_attempts_are_invocations
           (clockEnv (Some (errorString "connection reset")) 5
              (Some 1000000100) Canceled) FastRetryConfig 0).
  simpl. lia.
Defined.

(** X3.  The executor waits only between invocations: the number of
    waits is the number of invocations or one less, it is at most
    [MaxAttempts - 1], and a successful run has waited exactly once before
    each invocation but the first; there is no wait after the last
    attempt. *)
Theorem retry_waits_between_attempts {W : Type} (E : Env W)
    (config : RetryConfig) (w : W) :
  let out := RetryWithBackoffWithContext (tallying E) (Some config)
               (w, noTally) in
  let t := snd (snd out) in
  (waited t <= invoked t <= S (waited t))%nat /\
  Z.of_nat (waited t) <= Z.max 0 (MaxAttempts config - 1) /\
  (Success (fst out) = true -> invoked t = S (waited t)).
Proof.
  unfold RetryWithBackoffWithContext.
  set (start := time_Now (tallying E) (w, noTally)).
  destruct (Z.le_gt_cases 0 (MaxAttempts config)) as [Hn|Hn].
  - destruct (tally_run E config start _ (initial (w, noTally)) eq_refl)
      as (H1 & H2 & H3 & H4 & H5); [simpl; lia | simpl; lia | simpl; lia |].
    auto.
  - rewrite run_exhausted by (simpl; lia). simpl.
    repeat split; try lia; try discriminate.
Qed.

(** [math.Pow(1, x)] is [1]. *)
Lemma Qpower_1_eq (z : Z) : (1 ^ z)%Q = 1%Q.
Proof.
  assert (Hp : forall p, Qpower_positive 1 p = 1%Q).
  { intros p. unfold Qpower_positive.
    induction p as [p IH|p IH|]; simpl; try rewrite IH; reflexivity. }
  destruct z as [|p|p]; simpl; try rewrite Hp; reflexivity.
Qed.

(** Rounding respects the equality of rationals. *)
Lemma rounding_proper (f : Q -> Q) (x y : Q) :
  rounding f -> (x == y)%Q -> (f x == f y)%Q.
Proof.
  intros (Hmono & _ & _) Heq. apply Qle_antisym; apply Hmono; lra.
Qed.

(** Halving keeps a value that rounding keeps. *)
Lemma rounding_half (f : Q -> Q) (x : Q) :
  rounding f -> ((1 # 1024) <= x)%Q -> (x <= inject_Z (2 ^ 60))%Q ->
  (f (2 * x) == 2 * x)%Q -> (f x == x)%Q.
Proof.
  intros (_ & _ & Hdouble) Hlo Hhi Hkeep.
  specialize (Hdouble x Hlo Hhi). lra.
Qed.

Lemma Qltb_proper (x x' y y' : Q) :
  (x == x')%Q -> (y == y')%Q -> Qltb x y = Qltb x' y'.
Proof.
  intros Hx Hy.
  destruct (Qltb_spec x y), (Qltb_spec x' y'); try reflexivity; lra.
Qed.

(** Without rounding, [calculateDelay_fl] is [calculateDelay]. *)
Lemma exactArithmetic_IEEE_like : IEEE_like exactArithmetic.
Proof.
  assert (Hid : rounding (fun x => x)).
  { repeat split; intros; simpl; try assumption; reflexivity. }
  repeat split; try apply Hid.
  intros attempt. simpl. rewrite Qpower_1_eq. reflexivity.
Qed.

Lemma calculateDelay_fl_exact (overflow : Q -> Z) (attempt baseDelay : Z)
    (backoff : Q) (unixNano : Z) :
  calculateDelay_fl exactArithmetic overflow attempt baseDelay backoff
    unixNano
  = calculateDelay overflow attempt baseDelay backoff unixNano.
Proof. reflexivity. Qed.

Section Fixed.
Variable F : Float64.
Hypothesis HF : IEEE_like F.
Variable overflow : Q -> Z.
Variables delay unixNano : Z.
Hypothesis Hdelay : 0 < delay <= 2 ^ 50.

Local Abbreviation B := (inject_Z delay).
Local Abbreviation k := (Z.rem unixNano 1000).
Local Abbreviation r := (randomFloat64_fl F unixNano).
Local Abbreviation t := (fl F (fl F (2 * r) - 1))%Q.
Local Abbreviation J := (fl_fused F (B * (1 # 4) * t))%Q.
Local Abbreviation D1 := (fl F (B + J))%Q.

Lemma B_range : (1 <= B)%Q /\ (B <= 1125899906842624)%Q.
Proof.
  split.
  - change 1%Q with (inject_Z 1). rewrite <- Zle_Qle. lia.
  - change 1125899906842624%Q with (inject_Z (2 ^ 50)).
    rewrite <- Zle_Qle. lia.
Qed.

Lemma Q60 : (inject_Z (2 ^ 60) == 1152921504606846976)%Q.
Proof. reflexivity. Qed.

Lemma fl_int (z : Z) :
  Z.abs z <= 2 ^ 53 -> (fl F (inject_Z z) == inject_Z z)%Q.
Proof. destruct HF as ((_ & H & _) & _). apply H. Qed.

Lemma fl_mono (x y : Q) : (x <= y)%Q -> (fl F x <= fl F y)%Q.
Proof. destruct HF as ((H & _) & _). apply H. Qed.

Lemma fused_mono (x y : Q) : (x <= y)%Q -> (fl_fused F x <= fl_fused F y)%Q.
Proof. destruct HF as (_ & (H & _) & _). apply H. Qed.

(** The values that rounding keeps. *)
Lemma kept (f : Q -> Q) :
  rounding f ->
  (f 0 == 0)%Q /\ (f 1 == 1)%Q /\ (f 2 == 2)%Q /\
  (f (1 # 2) == 1 # 2)%Q /\ (f (3 # 2) == 3 # 2)%Q /\
  (f (3 # 4) == 3 # 4)%Q /\
  (f B == B)%Q /\ (f (B * (1 # 4)) == B * (1 # 4))%Q /\
  (f (B * (1 # 8)) == B * (1 # 8))%Q /\
  (f (B * (5 # 4)) == B * (5 # 4))%Q /\
  (f (B + 1) == B + 1)%Q.
Proof.
  intros Hf. pose proof Hf as (_ & Hint & _).
  pose proof B_range as [HB1 HB2]. pose proof Q60 as H60.
  assert (H0 : (f 0 == 0)%Q) by (apply (Hint 0); lia).
  assert (H1 : (f 1 == 1)%Q) by (apply (Hint 1); lia).
  assert (H2 : (f 2 == 2)%Q) by (apply (Hint 2); lia).
  assert (H3 : (f 3 == 3)%Q) by (apply (Hint 3); lia).
  assert (HB : (f B == B)%Q) by (apply Hint; lia).
  assert (H5B : (f (5 * B) == 5 * B)%Q).
  { rewrite <- (rounding_proper f (inject_Z (5 * delay)) (5 * B)%Q Hf)
      by (rewrite inject_Z_mult; reflexivity).
    rewrite Hint by lia. rewrite inject_Z_mult. reflexivity. }
  assert (HB1' : (f (B + 1) == B + 1)%Q).
  { rewrite <- (rounding_proper f (inject_Z (delay + 1)) (B + 1)%Q Hf)
      by (rewrite inject_Z_plus; reflexivity).
    rewrite Hint by lia. rewrite inject_Z_plus. reflexivity. }
  assert (Hhalf : forall x y : Q,
            (y == 2 * x)%Q -> ((1 # 1024) <= x)%Q ->
            (x <= 1152921504606846976)%Q -> (f y == y)%Q -> (f x == x)%Q).
  { intros x y Hy Hlo Hhi Hk. apply (rounding_half f x Hf Hlo); [lra|].
    rewrite <- (rounding_proper f y (2 * x)%Q Hf Hy). lra. }
  assert (H12 : (f (1 # 2) == 1 # 2)%Q)
    by (apply (Hhalf (1 # 2)%Q 1%Q); try lra; exact H1).
  assert (H32 : (f (3 # 2) == 3 # 2)%Q)
    by (apply (Hhalf (3 # 2)%Q 3%Q); try lra; exact H3).
  assert (H34 : (f (3 # 4) == 3 # 4)%Q)
    by (apply (Hhalf (3 # 4)%Q (3 # 2)%Q); try lra; exact H32).
  assert (HB2' : (f (B * (1 # 2)) == B * (1 # 2))%Q)
    by (apply (Hhalf _ B); try lra; exact HB).
  assert (HB4 : (f (B * (1 # 4)) == B * (1 # 4))%Q)
    by (apply (Hhalf _ (B * (1 # 2))%Q); try lra; exact HB2').
  assert (HB8 : (f (B * (1 # 8)) == B * (1 # 8))%Q)
    by (apply (Hhalf _ (B * (1 # 4))%Q); try lra; exact HB4).
  assert (H5B2 : (f (B * (5 # 2)) == B * (5 # 2))%Q).
  { apply (Hhalf _ (5 * B)%Q); try lra; exact H5B. }
  assert (H5B4 : (f (B * (5 # 4)) == B * (5 # 4))%Q).
  { apply (Hhalf _ (B * (5 # 2))%Q); try lra; exact H5B2. }
  repeat split; assumption.
Qed.

Lemma r_bounds :
  (r <= 1)%Q /\ (k <= 500 -> (r <= 1 # 2)%Q) /\ (750 <= k -> ((3 # 4) <= r)%Q).
Proof.
  pose proof HF as (Hfl & _).
  destruct (kept _ Hfl) as (_ & H1 & _ & H12 & _ & H34 & _).
  assert (Hk : Z.abs k < 1000) by (apply Z.rem_bound_abs; lia).
  assert (Hfk : (fl F (inject_Z k) == inject_Z k)%Q) by (apply fl_int; lia).
  assert (Hup : (inject_Z k <= 1000)%Q)
    by (change 1000%Q with (inject_Z 1000); rewrite <- Zle_Qle; lia).
  unfold randomFloat64_fl. split; [|split].
  - apply Qle_trans with (fl F 1); [|lra].
    apply fl_mono. apply Qle_shift_div_r; lra.
  - intros H. apply Qle_trans with (fl F (1 # 2)); [|lra].
    apply fl_mono.
    assert ((inject_Z k <= 500)%Q)
      by (change 500%Q with (inject_Z 500); rewrite <- Zle_Qle; lia).
    apply Qle_shift_div_r; lra.
  - intros H. apply Qle_trans with (fl F (3 # 4)); [lra|].
    apply fl_mono.
    assert ((750 <= inject_Z k)%Q)
      by (change 750%Q with (inject_Z 750); rewrite <- Zle_Qle; lia).
    apply Qle_shift_div_l; lra.
Qed.

Lemma t_bounds :
  (t <= 1)%Q /\ (k <= 500 -> (t <= 0)%Q) /\ (750 <= k -> ((1 # 2) <= t)%Q).
Proof.
  pose proof HF as (Hfl & _).
  destruct (kept _ Hfl) as (H0 & H1 & H2 & H12 & H32 & _).
  destruct r_bounds as (Hr1 & Hr2 & Hr3).
  split; [|split].
  - apply Qle_trans with (fl F 1); [|lra]. apply fl_mono.
    assert ((fl F (2 * r) <= fl F 2)%Q) by (apply fl_mono; lra).
    lra.
  - intros H. specialize (Hr2 H).
    apply Qle_trans with (fl F 0); [|lra]. apply fl_mono.
    assert ((fl F (2 * r) <= fl F 1)%Q) by (apply fl_mono; lra).
    lra.
  - intros H. specialize (Hr3 H).
    apply Qle_trans with (fl F (1 # 2)); [lra|]. apply fl_mono.
    assert ((fl F (3 # 2) <= fl F (2 * r))%Q) by (apply fl_mono; lra).
    lra.
Qed.

Lemma J_bounds :
  (J <= B * (1 # 4))%Q /\ (k <= 500 -> (J <= 0)%Q) /\
  (750 <= k -> (B * (1 # 8) <= J)%Q).
Proof.
  pose proof HF as (_ & Hfused & _).
  destruct (kept _ Hfused) as (H0 & _ & _ & _ & _ & _ & _ & HB4 & HB8 & _).
  destruct t_bounds as (Ht1 & Ht2 & Ht3).
  pose proof B_range as [HB1 _].
  split; [|split].
  - apply Qle_trans with (fl_fused F (B * (1 # 4))); [|lra].
    apply fused_mono.
    assert (0 <= B * (1 # 4) * (1 - t))%Q
      by (apply Qmult_le_0_compat; lra).
    lra.
  - intros H. specialize (Ht2 H).
    apply Qle_trans with (fl_fused F 0); [|lra]. apply fused_mono.
    assert (0 <= B * (1 # 4) * (0 - t))%Q
      by (apply Qmult_le_0_compat; lra).
    lra.
  - intros H. specialize (Ht3 H).
    apply Qle_trans with (fl_fused F (B * (1 # 8))); [lra|].
    apply fused_mono.
    assert (0 <= B * (1 # 4) * (t - (1 # 2)))%Q
      by (apply Qmult_le_0_compat; lra).
    lra.
Qed.

Lemma D1_bounds :
  (D1 <= B * (5 # 4))%Q /\ (k <= 500 -> (D1 <= B)%Q) /\
  (750 <= k -> 8 <= delay -> (B + 1 <= D1)%Q).
Proof.
  pose proof HF as (Hfl & _).
  destruct (kept _ Hfl) as (_ & _ & _ & _ & _ & _ & HB & _ & _ & H54 & HB1).
  destruct J_bounds as (HJ1 & HJ2 & HJ3).
  split; [|split].
  - apply Qle_trans with (fl F (B * (5 # 4))); [|lra]. apply fl_mono. lra.
  - intros H. specialize (HJ2 H).
    apply Qle_trans with (fl F B); [|lra]. apply fl_mono. lra.
  - intros H H8. specialize (HJ3 H).
    apply Qle_trans with (fl F (B + 1)); [lra|]. apply fl_mono.
    assert ((8 <= B)%Q)
      by (change 8%Q with (inject_Z 8); rewrite <- Zle_Qle; lia).
    lra.
Qed.

(** The delay with [Backoff = 1], whatever the attempt. *)
Lemma fixed_delay_value (attempt : Z) :
  calculateDelay_fl F overflow attempt delay 1 unixNano
  = Qfloor (if Qltb D1 B then B else D1).
Proof.
  pose proof HF as (Hfl & Hfused & Hpow).
  destruct (kept _ Hfl) as (_ & _ & _ & _ & _ & _ & HB & HB4 & _).
  pose proof B_range as [HB1 HB2].
  destruct D1_bounds as (HD & _).
  unfold calculateDelay_fl.
  set (base := fl F B).
  set (delay0 := fl F (base * math_Pow F 1 attempt)%Q).
  assert (Hbase : (base == B)%Q) by exact HB.
  assert (Hdelay0 : (delay0 == B)%Q).
  { unfold delay0. apply Qeq_trans with (fl F B); [|exact HB].
    apply rounding_proper; [exact Hfl|]. rewrite Hbase, Hpow. lra. }
  set (q := fl F (delay0 * (1 # 4))%Q).
  assert (Hq : (q == B * (1 # 4))%Q).
  { unfold q. apply Qeq_trans with (fl F (B * (1 # 4))); [|exact HB4].
    apply rounding_proper; [exact Hfl|]. rewrite Hdelay0. reflexivity. }
  set (jitter := fl_fused F (q * t)%Q).
  assert (Hjitter : (jitter == J)%Q).
  { unfold jitter. apply rounding_proper; [exact Hfused|].
    rewrite Hq. reflexivity. }
  set (delay1 := fl F (delay0 + jitter)%Q).
  assert (Hdelay1 : (delay1 == D1)%Q).
  { unfold delay1. apply rounding_proper; [exact Hfl|].
    rewrite Hdelay0, Hjitter. reflexivity. }
  rewrite (Qltb_proper delay1 D1 base B Hdelay1 Hbase).
  assert (H63 : (inject_Z (2 ^ 63) == 9223372036854775808)%Q)
    by reflexivity.
  destruct (Qltb_spec D1 B) as [Hlt|Hge].
  - rewrite time_Duration_in_range by lra.
    apply Qfloor_comp. exact Hbase.
  - rewrite time_Duration_in_range by lra.
    apply Qfloor_comp. exact Hdelay1.
Qed.

End Fixed.

(** X5.  The delay of [RetryWithFixedDelayWithContext], which passes
    [Backoff = 1], in the arithmetic of [float64]: for [0 < delay <= 2^50]
    nanoseconds (thirteen days) it does not depend on the attempt and lies
    in [[delay, delay * 1.25]]; it is [delay] itself whenever
    [UnixNano() % 1000] is at most 500, and it is longer than [delay]
    whenever that remainder is at least 750 and [delay] is at least 8.
    The delay is thus not fixed, and the jitter never shortens it. *)
Theorem fixed_delay_jitter (F : Float64) (overflow : Q -> Z)
    (attempt attempt' delay unixNano : Z) :
  IEEE_like F ->
  0 < delay <= 2 ^ 50 ->
  let d := calculateDelay_fl F overflow attempt delay 1 unixNano in
  d = calculateDelay_fl F overflow attempt' delay 1 unixNano /\
  delay <= d /\
  (inject_Z d <= inject_Z delay * (5 # 4))%Q /\
  (Z.rem unixNano 1000 <= 500 -> d = delay) /\
  (8 <= delay -> 750 <= Z.rem unixNano 1000 -> delay < d).
Proof.
  intros HF Hdelay d. unfold d.
  rewrite !(fixed_delay_value F HF overflow delay unixNano Hdelay).
  destruct (D1_bounds F HF delay unixNano Hdelay) as (Hup & Hlow & Hhigh).
  set (D1 := fl F (inject_Z delay + _)%Q) in *.
  split; [reflexivity|].
  destruct (Qltb_spec D1 (inject_Z delay)) as [Hlt|Hge].
  - rewrite Qfloor_Z. repeat split; try lia.
    + assert (0 < inject_Z delay)%Q
        by (change 0%Q with (inject_Z 0); rewrite <- Zlt_Qlt; lia).
      lra.
    + intros H8 Hk. specialize (Hhigh Hk H8). lra.
  - repeat split.
    + rewrite <- (Qfloor_Z delay). apply Qfloor_resp_le. lra.
    + eapply Qle_trans; [apply Qfloor_le | exact Hup].
    + intros Hk. specialize (Hlow Hk).
      rewrite <- (Qfloor_Z delay). apply Qfloor_comp. lra.
    + intros H8 Hk. specialize (Hhigh Hk H8).
      assert (Hfloor : Qfloor (inject_Z (delay + 1)) <= Qfloor D1).
      { apply Qfloor_resp_le. rewrite inject_Z_plus. exact Hhigh. }
      rewrite Qfloor_Z in Hfloor. lia.
Qed.

Lemma fixed_delay_jitter_witness :
  let d := calculateDelay_fl exactArithmetic amd64 0 time_Second 1
             1700000000000000250 in
  d = calculateDelay_fl exactArithmetic amd64 7 time_Second 1
        1700000000000000250 /\
  time_Second <= d /\
  (inject_Z d <= inject_Z time_Second * (5 # 4))%Q /\
  (Z.rem 1700000000000000250 1000 <= 500 -> d = time_Second) /\
  (8 <= time_Second -> 750 <= Z.rem 1700000000000000250 1000 ->
   time_Second < d).
Proof.
  apply (fixed_delay_jitter exactArithmetic amd64 0 7 time_Second
           1700000000000000250).
  - apply exactArithmetic_IEEE_like.
  - unfold time_Second. lia.
Defined.

(** X6.  At one clock reading, with [1 <= backoff] and as long as the
    delay of the next attempt fits a [time.Duration], the delay does not
    decrease from an attempt to the next. *)
Theorem calculateDelay_monotone (overflow : Q -> Z)
    (attempt baseDelay : Z) (backoff : Q) (unixNano : Z) :
  0 <= attempt -> 0 < baseDelay -> (1 <= backoff)%Q ->
  (inject_Z baseDelay * backoff ^ (attempt + 1) * (5 # 4)
   < inject_Z (2 ^ 63))%Q ->
  calculateDelay overflow attempt baseDelay backoff unixNano
  <= calculateDelay overflow (attempt + 1) baseDelay backoff unixNano.
Proof.
  intros Hi Hb Hm Hfit.
  destruct (randomFloat64_range unixNano) as [[Hr1 Hr2] _].
  assert (Hpow : (1 <= backoff ^ attempt)%Q) by (apply Qpower_1_le; auto).
  assert (Hstep : (backoff ^ (attempt + 1) == backoff ^ attempt * backoff)%Q).
  { rewrite Qpower_plus by lra. change (backoff ^ 1)%Q with backoff.
    reflexivity. }
  assert (HbQ : (0 < inject_Z baseDelay)%Q)
    by (change 0%Q with (inject_Z 0); rewrite <- Zlt_Qlt; lia).
  unfold calculateDelay.
  set (r := randomFloat64 unixNano) in *.
  set (b := inject_Z baseDelay) in *.
  set (p := (backoff ^ attempt)%Q) in *.
  set (p' := (backoff ^ (attempt + 1))%Q) in *.
  assert (Hpp : (p <= p')%Q).
  { assert (0 <= p * (backoff - 1))%Q by (apply Qmult_le_0_compat; lra).
    rewrite Hstep. lra. }
  assert (Hf : (0 < 1 + (1 # 4) * (2 * r - 1))%Q) by lra.
  assert (Hbp : (0 <= b * (p' - p))%Q)
    by (apply Qmult_le_0_compat; lra).
  assert (Hx : (b * p + b * p * (1 # 4) * (2 * r - 1)
                <= b * p' + b * p' * (1 # 4) * (2 * r - 1))%Q).
  { assert (0 <= b * (p' - p) * (1 + (1 # 4) * (2 * r - 1)))%Q
      by (apply Qmult_le_0_compat; lra).
    lra. }
  assert (Hbp' : (0 <= b * p')%Q)
    by (apply Qmult_le_0_compat; lra).
  assert (Hu : (b * p' + b * p' * (1 # 4) * (2 * r - 1)
                <= b * p' * (5 # 4))%Q).
  { assert (0 <= b * p' * (1 - r))%Q
      by (apply Qmult_le_0_compat; lra).
    lra. }
  assert (Hl : (b <= b * p')%Q).
  { assert (0 <= b * (p' - 1))%Q by (apply Qmult_le_0_compat; lra). lra. }
  set (x := (b * p + b * p * (1 # 4) * (2 * r - 1))%Q) in *.
  set (x' := (b * p' + b * p' * (1 # 4) * (2 * r - 1))%Q) in *.
  destruct (Qltb_spec x b); destruct (Qltb_spec x' b);
    rewrite !time_Duration_in_range by lra;
    apply Qfloor_resp_le; lra.
Qed.

Lemma calculateDelay_monotone_witness :
  calculateDelay amd64 1 time_Second 2 1700000000000000250
  <= calculateDelay amd64 (1 + 1) time_Second 2 1700000000000000250.
Proof.
  apply (calculateDelay_monotone amd64 1 time_Second 2 1700000000000000250).
  - lia.
  - reflexivity.
  - discriminate.
  - reflexivity.
Defined.

End RetryMore.

Section RetryDuration.
Import Retry.

(** Every [return] of the executor reads the clock for [Duration]. *)
Lemma run_duration {W : Type} (E : Env W) (config : RetryConfig)
    (startTime : Z) (fuel : nat) (s : LoopState W) :
  (Z.to_nat (MaxAttempts config - attempt s) <= fuel)%nat ->
  let out := run E config startTime s in
  Duration (fst out) = time_Now E (snd out) - startTime.
Proof.
  revert s. induction fuel as [|fuel IH]; intros s Hf.
  - rewrite run_exhausted by lia. reflexivity.
  - destruct (Z.lt_ge_cases (attempt s) (MaxAttempts config)) as [Hlt|Hge];
      [|rewrite run_exhausted by lia; reflexivity].
    rewrite run_unfold by exact Hlt.
    unfold iteration.
    destruct (ctx_Err E (world s)); [reflexivity|].
    destruct (fn E (world s)) as [[e|] w1]; [|reflexivity].
    destruct (attempt s <? MaxAttempts config - 1).
    + destruct (select E _ w1) as [[] w2]; [|reflexivity].
      apply IH. simpl. lia.
    + apply IH. simpl. lia.
Qed.

(** X4.  Whatever the outcome (success, cancellation before an attempt or
    during a wait, attempts exhausted, no attempt allowed) and for a [nil]
    configuration as well, [Duration] is the clock reading when the
    executor returns minus the reading when it was called. *)
Theorem retry_duration_is_elapsed {W : Type} (E : Env W)
    (config : option RetryConfig) (w : W) :
  let out := RetryWithBackoffWithContext E config w in
  Duration (fst out) = time_Now E (snd out) - time_Now E w.
Proof.
  unfold RetryWithBackoffWithContext.
  eapply run_duration. reflexivity.
Qed.

End RetryDuration.

(** ** Which errors are retried *)

Section ErrorFacts.
Import GoStrings RetryErrors.

Lemma append_nil_r (s : string) : s +:+ "" = s.
Proof.
  induction s as [|c s IH]; [reflexivity|].
  rewrite append_cons. now rewrite IH.
Qed.

(** [strings.Contains]: the substring occurs somewhere. *)
Lemma Contains_spec (s substr : string) :
  Contains s substr = true <-> exists a b, s = a +:+ substr +:+ b.
Proof.
  induction s as [|c s IH].
  - change (Contains "" substr) with (String.prefix substr "" || false).
    rewrite orb_false_r, prefix_spec. split.
    + intros [r Hr]. exists "", r. exact Hr.
    + intros (a & b & Hab). destruct a as [|x a]; [|discriminate].
      exists b. exact Hab.
  - change (Contains (String c s) substr)
      with (String.prefix substr (String c s) || Contains s substr).
    rewrite orb_true_iff, prefix_spec, IH. split.
    + intros [[r Hr]|(a & b & Hab)].
      * exists "", r. exact Hr.
      * exists (String c a), b. rewrite append_cons. now rewrite Hab.
    + intros (a & b & Hab). destruct a as [|x a].
      * left. exists b. exact Hab.
      * right. rewrite append_cons in Hab. injection Hab as _ Hab.
        exists a, b. exact Hab.
Qed.

Lemma ToLower_append (a b : string) :
  ToLower (a +:+ b) = ToLower a +:+ ToLower b.
Proof.
  induction a as [|c a IH]; [reflexivity|].
  rewrite append_cons. simpl. rewrite IH. reflexivity.
Qed.

(** What a match of [contains] is: the prefix and suffix tests are
    cases of the search that ignores the case of the letters. *)
Lemma contains_elim (s substr : string) :
  contains s substr = true ->
  s = substr \/
  ((String.length substr < String.length s)%nat /\
   Contains (ToLower s) (ToLower substr) = true).
Proof.
  unfold contains.
  rewrite andb_true_iff, orb_true_iff, andb_true_iff, !orb_true_iff.
  rewrite Nat.leb_le, Nat.ltb_lt, !String.eqb_eq.
  intros [Hle [Heq|[Hlt [[Hpre|Hsuf]|Hci]]]].
  - left. exact Heq.
  - right. split; [exact Hlt|]. apply Contains_spec.
    exists "", (ToLower (slice_from s (String.length substr))).
    rewrite append_nil, <- ToLower_append. f_equal.
    rewrite <- Hpre at 1. unfold slice_to, slice_from.
    apply substring_split. lia.
  - right. split; [exact Hlt|]. apply Contains_spec.
    exists (ToLower (slice_to s (String.length s - String.length substr))),
      "".
    rewrite append_nil_r, <- ToLower_append. f_equal.
    rewrite <- Hsuf at 2. unfold slice_to, slice_from.
    apply substring_split. lia.
  - right. split; [exact Hlt|]. unfold containsIgnoreCase in Hci.
    destruct (String.length s <? String.length substr)%nat;
      [discriminate | exact Hci].
Qed.

Lemma contains_intro (s substr : string) :
  s = substr \/
  ((String.length substr < String.length s)%nat /\
   Contains (ToLower s) (ToLower substr) = true) ->
  contains s substr = true.
Proof.
  unfold contains.
  rewrite andb_true_iff, orb_true_iff, andb_true_iff, !orb_true_iff.
  rewrite Nat.leb_le, Nat.ltb_lt, !String.eqb_eq.
  intros [->|[Hlt Hc]].
  - split; [lia | left; reflexivity].
  - split; [lia|]. right. split; [exact Hlt|]. right.
    unfold containsIgnoreCase.
    destruct (Nat.ltb_spec (String.length s) (String.length substr));
      [lia | exact Hc].
Qed.

(** X7.  For strings of ASCII bytes, on which [strings.ToLower] changes
    the letters [A] to [Z] only: [contains s substr] holds iff [s] is
    [substr], or [s] is strictly longer than [substr] and [substr] occurs
    in [s] up to the case of the letters.  The prefix and suffix tests add
    nothing, and two strings of the same length match only when they are
    equal, case included. *)
Theorem contains_spec (strings_ToLower : string -> string)
    (s substr : string) :
  lowers_ASCII strings_ToLower ->
  isASCII s = true -> isASCII substr = true ->
  (contains_with strings_ToLower s substr = true <->
   s = substr \/
   ((String.length substr < String.length s)%nat /\
    Contains (ToLower s) (ToLower substr) = true)).
Proof.
  intros Hlower Hs Hsubstr.
  assert (Hsame : contains_with strings_ToLower s substr
                  = contains s substr).
  { unfold contains_with, contains, containsIgnoreCase_with,
      containsIgnoreCase.
    rewrite (Hlower s Hs), (Hlower substr Hsubstr). reflexivity. }
  rewrite Hsame. split.
  - apply contains_elim.
  - apply contains_intro.
Qed.

Lemma contains_spec_witness :
  contains_with ToLower "dial tcp: Connection Refused" "connection refused"
  = true <->
  "dial tcp: Connection Refused" = "connection refused" \/
  ((String.length "connection refused"
    < String.length "dial tcp: Connection Refused")%nat /\
   Contains (ToLower "dial tcp: Connection Refused")
     (ToLower "connection refused") = true).
Proof.
  apply (contains_spec ToLower "dial tcp: Connection Refused"
           "connection refused").
  - intros s _. reflexivity.
  - reflexivity.
  - reflexivity.
Defined.

(** A pattern that matches has every part of it match. *)
Lemma contains_part (s a p b : string) :
  contains s (a +:+ p +:+ b) = true -> contains s p = true.
Proof.
  intros H. apply contains_elim in H. apply contains_intro. revert H.
  assert (Hlen : String.length (a +:+ p +:+ b)
                 = (String.length a + String.length p + String.length b)%nat)
    by (rewrite !length_append; lia).
  intros [->|[Hlt Hc]].
  - destruct a as [|x a]; [destruct b as [|y b]|].
    + left. rewrite append_nil, append_nil_r. reflexivity.
    + right. split; [rewrite Hlen; simpl; lia|].
      apply Contains_spec. exists "", (ToLower (String y b)).
      rewrite !ToLower_append. reflexivity.
    + right. split; [rewrite Hlen; simpl; lia|].
      apply Contains_spec. exists (ToLower (String x a)), (ToLower b).
      rewrite !ToLower_append. reflexivity.
  - right. split; [lia|].
    apply Contains_spec in Hc. destruct Hc as (u & v & Huv).
    apply Contains_spec.
    exists (u +:+ ToLower a), (ToLower b +:+ v).
    rewrite Huv, !ToLower_append, !append_assoc. reflexivity.
Qed.

Lemma existsb_contains (s p : string) (patterns : list string) :
  List.In p patterns -> contains s p = true ->
  existsb (fun pattern => contains s pattern) patterns = true.
Proof. intros Hin Hc. apply existsb_exists. exists p. auto. Qed.

(** X8.  [IsRetryableError] is the disjunction of [isNetworkError],
    [isTimeoutError] and [isTemporaryError]: its own list of patterns adds
    nothing to theirs.  A [nil] error is not retryable; the two errors of a
    cancelled or expired context are. *)
Theorem IsRetryableError_classes :
  (forall err : error,
     IsRetryableError (Some err)
     = isNetworkError err || isTimeoutError err || isTemporaryError err) /\
  IsRetryableError None = false /\
  IsRetryableError (Some Canceled) = true /\
  IsRetryableError (Some DeadlineExceeded) = true.
Proof.
  split; [|repeat split; reflexivity].
  intros err. unfold IsRetryableError.
  destruct (existsb _ retryablePatterns) eqn:Hany.
  - apply existsb_exists in Hany. destruct Hany as (p & Hin & Hc).
    assert (H : isNetworkError err = true \/ isTimeoutError err = true \/
                isTemporaryError err = true).
    { unfold isNetworkError, isTimeoutError, isTemporaryError.
      cbv [retryablePatterns List.In] in Hin.
      repeat (destruct Hin as [<-|Hin]); try contradiction;
        try solve
          [ left; eapply existsb_contains; [|exact Hc];
            unfold networkPatterns; simpl; auto 20
          | right; left; eapply existsb_contains; [|exact Hc];
            unfold timeoutPatterns; simpl; auto 20
          | right; right; eapply existsb_contains; [|exact Hc];
            unfold temporaryPatterns; simpl; auto 20 ].
      right. right.
      apply (existsb_contains _ "temporary");
        [unfold temporaryPatterns; simpl; auto|].
      apply (contains_part _ "" "temporary" " failure"). exact Hc. }
    destruct H as [-> | [-> | ->]]; rewrite ?orb_true_r; reflexivity.
  - destruct (isNetworkError err), (isTimeoutError err),
      (isTemporaryError err); reflexivity.
Qed.

End ErrorFacts.

(** ** Configuration and file names *)

Section ConfigMore.
Import GoStrings Config.

Lemma anyOrigin_spec (allowedOrigins : list string) (origin : string) :
  anyOrigin allowedOrigins origin = true <->
  List.In "*" allowedOrigins \/ List.In origin allowedOrigins.
Proof.
  induction allowedOrigins as [|o l IH]; simpl.
  - split; [discriminate | intros [[]|[]]].
  - destruct (String.eqb_spec o "*") as [->|Hstar]; simpl.
    { split; auto. }
    destruct (String.eqb_spec o origin) as [->|Ho].
    { split; auto. }
    rewrite IH. split.
    + intros [H|H]; auto.
    + intros [[H|H]|[H|H]]; auto; contradiction.
Qed.

(** X9.  [IsAllowedOrigin] holds iff the list has ["*"] or the origin
    itself.  For content types the star alone is no wildcard: the pattern
    ["*"] matches the content type ["*"] only, and ["*/*"] matches only the
    content types that start with ["*/"]. *)
Theorem wildcards (c : RustFSConfig) (origin contentType : string) :
  (IsAllowedOrigin c origin = true <->
   List.In "*" (AllowedOrigins c) \/ List.In origin (AllowedOrigins c)) /\
  (matchContentType "*" contentType = true <-> contentType = "*") /\
  (matchContentType "*/*" contentType = true <->
   HasPrefix contentType "*/" = true).
Proof.
  split; [apply anyOrigin_spec|]. unfold matchContentType. split.
  - destruct (String.eqb_spec "*" contentType) as [<-|Hne].
    + split; reflexivity.
    + change (HasSuffix "*" "/*") with false.
      split; [discriminate | intros ->; contradiction].
  - destruct (String.eqb_spec "*/*" contentType) as [<-|Hne].
    + split; reflexivity.
    + change (HasSuffix "*/*" "/*") with true.
      change (TrimSuffix "*/*" "/*" +:+ "/") with "*/". reflexivity.
Qed.

(** X10.  [Validate] does not look at [AllowedTypes], so a configuration
    with an empty list passes it as it did before; with that list every
    upload request is rejected by [validateUploadRequest]. *)
Theorem no_allowed_type_no_upload (cfg : RustFSConfig)
    (logger : option Audit.RustFSAuditLogger) (service : string)
    (req : UploadRequest.t) :
  let cfg' := withAllowedTypes cfg [] in
  Validate cfg' = Validate cfg /\
  Client.validateUploadRequest
    (Client.NewAuditableRustFSClient logger cfg' service) req <> None.
Proof.
  split; [reflexivity|].
  unfold Client.validateUploadRequest. simpl.
  destruct (_ <? _); discriminate.
Qed.

(** X11.  Under the default [AllowedTypes], [["image/*"]], the content
    types [IsAllowedType] accepts are those [IsImageType] recognises. *)
Theorem image_policy_is_IsImageType (c : RustFSConfig) (contentType : string) :
  AllowedTypes c = ["image/*"] ->
  IsAllowedType c contentType = FileNames.IsImageType contentType.
Proof.
  intros H. unfold IsAllowedType, FileNames.IsImageType. rewrite H. simpl.
  unfold matchContentType.
  destruct (String.eqb_spec "image/*" contentType) as [<-|Hne];
    [reflexivity|].
  change (HasSuffix "image/*" "/*") with true.
  change (TrimSuffix "image/*" "/*" +:+ "/") with "image/".
  destruct (HasPrefix contentType "image/"); reflexivity.
Qed.

Lemma image_policy_is_IsImageType_witness :
  IsAllowedType exampleConfig "image/svg+xml"
  = FileNames.IsImageType "image/svg+xml".
Proof.
  apply (image_policy_is_IsImageType exampleConfig "image/svg+xml").
  reflexivity.
Defined.

End ConfigMore.

Section FileNameFacts.
Import GoStrings FileUtils FileNames.

Lemma ext_scan_plain (s found : string) :
  plain s = true -> ext_scan s found = found.
Proof.
  revert found. induction s as [|c s IH]; intros found; simpl; [reflexivity|].
  rewrite !andb_true_iff, !negb_true_iff. intros [[-> ->] Hs]. auto.
Qed.

Lemma ext_scan_dot (s r found : string) :
  plain r = true -> ext_scan (s +:+ String "." r) found = String "." r.
Proof.
  intros Hr. revert found. induction s as [|c s IH]; intros found.
  - rewrite append_nil. simpl. apply ext_scan_plain. exact Hr.
  - rewrite append_cons. simpl.
    destruct (Ascii.eqb c "/"); [apply IH|].
    destruct (Ascii.eqb c "."); apply IH.
Qed.

Lemma ext_scan_slash (s r found : string) :
  plain r = true -> ext_scan (s +:+ String "/" r) found = "".
Proof.
  intros Hr. revert found. induction s as [|c s IH]; intros found.
  - rewrite append_nil. simpl. apply ext_scan_plain. exact Hr.
  - rewrite append_cons. simpl.
    destruct (Ascii.eqb c "/"); [apply IH|].
    destruct (Ascii.eqb c "."); apply IH.
Qed.

(** The three shapes of a path: a plain name, a path whose last element
    is plain, a path whose last element has a last dot. *)
Lemma path_shape (s : string) :
  plain s = true \/
  (exists a r, s = a +:+ String "/" r /\ plain r = true) \/
  (exists a r, s = a +:+ String "." r /\ plain r = true).
Proof.
  induction s as [|c s IH]; [left; reflexivity|].
  destruct IH as [Hp|[(a & r & -> & Hr)|(a & r & -> & Hr)]].
  - simpl. destruct (Ascii.eqb_spec c "/") as [->|Hs].
    { right. left. exists "", s. auto. }
    destruct (Ascii.eqb_spec c ".") as [->|Hd].
    { right. right. exists "", s. auto. }
    left. exact Hp.
  - right. left. exists (String c a), r. auto.
  - right. right. exists (String c a), r. auto.
Qed.

Lemma plain_append (a b : string) :
  plain (a +:+ b) = plain a && plain b.
Proof.
  induction a as [|c a IH]; [reflexivity|].
  rewrite append_cons. simpl. rewrite IH, !andb_assoc. reflexivity.
Qed.

Lemma TrimSuffix_empty (s : string) : TrimSuffix s "" = s.
Proof.
  unfold TrimSuffix. destruct (HasSuffix s ""); [|reflexivity].
  unfold slice_to. simpl. rewrite Nat.sub_0_r. apply substring_all.
Qed.

Lemma plain_uint (d : Decimal.uint) :
  plain (NilEmpty.string_of_uint d) = true.
Proof. induction d; simpl; auto. Qed.

Lemma plain_Z_to_string (z : Z) : plain (Z_to_string z) = true.
Proof.
  unfold Z_to_string, NilZero.string_of_int, NilZero.string_of_uint.
  destruct (Z.to_int z) as [d|d]; destruct d; simpl;
    try reflexivity; apply plain_uint.
Qed.

Lemma Ext_plain (s : string) : plain s = true -> Ext s = "".
Proof. apply ext_scan_plain. Qed.

(** A stamp put between the base and the extension of a path, behind
    nothing or behind a directory. *)
Lemma Ext_stamped (pre path stamp : string) :
  pre = "" \/ (exists p, pre = p +:+ "/") ->
  plain stamp = true ->
  Ext (pre +:+ TrimSuffix path (Ext path) +:+ stamp +:+ Ext path)
  = Ext path.
Proof.
  intros Hpre Hstamp. unfold Ext at 1.
  destruct (path_shape path) as [Hp|[(a & r & -> & Hr)|(a & r & -> & Hr)]].
  - rewrite (Ext_plain _ Hp), TrimSuffix_empty, append_nil_r.
    destruct Hpre as [->|[p ->]].
    + rewrite append_nil. apply ext_scan_plain.
      rewrite plain_append, Hp, Hstamp. reflexivity.
    + rewrite append_assoc.
      change ("/" +:+ path +:+ stamp) with (String "/" (path +:+ stamp)).
      apply ext_scan_slash. rewrite plain_append, Hp, Hstamp. reflexivity.
  - unfold Ext. rewrite (ext_scan_slash _ _ _ Hr), TrimSuffix_empty,
      append_nil_r.
    rewrite (append_assoc a), append_cons, <- (append_assoc pre).
    apply ext_scan_slash. rewrite plain_append, Hr, Hstamp. reflexivity.
  - unfold Ext. rewrite (ext_scan_dot _ _ _ Hr), TrimSuffix_append.
    rewrite <- !append_assoc. apply ext_scan_dot. exact Hr.
Qed.

(** X12.  The names [GenerateUniqueFilename] and [GenerateFilePath] make
    have the extension of the name they are made from, whatever the
    timestamp, the prefix and the date. *)
Theorem generated_names_keep_extension
    (basePath filename prefix date : string) (unix : Z) :
  Ext (GenerateUniqueFilename basePath unix) = Ext basePath /\
  Ext (GenerateFilePath filename prefix date unix) = Ext filename.
Proof.
  assert (Hstamp : plain ("_" +:+ Z_to_string unix) = true).
  { rewrite plain_append, plain_Z_to_string. reflexivity. }
  split.
  - unfold GenerateUniqueFilename.
    rewrite <- (append_assoc "_").
    rewrite <- (append_nil (TrimSuffix basePath (Ext basePath) +:+ _)).
    apply Ext_stamped; auto.
  - unfold GenerateFilePath.
    rewrite <- (append_assoc "_").
    rewrite <- (append_assoc date), <- (append_assoc "/" (date +:+ "/")),
      <- (append_assoc prefix).
    apply Ext_stamped; [|exact Hstamp].
    right. exists (prefix +:+ "/" +:+ date).
    rewrite !append_assoc. reflexivity.
Qed.

Lemma lower_sep (c : ascii) :
  Ascii.eqb (RetryErrors.lower c) "/" = Ascii.eqb c "/" /\
  Ascii.eqb (RetryErrors.lower c) "." = Ascii.eqb c ".".
Proof. destruct c as [[] [] [] [] [] [] [] []]; split; reflexivity. Qed.

Lemma upper_sep (c : ascii) :
  Ascii.eqb (upper c) "/" = Ascii.eqb c "/" /\
  Ascii.eqb (upper c) "." = Ascii.eqb c ".".
Proof. destruct c as [[] [] [] [] [] [] [] []]; split; reflexivity. Qed.

Lemma plain_ToLower (s : string) : plain (RetryErrors.ToLower s) = plain s.
Proof.
  induction s as [|c s IH]; [reflexivity|]. simpl.
  destruct (lower_sep c) as [-> ->]. rewrite IH. reflexivity.
Qed.

Lemma plain_ToUpper (s : string) : plain (ToUpper s) = plain s.
Proof.
  induction s as [|c s IH]; [reflexivity|]. simpl.
  destruct (upper_sep c) as [-> ->]. rewrite IH. reflexivity.
Qed.

(** X13.  [GetFileExtension] is the lower-cased [filepath.Ext]: the
    branch that would prepend a dot never runs, the result being empty or
    a dot followed by bytes that are neither dots nor slashes. *)
Theorem GetFileExtension_spec (filename : string) :
  GetFileExtension filename = RetryErrors.ToLower (Ext filename) /\
  (GetFileExtension filename = "" \/
   exists r, GetFileExtension filename = String "." r /\ plain r = true).
Proof.
  unfold GetFileExtension, Ext.
  destruct (path_shape filename)
    as [Hp|[(a & r & -> & Hr)|(a & r & -> & Hr)]].
  - rewrite (ext_scan_plain _ _ Hp). simpl. auto.
  - rewrite (ext_scan_slash _ _ _ Hr). simpl. auto.
  - rewrite (ext_scan_dot _ _ _ Hr).
    change (RetryErrors.ToLower (String "." r))
      with (String "." (RetryErrors.ToLower r)).
    change (HasPrefix (String "." (RetryErrors.ToLower r)) ".") with
      (String.prefix "" (RetryErrors.ToLower r)).
    replace (String.prefix "" (RetryErrors.ToLower r)) with true
      by (destruct (RetryErrors.ToLower r); reflexivity).
    simpl. split; [reflexivity|]. right. eexists. split; [reflexivity|].
    rewrite plain_ToLower. exact Hr.
Qed.

Lemma dots_snoc (n : nat) : dots (S n) = dots n +:+ ".".
Proof.
  induction n as [|n IH]; [reflexivity|].
  change (String "." (dots (S n)) = String "." (dots n) +:+ ".").
  rewrite append_cons. f_equal. exact IH.
Qed.

Lemma Contains_dots (n : nat) (c : ascii) :
  c <> "."%char -> Contains (dots n) (String c "") = false.
Proof.
  intros Hc. induction n as [|n IH]; [reflexivity|].
  change (Contains (dots (S n)) (String c ""))
    with (String.prefix (String c "") (String "." (dots n))
          || Contains (dots n) (String c "")).
  rewrite IH, orb_false_r. simpl.
  destruct (ascii_dec c "."); [contradiction | reflexivity].
Qed.

Lemma ToUpper_dots (n : nat) : ToUpper (dots n) = dots n.
Proof.
  induction n as [|n IH]; [reflexivity|]. simpl. rewrite IH. reflexivity.
Qed.

(** X14.  [IsValidFilename] accepts every name made of dots only, [.]
    and [..] included. *)
Theorem dot_names_are_valid (n : nat) : IsValidFilename (dots (S n)) = true.
Proof.
  unfold IsValidFilename.
  change (String.eqb (dots (S n)) "") with false.
  unfold invalidChars. cbn [existsb].
  rewrite !Contains_dots by discriminate. cbn [orb].
  unfold Ext. rewrite dots_snoc.
  rewrite (ext_scan_dot (dots n) "" "" eq_refl), TrimSuffix_append.
  rewrite ToUpper_dots. destruct n; reflexivity.
Qed.

(** X15.  A reserved device name is rejected in any case of its letters,
    alone or followed by one extension: if the upper-cased [name] is
    reserved and [ext] has no dot and no slash, neither [name] nor
    [name.ext] is a valid file name. *)
Theorem reserved_names_rejected (name ext : string) :
  List.In (ToUpper name) reservedNames ->
  plain ext = true ->
  IsValidFilename name = false /\
  IsValidFilename (name +:+ "." +:+ ext) = false.
Proof.
  intros Hin Hext.
  assert (Hres : existsb (fun reserved => String.eqb (ToUpper name) reserved)
                   reservedNames = true).
  { apply existsb_exists. exists (ToUpper name).
    split; [exact Hin | apply String.eqb_refl]. }
  assert (Hplain : plain name = true).
  { rewrite <- plain_ToUpper. unfold reservedNames in Hin. simpl in Hin.
    repeat (destruct Hin as [Hin|Hin]; [rewrite <- Hin; reflexivity|]).
    contradiction. }
  unfold IsValidFilename. split.
  - destruct (String.eqb name ""); [reflexivity|].
    destruct (existsb _ invalidChars); [reflexivity|].
    rewrite (Ext_plain _ Hplain), TrimSuffix_empty, Hres. reflexivity.
  - change ("." +:+ ext) with (String "." ext).
    destruct (String.eqb _ ""); [reflexivity|].
    destruct (existsb _ invalidChars); [reflexivity|].
    unfold Ext. rewrite (ext_scan_dot _ _ _ Hext), TrimSuffix_append, Hres.
    reflexivity.
Qed.

Lemma reserved_names_rejected_witness :
  IsValidFilename "con" = false /\
  IsValidFilename ("con" +:+ "." +:+ "txt") = false.
Proof.
  apply (reserved_names_rejected "con" "txt").
  - simpl. auto.
  - reflexivity.
Defined.

End FileNameFacts.

(** ** Audit events *)

Section AuditFacts.
Import Audit.

Lemma case_of_spec (eventType : string) (values : list string) :
  case_of eventType values = true <-> List.In eventType values.
Proof.
  unfold case_of. rewrite existsb_exists. split.
  - intros (x & Hin & Heq). apply String.eqb_eq in Heq. subst. exact Hin.
  - intros Hin. exists eventType. split; [exact Hin | apply String.eqb_refl].
Qed.

Ltac by_cases H :=
  match type of H with
  | (if case_of ?e ?l then true else false) = true =>
      let Hc := fresh in
      destruct (case_of e l) eqn:Hc; [clear H | discriminate H];
      apply case_of_spec in Hc; simpl in Hc;
      repeat (destruct Hc as [<-|Hc]); [..|contradiction]
  end.

(** X16.  The classes of event types.  A file event is no storage,
    performance or security event of this package and its severity is low
    or medium; a security event of this package is no storage or
    performance event and its severity is high or critical; and
    [storage_full] is the one event type that is both a storage and a
    performance event. *)
Theorem event_classes (types_GetSeverity : string -> AuditSeverity)
    (eventType : string) :
  (IsFileEvent eventType = true ->
   IsStorageEvent eventType = false /\
   IsPerformanceEvent eventType = false /\
   IsSecurityEvent (fun _ => false) eventType = false /\
   (GetSeverity types_GetSeverity eventType = AuditSeverityLow \/
    GetSeverity types_GetSeverity eventType = AuditSeverityMedium)) /\
  (IsSecurityEvent (fun _ => false) eventType = true ->
   IsStorageEvent eventType = false /\
   IsPerformanceEvent eventType = false /\
   (GetSeverity types_GetSeverity eventType = AuditSeverityHigh \/
    GetSeverity types_GetSeverity eventType = AuditSeverityCritical)) /\
  (IsStorageEvent eventType = true /\ IsPerformanceEvent eventType = true <->
   eventType = AuditEventStorageFull).
Proof.
  split; [|split].
  - unfold IsFileEvent. intros H. by_cases H;
      repeat split; try reflexivity; (left; reflexivity) || (right; reflexivity).
  - unfold IsSecurityEvent. intros H. by_cases H;
      repeat split; try reflexivity; (left; reflexivity) || (right; reflexivity).
  - split.
    + intros [H1 H2]. unfold IsStorageEvent in H1. by_cases H1;
        try discriminate H2; reflexivity.
    + intros ->. split; reflexivity.
Qed.

(** X17.  The entries of [metadata.Additional] override the standard
    fields of the audit metadata ([service], [file_name], ...): a key of
    [Additional] keeps its value in the result, but for the key [config],
    which holds the logger's configuration when the logger has one. *)
Theorem buildFileMetadata_override (l : RustFSAuditLogger)
    (metadata : FileOperationMetadata.t) (additional : gmap string Value)
    (key : string) (value : Value) :
  FileOperationMetadata.Additional metadata = Some additional ->
  additional !! key = Some value ->
  buildFileMetadata l metadata !! key
  = match config l with
    | Some c => if String.eqb key "config" then Some (VMap c) else Some value
    | None => Some value
    end.
Proof.
  intros Hadd Hkey. unfold buildFileMetadata. cbv zeta. rewrite Hadd.
  match goal with
  | |- setConfig _ (setAll _ ?m) !! _ = _ => generalize m
  end.
  intros m. unfold setConfig, setAll.
  assert (Hu : (additional ∪ m) !! key = Some value)
    by (apply lookup_union_Some_l; exact Hkey).
  destruct (config l) as [c|]; [|exact Hu].
  destruct (String.eqb_spec key "config") as [->|Hne].
  - by simplify_map_eq.
  - rewrite lookup_insert_ne by congruence. exact Hu.
Qed.

Lemma buildFileMetadata_override_witness :
  buildFileMetadata Client.exampleLogger
    {| FileOperationMetadata.Filename := "snapshot.png";
       FileOperationMetadata.FileSize := 1024;
       FileOperationMetadata.ContentType := "image/png";
       FileOperationMetadata.FilePath := "snapshots/2024/01/01";
       FileOperationMetadata.BucketName := "default";
       FileOperationMetadata.UploadTime := "";
       FileOperationMetadata.DownloadTime := "";
       FileOperationMetadata.AccessTime := "";
       FileOperationMetadata.UserAgent := "";
       FileOperationMetadata.IPAddress := "";
       FileOperationMetadata.ETag := "";
       FileOperationMetadata.Checksum := "";
       FileOperationMetadata.Additional :=
         Some {[ "service" := VString "someone-else" ]} |}
    !! "service"
  = Some (VString "someone-else").
Proof.
  apply (buildFileMetadata_override Client.exampleLogger _
           {[ "service" := VString "someone-else" ]} "service"
           (VString "someone-else")).
  - reflexivity.
  - reflexivity.
Defined.

End AuditFacts.

(** ** The decorator: failures, panics and loggers without a sink *)

Section DecoratorFacts.
Import Client.

(** X18.  An upload that passes validation and that the backend
    fails: [UploadFile] of the backend has been called once, the caller
    gets no result and the backend's error wrapped with [UPLOAD_FAILED]
    (an [AppError] is passed on as it is), and the logger is handed one
    event, of type [storage_error] and of high severity, not successful,
    with the error's text as its reason and [UPLOAD_ERROR] as its
    [error_code]. *)
Theorem upload_backend_failure {B : Type} (E : Env B)
    (c : AuditableRustFSClient) (l : Audit.RustFSAuditLogger) (ctx : Ctx)
    (req : UploadRequest.t) (userID : string) (w : World (B * nat))
    (r : option UploadResponse.t) (err : error) (b' : B)
    (types_GetSeverity : string -> Audit.AuditSeverity) :
  auditLogger c = Some l ->
  validateUploadRequest c req = None ->
  UploadFile E ctx req (fst (backend w)) = ((r, Some err), b') ->
  exists ev,
    UploadFileWithAudit (countingUploads E) c ctx req userID w
      = Some ((None, Some (wrapError err "UPLOAD_FAILED")),
              {| backend := (b', S (snd (backend w)));
                 sink := Audit.logEvent l ev (sink w) |}) /\
    AuditEvent.EventType ev = "storage_error" /\
    AuditEvent.UserID ev = userID /\
    AuditEvent.Success ev = false /\
    AuditEvent.Reason ev = Error err /\
    AuditEvent.Metadata ev !! "error_code" = Some (VString "UPLOAD_ERROR") /\
    Audit.GetSeverity types_GetSeverity (AuditEvent.EventType ev)
      = Audit.AuditSeverityHigh.
Proof.
  intros Hl Hv Hup. destruct w as [[b n] sk]. simpl in Hup.
  unfold UploadFileWithAudit, bind, now. rewrite Hv.
  unfold call. simpl. rewrite Hup.
  unfold logUploadError, bind, now, audit, ret. rewrite Hl.
  match goal with
  | |- context [Audit.LogStorageError l userID "upload" ?md] =>
      edestruct (LogStorageError_event l userID "upload" md)
        as (ev & Hev & Htype & Huser & Hsucc & Hreason & Hcode);
        [reflexivity | by simplify_map_eq |]
  end.
  exists ev. split.
  - rewrite Hev. reflexivity.
  - rewrite Htype. repeat split; auto.
Qed.

Lemma upload_backend_failure_witness :
  exists ev,
    UploadFileWithAudit (countingUploads mockEnv) exampleClient ∅
      (snapshotRequest 1024) "user-1"
      {| backend := (backend unreachableWorld, O); sink := [] |}
      = Some ((None,
               Some (wrapError
                       (errorString
                          "dial tcp 10.0.0.7:9000: connection refused")
                       "UPLOAD_FAILED")),
              {| backend := (resetFailure (backend unreachableWorld), 1%nat);
                 sink := Audit.logEvent exampleLogger ev [] |}) /\
    AuditEvent.Metadata ev !! "error_code" = Some (VString "UPLOAD_ERROR").
Proof.
  destruct (upload_backend_failure mockEnv exampleClient exampleLogger ∅
              (snapshotRequest 1024) "user-1"
              {| backend := (backend unreachableWorld, O); sink := [] |}
              None (errorString "dial tcp 10.0.0.7:9000: connection refused")
              (resetFailure (backend unreachableWorld))
              (fun _ => Audit.AuditSeverityLow))
    as (ev & Hrun & _ & _ & _ & _ & Hcode & _);
    [reflexivity | reflexivity | reflexivity |].
  exists ev. split; [exact Hrun | exact Hcode].
Defined.

(** X19.  When the backend reports success, [logUploadSuccess] reads the
    result and writes to the request's [Metadata] map: with a [nil]
    result, or a request without a [Metadata] map,
    [UploadFileWithAudit] panics. *)
Theorem upload_success_panics {B : Type} (E : Env B)
    (c : AuditableRustFSClient) (ctx : Ctx) (req : UploadRequest.t)
    (userID : string) (w : World B) (r : option UploadResponse.t) (b' : B) :
  validateUploadRequest c req = None ->
  UploadFile E ctx req (backend w) = ((r, None), b') ->
  r = None \/ UploadRequest.Metadata req = None ->
  UploadFileWithAudit E c ctx req userID w = None.
Proof.
  intros Hv Hup Hnil.
  unfold UploadFileWithAudit, bind, now. rewrite Hv.
  unfold call. rewrite Hup. simpl.
  unfold logUploadSuccess, bind, now. simpl.
  destruct Hnil as [->| ->]; [reflexivity|].
  destruct r; reflexivity.
Qed.

Lemma upload_success_panics_witness :
  UploadFileWithAudit mockEnv exampleClient ∅ (snapshotRequest 1024) "user-1"
    {| backend := SetFailureMode true None
                    (NewMockRustFSClient 1704067200000000000);
       sink := [] |}
  = None.
Proof.
  apply (upload_success_panics mockEnv exampleClient ∅ (snapshotRequest 1024)
           "user-1"
           {| backend := SetFailureMode true None
                           (NewMockRustFSClient 1704067200000000000);
              sink := [] |}
           None
           (resetFailure (SetFailureMode true None
                            (NewMockRustFSClient 1704067200000000000)))).
  - reflexivity.
  - reflexivity.
  - left. reflexivity.
Defined.

(** X20.  A client made with a [nil] audit logger cannot make an
    audited call: [UploadFileWithAudit], [DeleteFileWithAudit],
    [GetFileInfo] and [Close] panic, whatever the backend answers. *)
Theorem nil_logger_panics {B : Type} (E : Env B)
    (c : AuditableRustFSClient) (ctx : Ctx) (req : UploadRequest.t)
    (path userID : string) (w : World B) :
  auditLogger c = None ->
  UploadFileWithAudit E c ctx req userID w = None /\
  DeleteFileWithAudit E c ctx path userID w = None /\
  GetFileInfoWithAudit E c ctx path w = None /\
  Close E c w = None.
Proof.
  intros Hl. repeat split.
  - unfold UploadFileWithAudit, logUploadError, logUploadSuccess, bind, now,
      call, audit. rewrite Hl. simpl.
    destruct (validateUploadRequest c req); [reflexivity|].
    destruct (UploadFile E ctx req (backend w)) as [[r [e|]] b];
      [reflexivity|].
    simpl. destruct r, (UploadRequest.Metadata req); reflexivity.
  - unfold DeleteFileWithAudit, bind, now, call, audit. rewrite Hl. simpl.
    destruct (DeleteFile E ctx path (backend w)) as [[e|] b]; reflexivity.
  - unfold GetFileInfoWithAudit, bind, now, call, audit. rewrite Hl. simpl.
    destruct (GetFileInfo E ctx path (backend w)) as [[r [e|]] b];
      reflexivity.
  - unfold Close. rewrite Hl. reflexivity.
Qed.

Lemma nil_logger_panics_witness :
  let c := NewAuditableRustFSClient None Config.exampleConfig "site" in
  UploadFileWithAudit mockEnv c ∅ (snapshotRequest 1024) "user-1" mockWorld
  = None /\
  DeleteFileWithAudit mockEnv c ∅ "a.png" "user-1" mockWorld = None /\
  GetFileInfoWithAudit mockEnv c ∅ "a.png" mockWorld = None /\
  Close mockEnv c mockWorld = None.
Proof.
  apply (nil_logger_panics mockEnv
           (NewAuditableRustFSClient None Config.exampleConfig "site") ∅
           (snapshotRequest 1024) "a.png" "user-1" mockWorld).
  reflexivity.
Defined.

(** *** Loggers without a sink *)

Lemma silent_ret {B A} (a : A) : silent (ret (B := B) a).
Proof. intros w a' w' H. injection H as <- <-. reflexivity. Qed.

Lemma silent_panic {B A} : silent (panic (B := B) (A := A)).
Proof. intros w a w' H. discriminate. Qed.

Lemma silent_bind {B A A'} (m : M B A) (k : A -> M B A') :
  silent m -> (forall a, silent (k a)) -> silent (bind m k).
Proof.
  intros Hm Hk w a' w' H. unfold bind in H.
  destruct (m w) as [[a w1]|] eqn:Hmw; [|discriminate].
  rewrite (Hk a _ _ _ H). exact (Hm _ _ _ Hmw).
Qed.

Lemma silent_call {B A} (op : B -> A * B) : silent (call op).
Proof.
  intros w a w' H. unfold call in H. destruct (op (backend w)).
  injection H as <- <-. reflexivity.
Qed.

Lemma silent_now {B} (E : Env B) : silent (now E).
Proof. intros w a w' H. injection H as <- <-. reflexivity. Qed.

Lemma silent_if {B A} (b : bool) (m1 m2 : M B A) :
  silent m1 -> silent m2 -> silent (if b then m1 else m2).
Proof. destruct b; auto. Qed.

Section Sinkless.
Context {B : Type}.
Variable E : Env B.
Variable c : AuditableRustFSClient.
Hypothesis Hsink :
  forall l, auditLogger c = Some l -> Audit.auditLogger l = false.

Lemma silent_audit
    (method : Audit.RustFSAuditLogger -> Audit.Sink -> Audit.Sink) :
  (forall l, exists ev, method l = Audit.logEvent l ev) ->
  silent (audit (B := B) c method).
Proof.
  intros Hm w a w' H. unfold audit in H.
  destruct (auditLogger c) as [l|] eqn:Hl; [|discriminate].
  injection H as <- <-. simpl.
  destruct (Hm l) as (ev & ->). unfold Audit.logEvent.
  rewrite (Hsink l eq_refl). reflexivity.
Qed.

Ltac quiet :=
  repeat first
    [ apply silent_ret | apply silent_panic | apply silent_call
    | apply silent_now | apply silent_if
    | apply silent_bind; [|intros ?]
    | apply silent_audit; intros ?; eexists; reflexivity
    | match goal with
      | |- silent (match ?x with _ => _ end) => destruct x
      end ].

(** With a logger that has no sink, no call changes the sink. *)
Lemma sinkless_silent (ctx : Ctx) (req : UploadRequest.t)
    (path userID : string) :
  silent (UploadFileWithAudit E c ctx req userID) /\
  silent (DeleteFileWithAudit E c ctx path userID) /\
  silent (GetFileInfoWithAudit E c ctx path) /\
  silent (Close E c).
Proof.
  repeat split.
  - unfold UploadFileWithAudit, logUploadError, logUploadSuccess, slowEvent.
    quiet.
  - unfold DeleteFileWithAudit, slowEvent. quiet.
  - unfold GetFileInfoWithAudit, slowEvent. quiet.
  - unfold Close.
    case_eq (auditLogger c); [intros l Hl | intros _; apply silent_panic].
    rewrite (Hsink l Hl). quiet.
Qed.

End Sinkless.

(** X21.  A client made by [CreateClientFromConfig] never records an
    audit event: when auditing is enabled the factory gives the logger no
    sink, so whenever [UploadFileWithAudit], [DeleteFileWithAudit],
    [GetFileInfo] or [Close] returns, the audit sink is what it was. *)
Theorem factory_clients_record_nothing {B : Type} (E : Env B)
    (cfg : Config.RustFSConfig) (serviceName : string) (ctx : Ctx)
    (req : UploadRequest.t) (path userID : string) :
  let c := CreateClientFromConfig cfg serviceName in
  silent (UploadFileWithAudit E c ctx req userID) /\
  silent (DeleteFileWithAudit E c ctx path userID) /\
  silent (GetFileInfoWithAudit E c ctx path) /\
  silent (Close E c).
Proof.
  apply sinkless_silent. intros l. unfold CreateClientFromConfig. simpl.
  destruct (Config.EnableAudit cfg); [|discriminate].
  intros H. injection H as <-. reflexivity.
Qed.

End DecoratorFacts.

(** ** The decorator: lookups and deletes *)

Section DecoratorFacts2.
Import Client.

(** X22.  A lookup that the backend fails, for whatever reason (a file
    that does not exist, for one): the caller gets the error wrapped with
    [GET_INFO_FAILED], and the logger is handed one event of type
    [storage_access_denied], of critical severity, with [access_denied] as
    its [error_type], the path as its resource and [extractUserID ctx] as
    its actor. *)
Theorem lookup_failure_event {B : Type} (E : Env B)
    (c : AuditableRustFSClient) (l : Audit.RustFSAuditLogger) (ctx : Ctx)
    (path : string) (w : World B) (r : option FileInfo.t) (err : error)
    (b' : B) (types_GetSeverity : string -> Audit.AuditSeverity) :
  auditLogger c = Some l ->
  GetFileInfo E ctx path (backend w) = ((r, Some err), b') ->
  exists ev,
    GetFileInfoWithAudit E c ctx path w
      = Some ((None, Some (wrapError err "GET_INFO_FAILED")),
              {| backend := b'; sink := Audit.logEvent l ev (sink w) |}) /\
    AuditEvent.EventType ev = "storage_access_denied" /\
    AuditEvent.UserID ev = extractUserID ctx /\
    AuditEvent.ResourceID ev = path /\
    AuditEvent.Success ev = false /\
    AuditEvent.Reason ev = Error err /\
    AuditEvent.Metadata ev !! "error_type"
      = Some (VString "access_denied") /\
    Audit.GetSeverity types_GetSeverity (AuditEvent.EventType ev)
      = Audit.AuditSeverityCritical.
Proof.
  intros Hl Hget.
  unfold GetFileInfoWithAudit, bind, now, call. rewrite Hget. simpl.
  unfold audit. rewrite Hl. simpl.
  eexists. split; [unfold Audit.LogFileAccess; reflexivity|].
  simpl. repeat split. by simplify_map_eq.
Qed.

Lemma lookup_failure_event_witness :
  exists ev,
    GetFileInfoWithAudit mockEnv exampleClient ∅ "missing.png" mockWorld
      = Some ((None,
               Some (wrapError (errorString "file not found: missing.png")
                       "GET_INFO_FAILED")),
              {| backend := snd (mockGetFileInfo ∅ "missing.png"
                                   (backend mockWorld));
                 sink := Audit.logEvent exampleLogger ev [] |}) /\
    AuditEvent.EventType ev = "storage_access_denied" /\
    Audit.GetSeverity (fun _ => Audit.AuditSeverityLow)
      (AuditEvent.EventType ev) = Audit.AuditSeverityCritical.
Proof.
  destruct (lookup_failure_event mockEnv exampleClient exampleLogger ∅
              "missing.png" mockWorld None
              (errorString "file not found: missing.png")
              (snd (mockGetFileInfo ∅ "missing.png" (backend mockWorld)))
              (fun _ => Audit.AuditSeverityLow))
    as (ev & Hrun & Htype & _ & _ & _ & _ & _ & Hsev);
    [reflexivity | reflexivity |].
  exists ev. split; [exact Hrun | split; [exact Htype | exact Hsev]].
Defined.

(** X23.  A delete that the backend performs returns [nil] and hands the
    logger a [file_deleted] event for the path, successful, in the name of
    [userID]; when it took more than half of [Timeout] a second event
    follows, of type [upload_slow], with [delete] as its [operation] and
    that threshold in milliseconds. *)
Theorem delete_success_events {B : Type} (E : Env B)
    (c : AuditableRustFSClient) (l : Audit.RustFSAuditLogger) (ctx : Ctx)
    (path userID : string) (w : World B) (b' : B) :
  auditLogger c = Some l ->
  DeleteFile E ctx path (backend w) = (None, b') ->
  let duration := time_Now E b' - time_Now E (backend w) in
  let threshold := Z.quot (Config.Timeout (config c)) 2 in
  exists deleted slow,
    DeleteFileWithAudit E c ctx path userID w
      = Some (None,
              {| backend := b';
                 sink := let sink' := Audit.logEvent l deleted (sink w) in
                         if threshold <? duration
                         then Audit.logEvent l slow sink'
                         else sink' |}) /\
    AuditEvent.EventType deleted = "file_deleted" /\
    AuditEvent.UserID deleted = userID /\
    AuditEvent.ResourceID deleted = path /\
    AuditEvent.Success deleted = true /\
    AuditEvent.EventType slow = "upload_slow" /\
    AuditEvent.UserID slow = userID /\
    AuditEvent.Success slow = true /\
    AuditEvent.Metadata slow !! "operation" = Some (VString "delete") /\
    AuditEvent.Metadata slow !! "threshold"
      = Some (VFloat (inject_Z (Milliseconds threshold))).
Proof.
  intros Hl Hdel duration threshold.
  unfold DeleteFileWithAudit, bind, now, call. rewrite Hdel. simpl.
  unfold audit. rewrite Hl. simpl. fold duration threshold.
  eexists. eexists. split.
  - unfold Audit.LogFileDelete. destruct (threshold <? duration).
    + unfold slowEvent, audit, ret. rewrite Hl. simpl.
      unfold Audit.LogPerformanceEvent. reflexivity.
    + reflexivity.
  - simpl. repeat split; by simplify_map_eq.
Qed.

Lemma delete_success_events_witness :
  exists deleted slow,
    DeleteFileWithAudit mockEnv exampleClient ∅ "a.png" "user-1" mockWorld
      = Some (None,
              {| backend := snd (mockDeleteFile ∅ "a.png" (backend mockWorld));
                 sink := let sink' := Audit.logEvent exampleLogger deleted []
                         in
                         if Z.quot (Config.Timeout Config.exampleConfig) 2
                            <? 5 * time_Millisecond
                         then Audit.logEvent exampleLogger slow sink'
                         else sink' |}) /\
    AuditEvent.EventType deleted = "file_deleted" /\
    AuditEvent.EventType slow = "upload_slow".
Proof.
  destruct (delete_success_events mockEnv exampleClient exampleLogger ∅
              "a.png" "user-1" mockWorld
              (snd (mockDeleteFile ∅ "a.png" (backend mockWorld))))
    as (deleted & slow & Hrun & Htype & _ & _ & _ & Hslow & _);
    [reflexivity | reflexivity |].
  exists deleted, slow. split; [exact Hrun | split; assumption].
Defined.

End DecoratorFacts2.

(** ** The mock storage *)

Section MockFacts.
Import Client.

(** X24.  The mock, when it is not set to fail: a file that has been
    uploaded is found by [GetFileInfo] under its [BucketPath], with the
    size, content type and metadata of the request and the [ETag] of the
    response; the upload is recorded and the other paths are untouched. *)
Theorem mock_upload_then_lookup (ctx ctx' : Ctx) (req : UploadRequest.t)
    (m : MockRustFSClient) :
  shouldFail m = false ->
  exists response info m1 m2,
    mockUploadFile ctx req m = ((Some response, None), m1) /\
    mockGetFileInfo ctx' (UploadRequest.BucketPath req) m1
      = ((Some info, None), m2) /\
    UploadResponse.Path response = UploadRequest.BucketPath req /\
    UploadResponse.Size response = UploadRequest.FileSize req /\
    FileInfo.Path info = UploadRequest.BucketPath req /\
    FileInfo.Size info = UploadRequest.FileSize req /\
    FileInfo.ContentType info = UploadRequest.ContentType req /\
    FileInfo.Metadata info = UploadRequest.Metadata req /\
    FileInfo.ETag info = UploadResponse.ETag response /\
    uploads m2 = uploads m ++ [response] /\
    (forall path, path <> UploadRequest.BucketPath req ->
                  files m2 !! path = files m !! path).
Proof.
  intros Hf. unfold mockUploadFile. rewrite Hf.
  eexists. eexists. eexists. eexists. split; [reflexivity|].
  unfold mockGetFileInfo. simpl. rewrite ?Hf.
  rewrite lookup_insert_eq. split; [reflexivity|].
  simpl. repeat split.
  intros path Hne. rewrite lookup_insert_ne by congruence. reflexivity.
Qed.

Lemma mock_upload_then_lookup_witness :
  exists response info m1 m2,
    mockUploadFile ∅ (snapshotRequest 1024) (backend mockWorld)
      = ((Some response, None), m1) /\
    mockGetFileInfo ∅ "snapshots/2024/01/01" m1 = ((Some info, None), m2) /\
    FileInfo.Size info = 1024 /\
    FileInfo.ContentType info = "image/png".
Proof.
  destruct (mock_upload_then_lookup ∅ ∅ (snapshotRequest 1024)
              (backend mockWorld))
    as (response & info & m1 & m2 & H1 & H2 & _ & _ & _ & H3 & H4 & _);
    [reflexivity|].
  exists response, info, m1, m2. auto.
Defined.

(** X25.  The mock, when it is not set to fail: [DeleteFile] succeeds
    whether or not the file exists and records the path; afterwards
    [GetFileInfo] of that path fails with [file not found], and the
    lookups of the other paths answer as before. *)
Theorem mock_delete_then_lookup (ctx ctx' : Ctx) (path : string)
    (m : MockRustFSClient) :
  shouldFail m = false ->
  exists m1,
    mockDeleteFile ctx path m = (None, m1) /\
    deletes m1 = deletes m ++ [path] /\
    fst (mockGetFileInfo ctx' path m1)
      = (None, Some (errorString ("file not found: " +:+ path))) /\
    (forall other, other <> path ->
                   fst (mockGetFileInfo ctx' other m1)
                   = fst (mockGetFileInfo ctx' other m)).
Proof.
  intros Hf. unfold mockDeleteFile. rewrite Hf.
  eexists. split; [reflexivity|]. split; [reflexivity|].
  unfold mockGetFileInfo. simpl. rewrite ?Hf. split.
  - rewrite lookup_delete_eq. reflexivity.
  - intros other Hne. rewrite lookup_delete_ne by congruence.
    destruct (files m !! other); reflexivity.
Qed.

Lemma mock_delete_then_lookup_witness :
  exists m1,
    mockDeleteFile ∅ "a.png" (backend mockWorld) = (None, m1) /\
    deletes m1 = ["a.png"] /\
    fst (mockGetFileInfo ∅ "a.png" m1)
      = (None, Some (errorString "file not found: a.png")).
Proof.
  destruct (mock_delete_then_lookup ∅ ∅ "a.png" (backend mockWorld))
    as (m1 & H1 & H2 & H3 & _); [reflexivity|].
  exists m1. auto.
Defined.

(** X26.  [SetFailureMode(true, err)] fails exactly the next call of the
    mock, whichever it is: that call returns [err], stores and records
    nothing and clears the flag, so that the call after it succeeds. *)
Theorem mock_failure_is_one_shot (ctx : Ctx) (req : UploadRequest.t)
    (path dest : string) (err : option error) (m : MockRustFSClient) :
  let failing := SetFailureMode true err m in
  let after := SetFailureMode false err m in
  mockUploadFile ctx req failing = ((None, err), after) /\
  mockDeleteFile ctx path failing = (err, after) /\
  mockGetFileInfo ctx path failing = ((None, err), after) /\
  mockCopyFile ctx path dest failing = (err, after) /\
  mockCheckHealth ctx failing = (err, after) /\
  (exists response m', mockUploadFile ctx req after
                       = ((Some response, None), m')) /\
  mockCheckHealth ctx after = (None, after).
Proof.
  simpl. repeat split. eexists. eexists. reflexivity.
Qed.

(** X27.  [CopyFile] of the mock, when it is not set to fail: the copy of
    an existing file is found under the destination path with the size,
    content type and metadata of the source, and the source stays where it
    is; copying a file that does not exist fails and changes nothing. *)
Theorem mock_copy (ctx ctx' : Ctx) (sourcePath destPath : string)
    (m : MockRustFSClient) :
  shouldFail m = false ->
  (forall source,
     files m !! sourcePath = Some source ->
     exists copy m1 m2,
       mockCopyFile ctx sourcePath destPath m = (None, m1) /\
       mockGetFileInfo ctx' destPath m1 = ((Some copy, None), m2) /\
       FileInfo.Path copy = destPath /\
       FileInfo.Size copy = FileInfo.Size source /\
       FileInfo.ContentType copy = FileInfo.ContentType source /\
       FileInfo.Metadata copy = FileInfo.Metadata source /\
       (sourcePath <> destPath -> files m1 !! sourcePath = Some source) /\
       uploads m1 = uploads m) /\
  (files m !! sourcePath = None ->
   mockCopyFile ctx sourcePath destPath m
   = (Some (errorString ("source file not found: " +:+ sourcePath)), m)).
Proof.
  intros Hf. unfold mockCopyFile. rewrite Hf. split.
  - intros source Hsrc. rewrite Hsrc.
    eexists. eexists. eexists. split; [reflexivity|].
    unfold mockGetFileInfo. simpl. rewrite ?Hf, lookup_insert_eq.
    split; [reflexivity|]. simpl. repeat split.
    intros Hne. rewrite lookup_insert_ne by congruence. exact Hsrc.
  - intros ->. reflexivity.
Qed.

Lemma mock_copy_witness :
  let m := snd (mockUploadFile ∅ (snapshotRequest 1024) (backend mockWorld)) in
  (exists copy m1 m2,
     mockCopyFile ∅ "snapshots/2024/01/01" "copy.png" m = (None, m1) /\
     mockGetFileInfo ∅ "copy.png" m1 = ((Some copy, None), m2) /\
     FileInfo.Size copy = 1024) /\
  mockCopyFile ∅ "a.png" "b.png" m
  = (Some (errorString "source file not found: a.png"), m).
Proof.
  intros m.
  destruct (mock_copy ∅ ∅ "snapshots/2024/01/01" "copy.png" m eq_refl)
    as [Hcopy _].
  destruct (mock_copy ∅ ∅ "a.png" "b.png" m eq_refl) as [_ Hnone].
  split; [|apply Hnone; reflexivity].
  edestruct Hcopy as (copy & m1 & m2 & H1 & H2 & _ & H3 & _); [reflexivity|].
  exists copy, m1, m2. auto.
Defined.

End MockFacts.

(** ** Files, URLs and sanitised names *)

Section ValidateFileFacts.
Import GoStrings FileNames.

(** X28.  [ValidateFile] measures what one [Read] has put into its buffer
    of 512 bytes, not the file: with a maximum of 512 bytes or more it
    answers as it does with no maximum ([maxSize = 0]), and its verdict is
    never [FILE_TOO_LARGE]. *)
Theorem ValidateFile_size_check
    (http_DetectContentType mime_TypeByExtension : string -> string)
    (data : string) (readErr : ReadError) (filename : string) (maxSize : Z)
    (allowedTypes : list string) :
  (String.length data <= 512)%nat ->
  512 <= maxSize ->
  let result := ValidateFile http_DetectContentType mime_TypeByExtension
                  data readErr filename maxSize allowedTypes in
  result = ValidateFile http_DetectContentType mime_TypeByExtension
             data readErr filename 0 allowedTypes /\
  FileValidationResult.Code (fst result) <> "FILE_TOO_LARGE".
Proof.
  intros Hread Hmax result.
  assert (H : result = ValidateFile http_DetectContentType
                         mime_TypeByExtension data readErr filename 0
                         allowedTypes).
  { unfold result, ValidateFile.
    replace (maxSize <? Z.of_nat (String.length data)) with false
      by (symmetry; apply Z.ltb_ge; lia).
    rewrite andb_false_r. reflexivity. }
  split; [exact H|]. rewrite H. unfold ValidateFile.
  destruct readErr; cbn [Z.ltb Z.compare andb];
    try discriminate;
    destruct (negb (isAllowedType _ _)); discriminate.
Qed.

Lemma ValidateFile_size_check_witness :
  let result := ValidateFile (fun _ => "image/png") (fun _ => "")
                  "the first bytes of a file of many megabytes" ReadNil
                  "big.png" 1024 ["image/*"] in
  result = ValidateFile (fun _ => "image/png") (fun _ => "")
             "the first bytes of a file of many megabytes" ReadNil
             "big.png" 0 ["image/*"] /\
  FileValidationResult.Code (fst result) <> "FILE_TOO_LARGE".
Proof.
  apply (ValidateFile_size_check (fun _ => "image/png") (fun _ => "")
           "the first bytes of a file of many megabytes" ReadNil "big.png"
           1024 ["image/*"]).
  - simpl. lia.
  - lia.
Defined.

End ValidateFileFacts.

Section URLFacts.
Import GoStrings Client.

Lemma snoc_cases (s : string) :
  s = "" \/ exists b c, s = b +:+ String c "".
Proof.
  induction s as [|x s IH]; [left; reflexivity|]. right.
  destruct IH as [->|(b & c & ->)].
  - exists "", x. reflexivity.
  - exists (String x b), c. reflexivity.
Qed.

Lemma get_snoc (b : string) (c : ascii) :
  String.get (String.length b) (b +:+ String c "") = Some c.
Proof. induction b as [|x b IH]; [reflexivity|]. simpl. exact IH. Qed.

Lemma snoc_inj (b b' : string) (c c' : ascii) :
  b +:+ String c "" = b' +:+ String c' "" -> c = c'.
Proof.
  revert b'. induction b as [|x b IH]; intros [|y b'] H.
  - injection H as ->. reflexivity.
  - rewrite append_cons in H. injection H as _ H.
    destruct b'; discriminate H.
  - rewrite append_cons in H. injection H as _ H.
    destruct b; discriminate H.
  - rewrite !append_cons in H. injection H as _ H. eauto.
Qed.

(** X29.  [GetFileURL] of [RustFSClient] is the [BaseURL] without one
    trailing slash, followed by the bucket and the path; a [BaseURL]
    written with a trailing slash gives the URL of the one written
    without. *)
Theorem GetFileURL_trailing_slash (config : Config.RustFSConfig)
    (path : string) :
  RustFSClient_GetFileURL config path
  = TrimSuffix (Config.BaseURL config) "/" +:+ "/" +:+
    Config.BucketName config +:+ "/" +:+ path /\
  (forall base,
     Config.BaseURL config = base +:+ "/" ->
     RustFSClient_GetFileURL config path
     = base +:+ "/" +:+ Config.BucketName config +:+ "/" +:+ path).
Proof.
  assert (H : RustFSClient_GetFileURL config path
              = TrimSuffix (Config.BaseURL config) "/" +:+ "/" +:+
                Config.BucketName config +:+ "/" +:+ path).
  { unfold RustFSClient_GetFileURL. f_equal.
    destruct (snoc_cases (Config.BaseURL config)) as [->|(b & c & ->)];
      [reflexivity|].
    rewrite length_append. simpl String.length.
    replace (String.length b + 1 - 1)%nat with (String.length b) by lia.
    replace (0 <? String.length b + 1)%nat with true
      by (symmetry; apply Nat.ltb_lt; lia).
    rewrite get_snoc. simpl.
    destruct (Ascii.eqb_spec c "/") as [->|Hc].
    - change (String "/" "") with "/". rewrite TrimSuffix_append.
      unfold slice_to. apply substring_append_l.
    - unfold TrimSuffix.
      destruct (HasSuffix (b +:+ String c "") "/") eqn:Hs; [|reflexivity].
      apply HasSuffix_spec in Hs. destruct Hs as [t Ht].
      apply snoc_inj in Ht. contradiction. }
  split; [exact H|]. intros base Hbase. rewrite H, Hbase, TrimSuffix_append.
  reflexivity.
Qed.

End URLFacts.

Section SanitizeFacts.
Import GoStrings FileUtils FileNames.

Lemma prefix_empty (s : string) : String.prefix "" s = true.
Proof. destruct s; reflexivity. Qed.

Lemma prefix_char (c x : ascii) (s : string) :
  String.prefix (String c "") (String x s) = Ascii.eqb x c.
Proof.
  change (String.prefix (String c "") (String x s))
    with (if ascii_dec c x then String.prefix "" s else false).
  destruct (ascii_dec c x) as [->|Hne].
  - rewrite prefix_empty, Ascii.eqb_refl. reflexivity.
  - symmetry. apply Ascii.eqb_neq. congruence.
Qed.

Lemma Contains_char_cons (c x : ascii) (s : string) :
  Contains (String x s) (String c "")
  = Ascii.eqb x c || Contains s (String c "").
Proof.
  change (Contains (String x s) (String c ""))
    with (String.prefix (String c "") (String x s)
          || Contains s (String c "")).
  rewrite prefix_char. reflexivity.
Qed.

Lemma Contains_char_append (c : ascii) (a b : string) :
  Contains (a +:+ b) (String c "")
  = Contains a (String c "") || Contains b (String c "").
Proof.
  induction a as [|x a IH]; [reflexivity|].
  rewrite append_cons, !Contains_char_cons, IH, orb_assoc. reflexivity.
Qed.

Lemma replace_keeps_free (c : ascii) (s old new : string) (skip : nat) :
  Contains s (String c "") = false ->
  Contains new (String c "") = false ->
  Contains (replace_from skip s old new) (String c "") = false.
Proof.
  intros Hs Hnew. revert skip Hs.
  induction s as [|x s IH]; intros skip Hs; [reflexivity|].
  rewrite Contains_char_cons in Hs. apply orb_false_elim in Hs.
  destruct Hs as [Hx Hs]. cbn [replace_from].
  destruct skip as [|k]; [|auto].
  destruct (String.prefix old (String x s)).
  - rewrite Contains_char_append, Hnew. cbn [orb]. auto.
  - rewrite Contains_char_cons, Hx. cbn [orb]. auto.
Qed.

Lemma replace_frees (c : ascii) (s new : string) :
  Contains new (String c "") = false ->
  Contains (ReplaceAll s (String c "") new) (String c "") = false.
Proof.
  intros Hnew. unfold ReplaceAll.
  induction s as [|x s IH]; [reflexivity|].
  cbn [replace_from String.length Nat.sub]. rewrite prefix_char.
  destruct (Ascii.eqb x c) eqn:Hx.
  - rewrite Contains_char_append, Hnew. exact IH.
  - rewrite Contains_char_cons, Hx. exact IH.
Qed.

Lemma TrimLeftFunc_free (c : ascii) (s : string) (f : ascii -> bool) :
  Contains s (String c "") = false ->
  Contains (TrimLeftFunc s f) (String c "") = false.
Proof.
  induction s as [|x s IH]; intros Hs; [reflexivity|].
  cbn [TrimLeftFunc].
  destruct (f x); [|exact Hs].
  rewrite Contains_char_cons in Hs. apply orb_false_elim in Hs.
  apply IH, Hs.
Qed.

Lemma TrimRightFunc_free (c : ascii) (s : string) (f : ascii -> bool) :
  Contains s (String c "") = false ->
  Contains (TrimRightFunc s f) (String c "") = false.
Proof.
  induction s as [|x s IH]; intros Hs; [reflexivity|].
  cbn [TrimRightFunc].
  rewrite Contains_char_cons in Hs. apply orb_false_elim in Hs.
  destruct Hs as [Hx Hs]. specialize (IH Hs).
  destruct (TrimRightFunc s f) as [|y t].
  - destruct (f x); [reflexivity|].
    rewrite Contains_char_cons, Hx. reflexivity.
  - rewrite Contains_char_cons, Hx. exact IH.
Qed.

(** The decimal form of an integer has digits and a sign only. *)
Lemma Z_to_string_free (c : ascii) (z : Z) :
  Contains "0123456789-" (String c "") = false ->
  Contains (Z_to_string z) (String c "") = false.
Proof.
  intros H. repeat rewrite Contains_char_cons in H.
  repeat (apply orb_false_elim in H; destruct H as [? H]).
  assert (Hu : forall d, Contains (NilEmpty.string_of_uint d) (String c "")
                         = false).
  { induction d; cbn [NilEmpty.string_of_uint];
      [reflexivity | rewrite Contains_char_cons, IHd, orb_false_r ..];
      assumption. }
  assert (Hz : forall d, Contains (NilZero.string_of_uint d) (String c "")
                         = false).
  { intros d. destruct d; try apply Hu.
    cbn [NilZero.string_of_uint]. rewrite Contains_char_cons, orb_false_r.
    assumption. }
  unfold Z_to_string, NilZero.string_of_int.
  destruct (Z.to_int z) as [d|d]; [apply Hz|].
  rewrite Contains_char_cons, Hz, orb_false_r. assumption.
Qed.

Lemma prefix_dot (x : ascii) (s : string) :
  String.prefix "." (String x s) = Ascii.eqb x ".".
Proof. apply prefix_char. Qed.

Lemma Contains_dotdot_cons (x : ascii) (s : string) :
  Contains (String x s) ".."
  = (Ascii.eqb x "." && String.prefix "." s) || Contains s "..".
Proof.
  change (Contains (String x s) "..")
    with (String.prefix ".." (String x s) || Contains s "..").
  f_equal.
  change (String.prefix ".." (String x s))
    with (if ascii_dec "." x then String.prefix "." s else false).
  destruct (ascii_dec "." x) as [<-|Hne]; [reflexivity|].
  replace (Ascii.eqb x ".") with false; [reflexivity|].
  symmetry. apply Ascii.eqb_neq. congruence.
Qed.

Lemma no_dot_no_dotdot (s : string) :
  Contains s "." = false -> Contains s ".." = false.
Proof.
  induction s as [|x s IH]; intros H; [reflexivity|].
  rewrite Contains_char_cons in H. apply orb_false_elim in H.
  destruct H as [Hx H]. rewrite Contains_dotdot_cons, Hx. auto.
Qed.

(** Replacing [..] leaves no [..] behind. *)
Lemma replace_dotdot (s : string) :
  Contains (replace_from 0 s ".." "_") ".." = false /\
  Contains (replace_from 1 s ".." "_") ".." = false /\
  (String.prefix "." (replace_from 0 s ".." "_") = true ->
   String.prefix "." s = true).
Proof.
  induction s as [|x s (IH0 & IH1 & IHhd)]; [repeat split; auto|].
  split; [|split; [exact IH0|]].
  - cbn [replace_from String.length Nat.sub].
    destruct (String.prefix ".." (String x s)) eqn:Hp.
    + change ("_" +:+ replace_from 1 s ".." "_")
        with (String "_" (replace_from 1 s ".." "_")).
      rewrite Contains_dotdot_cons. exact IH1.
    + rewrite Contains_dotdot_cons, IH0, orb_false_r.
      destruct (Ascii.eqb x ".") eqn:Hx; [|reflexivity].
      destruct (String.prefix "." (replace_from 0 s ".." "_")) eqn:Hhd;
        [|reflexivity].
      specialize (IHhd eq_refl).
      assert (Hc : Contains (String x s) ".." = true)
        by (rewrite Contains_dotdot_cons, Hx, IHhd; reflexivity).
      change (Contains (String x s) "..")
        with (String.prefix ".." (String x s) || Contains s "..") in Hc.
      rewrite Hp in Hc. cbn [orb] in Hc.
      exfalso.
      change (String.prefix ".." (String x s))
        with (if ascii_dec "." x then String.prefix "." s else false) in Hp.
      apply Ascii.eqb_eq in Hx. subst x.
      destruct (ascii_dec "." "."); [congruence | contradiction].
  - cbn [replace_from String.length Nat.sub].
    destruct (String.prefix ".." (String x s)).
    + change ("_" +:+ replace_from 1 s ".." "_")
        with (String "_" (replace_from 1 s ".." "_")).
      rewrite prefix_dot. discriminate.
    + rewrite !prefix_dot. auto.
Qed.

(** Replacing a byte that is no dot brings no [..]. *)
Lemma replace_char_dotdot (c : ascii) (s : string) :
  Ascii.eqb c "." = false ->
  Contains s ".." = false ->
  Contains (ReplaceAll s (String c "") "_") ".." = false /\
  (String.prefix "." (ReplaceAll s (String c "") "_") = true ->
   String.prefix "." s = true).
Proof.
  intros Hc. unfold ReplaceAll.
  induction s as [|x s IH]; intros Hs; [split; auto|].
  rewrite Contains_dotdot_cons in Hs. apply orb_false_elim in Hs.
  destruct Hs as [Hx Hs]. destruct (IH Hs) as [IH0 IHhd].
  cbn [replace_from String.length Nat.sub]. rewrite prefix_char.
  destruct (Ascii.eqb x c) eqn:Hxc.
  - change ("_" +:+ replace_from 0 s (String c "") "_")
      with (String "_" (replace_from 0 s (String c "") "_")).
    rewrite Contains_dotdot_cons, prefix_dot. split; [exact IH0|].
    discriminate.
  - rewrite Contains_dotdot_cons, IH0, orb_false_r, !prefix_dot.
    split; [|auto].
    destruct (Ascii.eqb x ".") eqn:Hd; [|reflexivity].
    destruct (String.prefix "." (replace_from 0 s (String c "") "_")) eqn:Hhd;
      [|reflexivity].
    specialize (IHhd eq_refl). rewrite IHhd in Hx. discriminate Hx.
Qed.

Lemma TrimLeftFunc_dotdot (s : string) (f : ascii -> bool) :
  Contains s ".." = false -> Contains (TrimLeftFunc s f) ".." = false.
Proof.
  induction s as [|x s IH]; intros Hs; [reflexivity|].
  cbn [TrimLeftFunc]. destruct (f x); [|exact Hs].
  rewrite Contains_dotdot_cons in Hs. apply orb_false_elim in Hs.
  apply IH, Hs.
Qed.

Lemma TrimRightFunc_dotdot (s : string) (f : ascii -> bool) :
  Contains s ".." = false ->
  Contains (TrimRightFunc s f) ".." = false /\
  (String.prefix "." (TrimRightFunc s f) = true ->
   String.prefix "." s = true).
Proof.
  induction s as [|x s IH]; intros Hs; [split; auto|].
  rewrite Contains_dotdot_cons in Hs. apply orb_false_elim in Hs.
  destruct Hs as [Hx Hs]. destruct (IH Hs) as [IH0 IHhd].
  cbn [TrimRightFunc].
  destruct (TrimRightFunc s f) as [|y t].
  - destruct (f x); [split; [reflexivity | discriminate]|].
    rewrite Contains_dotdot_cons, !prefix_dot, andb_false_r. auto.
  - rewrite Contains_dotdot_cons, IH0, orb_false_r. split.
    + destruct (Ascii.eqb x ".") eqn:Hd; [|reflexivity].
      destruct (String.prefix "." (String y t)) eqn:Hhd; [|reflexivity].
      specialize (IHhd eq_refl). rewrite IHhd in Hx. discriminate Hx.
    + rewrite !prefix_dot. auto.
Qed.

(** X30.  The name [SanitizeFilename] returns is not empty, has none of
    the nine characters that [IsValidFilename] forbids and no [..]; so
    [IsValidFilename] rejects it only when its base is a reserved device
    name. *)
Theorem SanitizeFilename_safe (filename : string) (unix : Z) :
  let sanitized := SanitizeFilename filename unix in
  sanitized <> "" /\
  existsb (fun char => Contains sanitized char) invalidChars = false /\
  Contains sanitized ".." = false /\
  (IsValidFilename sanitized = false ->
   List.In (ToUpper (TrimSuffix sanitized (Ext sanitized))) reservedNames).
Proof.
  intros sanitized.
  assert (H : sanitized <> "" /\
              existsb (fun char => Contains sanitized char) invalidChars
              = false /\
              Contains sanitized ".." = false); [unfold sanitized|].
  2:{ destruct H as (Hne & Hfree & Hdd). repeat split; auto.
      unfold IsValidFilename. rewrite Hfree.
      destruct (String.eqb_spec sanitized ""); [contradiction|].
      rewrite negb_false_iff, existsb_exists.
      intros (reserved & Hin & Heq). apply String.eqb_eq in Heq.
      rewrite Heq. exact Hin. }
  unfold SanitizeFilename, Trim, TrimSpace, specialChars.
  cbn [fold_left].
  match goal with
  | |- context [String.eqb ?t ""] => set (trimmed := t)
  end.
  assert (Hfree : forall c,
            List.In (String c "") invalidChars ->
            Contains trimmed (String c "") = false).
  { intros c Hin. unfold trimmed.
    do 2 (apply TrimRightFunc_free; apply TrimLeftFunc_free).
    unfold invalidChars in Hin. cbn [List.In] in Hin.
    repeat (destruct Hin as [Hin|Hin];
            [injection Hin as <-;
             repeat first
               [ apply replace_frees; reflexivity
               | apply replace_keeps_free; [|reflexivity] ]|]).
    contradiction. }
  assert (Hdd : Contains trimmed ".." = false).
  { unfold trimmed.
    apply TrimRightFunc_dotdot, TrimLeftFunc_dotdot,
      TrimRightFunc_dotdot, TrimLeftFunc_dotdot.
    repeat (apply replace_char_dotdot; [reflexivity|]).
    apply replace_dotdot. }
  cbv zeta.
  destruct (String.eqb_spec trimmed "") as [Hempty|Hne].
  - split; [discriminate|]. split.
    + unfold invalidChars. cbn [existsb].
      rewrite !Contains_char_append, !Z_to_string_free by reflexivity.
      reflexivity.
    + apply no_dot_no_dotdot.
      rewrite Contains_char_append, Z_to_string_free by reflexivity.
      reflexivity.
  - split; [exact Hne|]. split; [|exact Hdd].
    unfold invalidChars. cbn [existsb].
    rewrite !Hfree by (unfold invalidChars; cbn [List.In]; auto 12).
    reflexivity.
Qed.

End SanitizeFacts.
